(** * email-monitor: a shallow embedding of the run orchestration and
      delivery core, and the properties of its specification.

    The TypeScript sources are embedded function by function.  JavaScript
    strings are lists of UTF-16 code units, so that [length] is the
    [.length] of the source and [firstn] is [substring(0, n)].  The Apps
    Script services (Script Properties, the clock, the mailbox, the HTTP
    client) are fields of an explicit [World] that every effectful function
    threads through a small state-and-exception monad.

    Of the logger only the record that a message is being processed is
    kept (the trace of visits); its console output and the time stamp it
    takes for each line are left out, so the clock of the [World] counts
    the readings that the orchestration itself takes with
    [new Date().getTime()].

    The configuration of the bundled entry point is one JSON text.  Its
    guard checks four keys and one array, so the object it lets through
    is kept as the value that [JSON.parse] built, and every use of a
    field goes through the conversions of the language (ToBoolean,
    ToString, ToNumber, the relational comparison, the [Date]
    constructor).  [Number(s)] and [Date.parse(s)] on a text are taken
    from the platform. *)

From Stdlib Require Import ZArith NArith List Ascii String Bool Lia.
From Stdlib Require Import Decimal DecimalN DecimalPos.
From stdpp Require Import gmap strings.
Import ListNotations.

Set Warnings "-register-all".

Local Open Scope Z_scope.

(** ** JavaScript strings *)

Module Js.

(** A string is the list of its UTF-16 code units. *)
Abbreviation jsstring := (list N).

(** An ASCII literal of the source. *)
Definition lit (s : string) : jsstring :=
  map N_of_ascii (list_ascii_of_string s).

Definition nl : jsstring := [10%N].
Definition dquote : N := 34%N.

Definition eqb (a b : jsstring) : bool := bool_decide (a = b).

Fixpoint concat (l : list jsstring) : jsstring :=
  match l with
  | [] => []
  | s :: r => s ++ concat r
  end.

(** [Array.prototype.join] on strings. *)
Fixpoint join (sep : jsstring) (l : list jsstring) : jsstring :=
  match l with
  | [] => []
  | [s] => s
  | s :: r => s ++ sep ++ join sep r
  end.

(** [String.prototype.startsWith]. *)
Fixpoint startsWith (s p : jsstring) {struct p} : bool :=
  match p with
  | [] => true
  | c :: p' =>
      match s with
      | d :: s' => N.eqb c d && startsWith s' p'
      | [] => false
      end
  end.

Definition endsWith (s p : jsstring) : bool := startsWith (rev s) (rev p).

(** WhiteSpace and LineTerminator code units: what [trim], [parseInt]
    and the regular expression class [\s] skip. *)
Definition is_space (c : N) : bool :=
  ((9 <=? c) && (c <=? 13) || (c =? 32) || (c =? 160) || (c =? 5760)
   || (8192 <=? c) && (c <=? 8202) || (c =? 8232) || (c =? 8233)
   || (c =? 8239) || (c =? 8287) || (c =? 12288) || (c =? 65279))%N.

Fixpoint trimStart (s : jsstring) : jsstring :=
  match s with
  | c :: r => if is_space c then trimStart r else s
  | [] => []
  end.

Definition trimEnd (s : jsstring) : jsstring := rev (trimStart (rev s)).

(** [String.prototype.trim]. *)
Definition trim (s : jsstring) : jsstring := trimEnd (trimStart s).

(** Decimal digits. *)
Fixpoint codes_of_uint (u : Decimal.uint) : jsstring :=
  match u with
  | Nil => []
  | D0 r => 48%N :: codes_of_uint r
  | D1 r => 49%N :: codes_of_uint r
  | D2 r => 50%N :: codes_of_uint r
  | D3 r => 51%N :: codes_of_uint r
  | D4 r => 52%N :: codes_of_uint r
  | D5 r => 53%N :: codes_of_uint r
  | D6 r => 54%N :: codes_of_uint r
  | D7 r => 55%N :: codes_of_uint r
  | D8 r => 56%N :: codes_of_uint r
  | D9 r => 57%N :: codes_of_uint r
  end.

(** The longest prefix of decimal digits. *)
Fixpoint uint_of_codes (s : jsstring) : Decimal.uint :=
  match s with
  | [] => Nil
  | c :: r =>
      let k := uint_of_codes r in
      match c with
      | 48%N => D0 k | 49%N => D1 k | 50%N => D2 k | 51%N => D3 k
      | 52%N => D4 k | 53%N => D5 k | 54%N => D6 k | 55%N => D7 k
      | 56%N => D8 k | 57%N => D9 k
      | _ => Nil
      end
  end.

(** [Number.prototype.toString] of an integer below 10^21 in absolute
    value: the plain decimal numeral. *)
Definition Number_toString (z : Z) : jsstring :=
  match z with
  | Z0 => lit "0"
  | Zpos p => codes_of_uint (Pos.to_uint p)
  | Zneg p => 45%N :: codes_of_uint (Pos.to_uint p)
  end.

Definition nat_toString (n : nat) : jsstring := Number_toString (Z.of_nat n).

(** [parseInt(s, 10)]: leading white space, an optional sign, then
    the longest run of digits; [None] is NaN. *)
Definition parse_digits (s : jsstring) : option Z :=
  match uint_of_codes s with
  | Nil => None
  | u => Some (Z.of_N (N.of_uint u))
  end.

Definition parseInt (s : jsstring) : option Z :=
  match trimStart s with
  | 45%N :: r => option_map Z.opp (parse_digits r)
  | 43%N :: r => parse_digits r
  | r => parse_digits r
  end.

End Js.

Import Js.

(** ** JSON values, as [JSON.parse] returns them (plus [undefined]) *)

(** The numbers that are not integers: a finite one, given by the
    integer just below it and by its decimal numeral (what
    [Number.prototype.toString] returns for it); NaN; the two
    infinities. *)
Inductive NonInteger : Type :=
| Fraction (below : Z) (numeral : jsstring)
| NaN
| Infinity (negative : bool).

(** A number, as [ToNumber] returns it. *)
Inductive jsnum : Type :=
| Int (z : Z)
| NonInt (x : NonInteger).

Inductive jsval : Type :=
| JUndef
| JNull
| JBool (b : bool)
| JNum (z : Z)                     (* an integer; [-0] is [0] *)
| JNonInt (x : NonInteger)         (* any other number *)
| JStr (s : jsstring)
| JArr (items : list jsval)
| JObj (fields : list (jsstring * jsval)).

Module Val.

(** ToBoolean. *)
Definition truthy (v : jsval) : bool :=
  match v with
  | JUndef | JNull => false
  | JBool b => b
  | JNum z => negb (z =? 0)
  | JNonInt NaN => false
  | JNonInt _ => true
  | JStr s => match s with [] => false | _ => true end
  | JArr _ | JObj _ => true
  end.

Fixpoint assoc (k : jsstring) (fields : list (jsstring * jsval)) : jsval :=
  match fields with
  | [] => JUndef
  | (k', v) :: r => if Js.eqb k k' then v else assoc k r
  end.

(** [v.name] for a data property name that no prototype defines:
    [None] is the TypeError on [null] and [undefined]. *)
Definition get (name : jsstring) (v : jsval) : option jsval :=
  match v with
  | JUndef | JNull => None
  | JObj fields => Some (assoc name fields)
  | _ => Some JUndef
  end.

(** [v?.name]. *)
Definition get_opt (name : jsstring) (v : jsval) : jsval :=
  match get name v with
  | Some x => x
  | None => JUndef
  end.

(** [v?.[0]]. *)
Definition first_opt (v : jsval) : jsval :=
  match v with
  | JArr (x :: _) => x
  | JStr (c :: _) => JStr [c]
  | JObj fields => assoc (lit "0") fields
  | _ => JUndef
  end.

Definition nullish (v : jsval) : bool :=
  match v with JUndef | JNull => true | _ => false end.

Definition isArray (v : jsval) : bool :=
  match v with JArr _ => true | _ => false end.

(** ToString, as a template literal applies it.  An object is taken to
    inherit [toString] from [Object.prototype], as the objects that
    [JSON.parse] builds do unless one of their own keys has that name. *)
Fixpoint toString (v : jsval) : jsstring :=
  match v with
  | JUndef => lit "undefined"
  | JNull => lit "null"
  | JBool true => lit "true"
  | JBool false => lit "false"
  | JNum z => Number_toString z
  | JNonInt (Fraction _ numeral) => numeral
  | JNonInt NaN => lit "NaN"
  | JNonInt (Infinity false) => lit "Infinity"
  | JNonInt (Infinity true) => lit "-Infinity"
  | JStr s => s
  | JArr items =>
      Js.join (lit ",")
        (map (fun x => match x with
                       | JUndef | JNull => []
                       | _ => toString x
                       end) items)
  | JObj _ => lit "[object Object]"
  end.

(** ToPrimitive: an array or an object becomes its text. *)
Definition toPrimitive (v : jsval) : jsval :=
  match v with
  | JArr _ | JObj _ => JStr (toString v)
  | _ => v
  end.

(** [v.length], for a [v] other than [null] and [undefined]. *)
Definition length_of (v : jsval) : jsval :=
  match v with
  | JStr s => JNum (Z.of_nat (length s))
  | JArr items => JNum (Z.of_nat (length items))
  | JObj fields => assoc (lit "length") fields
  | _ => JUndef
  end.

End Val.

(** The comparisons of a number with an integer.  A comparison with NaN
    is false; a fraction lies strictly between [below] and
    [below + 1]. *)
Module Num.

(** [a < n]. *)
Definition ltb (a : jsnum) (n : Z) : bool :=
  match a with
  | Int z => z <? n
  | NonInt (Fraction below _) => below <? n
  | NonInt NaN => false
  | NonInt (Infinity negative) => negative
  end.

(** [a > n]. *)
Definition gtb (a : jsnum) (n : Z) : bool :=
  match a with
  | Int z => n <? z
  | NonInt (Fraction below _) => n <=? below
  | NonInt NaN => false
  | NonInt (Infinity negative) => negb negative
  end.

(** [n <= a]. *)
Definition geb (a : jsnum) (n : Z) : bool :=
  match a with
  | Int z => n <=? z
  | NonInt (Fraction below _) => n <=? below
  | NonInt NaN => false
  | NonInt (Infinity negative) => negb negative
  end.

End Num.

(** ** src/email/types.ts *)

Record EmailMessage : Type := {
  id : jsstring;
  threadId : jsstring;
  from : jsstring;
  subject : jsstring;
  bodyPlain : jsstring;
  bodyHtml : jsstring;
  receivedDate : Z;          (* receivedDate.getTime() *)
  processed : bool;
  labelIds : list jsstring
}.

Inductive MatchedPattern : Type :=
| numbered | bullet | action | checkbox | ai_extracted.

(** [description] and [priority] hold whatever the producer stored: the
    pattern extractor stores a string, the AI extractor stores the parsed
    field unchecked. *)
Record TodoItem : Type := {
  description : jsval;
  priority : jsval;
  sourceEmailId : jsstring;
  sourceSender : jsstring;
  sourceSubject : jsstring;
  extractedAt : Z;
  matchedPattern : MatchedPattern
}.

(** ** src/line/types.ts and src/line/MessageFormatter.ts *)

Module LINE_CONSTRAINTS.
Definition MAX_TEXT_LENGTH : nat := 5000.
Definition MAX_MESSAGE_LENGTH : nat := 5000.
Definition MAX_MESSAGES_PER_REQUEST : nat := 5.
End LINE_CONSTRAINTS.

Module MessageFormatter.

Definition envelope_icon : jsstring := [55357%N; 56551%N].   (* U+1F4E7 *)
Definition rule : jsstring := repeat 9472%N 17.              (* U+2500 x 17 *)
Definition truncation_suffix : jsstring :=
  nl ++ nl ++ lit "...(truncated)".

Definition getPriorityIcon (priority : jsval) : jsstring :=
  match priority with
  | JStr s =>
      if Js.eqb s (lit "high") then [55357%N; 56628%N; 32%N]        (* U+1F534 *)
      else if Js.eqb s (lit "medium") then [55357%N; 57313%N; 32%N] (* U+1F7E1 *)
      else if Js.eqb s (lit "low") then [55357%N; 57314%N; 32%N]    (* U+1F7E2 *)
      else []
  | _ => []
  end.

(** The body of [todos.forEach((todo, index) => ...)]. *)
Fixpoint forEach_todo (index : nat) (todos : list TodoItem)
    (message : jsstring) : jsstring :=
  match todos with
  | [] => message
  | todo :: rest =>
      let number := (index + 1)%nat in
      let priorityIcon := getPriorityIcon (priority todo) in
      forEach_todo (S index) rest
        (message ++ nat_toString number ++ lit ". " ++ priorityIcon
                 ++ Val.toString (description todo) ++ nl)
  end.

(** The message as built before the length check. *)
Definition render (todos : list TodoItem) (sender subject : jsstring)
    : jsstring :=
  let message := envelope_icon ++ lit " New Todos from Email" ++ nl ++ nl in
  let message := message ++ lit "From: " ++ sender ++ nl in
  let message := message ++ lit "Subject: " ++ subject ++ nl in
  let message := message ++ nl ++ rule ++ nl ++ nl in
  let message := forEach_todo 0 todos message in
  let message := message ++ nl ++ rule ++ nl in
  message ++ lit "Total: " ++ nat_toString (length todos) ++ lit " todo"
          ++ (if (1 <? length todos)%nat then lit "s" else []).

Definition formatTodosForLine (todos : list TodoItem)
    (sender subject : jsstring) : jsstring :=
  if (length todos =? 0)%nat then []
  else
    let message := render todos sender subject in
    if (LINE_CONSTRAINTS.MAX_MESSAGE_LENGTH <? length message)%nat
    then firstn (LINE_CONSTRAINTS.MAX_MESSAGE_LENGTH - 20) message
           ++ truncation_suffix
    else message.

End MessageFormatter.

(** ** The platform: pure library functions *)

(** One result of [RegExp.prototype.exec]: capture groups 1 and 2
    ([None] where the group did not take part in the match). *)
Record RegExpMatch : Type := {
  group1 : option jsstring;
  group2 : option jsstring
}.

(** Library functions of the JavaScript runtime and of Apps Script that
    the sources call and that have no effect.  The development is
    parametric in them. *)
Record Platform : Type := {
  (** [JSON.parse]; [None] is the SyntaxError. *)
  JSON_parse : jsstring -> option jsval;
  (** [JSON.stringify]. *)
  JSON_stringify : jsval -> jsstring;
  (** [Utilities.formatDate(new Date(t), 'GMT', 'yyyy/MM/dd')]. *)
  formatDate : Z -> jsstring;
  (** [new Date(t).toLocaleString('en-US', { timeZone: 'Asia/Tokyo' })]. *)
  toLocaleString : Z -> jsstring;
  (** [(ms / 1000).toFixed(2)]. *)
  toFixed2 : Z -> jsstring;
  (** [String.prototype.toLowerCase]. *)
  toLowerCase : jsstring -> jsstring;
  (** All successive [exec] results of one of the global extraction
      patterns of src/email/EmailParser.ts on a text. *)
  exec_all : MatchedPattern -> jsstring -> list RegExpMatch;
  (** [Number(s)]: the number that a string converts to. *)
  Number_of_string : jsstring -> jsnum;
  (** [Date.parse(s)]; [None] is NaN. *)
  Date_parse : jsstring -> option Z;
  (** [Utilities.formatDate] of an invalid date: the text it returns, or
      [None] when it raises. *)
  formatDate_invalid : option jsstring
}.

(** ** The world: Apps Script services with state *)

(** What [UrlFetchApp.fetch] does with [muteHttpExceptions: true]: an HTTP
    response of any status is returned; a transport failure raises. *)
Inductive FetchOutcome : Type :=
| Response (statusCode : Z) (responseBody : jsstring)
| FetchFails (reason : jsstring).

Record GmailMessage : Type := {
  getId : jsstring;
  getFrom : jsstring;
  getSubject : jsstring;
  getPlainBody : jsstring;
  getBody : jsstring;
  getDate : Z                      (* getDate().getTime() *)
}.

Record GmailThread : Type := {
  getThreadId : jsstring;
  getLabels : list jsstring;
  getMessages : list GmailMessage
}.

(** One HTTP POST to the push endpoint. *)
Record LinePushRequest : Type := {
  authorization : jsstring;        (* the bearer token *)
  to : jsval;
  text : jsstring
}.

(** The log record that opens the work on one message:
    [logger.info('Processing email', { from, subject, id })]. *)
Inductive LogEvent : Type :=
| Processing_email (sender title ident : jsstring).

Record World : Type := {
  (** [PropertiesService.getScriptProperties()]. *)
  properties : gmap string jsstring;
  (** [new Date().getTime()]: the k-th reading of the run. *)
  clock : nat -> Z;
  clock_reads : nat;
  (** [GmailApp.search(query, start, max)]; [None] is a raised error. *)
  mailbox : jsstring -> Z -> jsval -> option (list GmailThread);
  (** The push endpoint: the outcome of the k-th POST, and the POSTs made. *)
  line_endpoint : nat -> FetchOutcome;
  line_requests : list LinePushRequest;
  (** The generative-language endpoint, likewise (the prompts sent). *)
  gemini_endpoint : nat -> FetchOutcome;
  gemini_requests : list jsstring;
  (** The arguments of [Utilities.sleep], in order. *)
  sleeps : list Z;
  (** The trace of started messages. *)
  log : list LogEvent
}.

Definition set_properties (p : gmap string jsstring) (w : World) : World :=
  {| properties := p; clock := clock w; clock_reads := clock_reads w;
     mailbox := mailbox w; line_endpoint := line_endpoint w;
     line_requests := line_requests w; gemini_endpoint := gemini_endpoint w;
     gemini_requests := gemini_requests w; sleeps := sleeps w; log := log w |}.

Definition tick (w : World) : World :=
  {| properties := properties w; clock := clock w;
     clock_reads := S (clock_reads w);
     mailbox := mailbox w; line_endpoint := line_endpoint w;
     line_requests := line_requests w; gemini_endpoint := gemini_endpoint w;
     gemini_requests := gemini_requests w; sleeps := sleeps w; log := log w |}.

Definition add_line_request (r : LinePushRequest) (w : World) : World :=
  {| properties := properties w; clock := clock w; clock_reads := clock_reads w;
     mailbox := mailbox w; line_endpoint := line_endpoint w;
     line_requests := line_requests w ++ [r];
     gemini_endpoint := gemini_endpoint w;
     gemini_requests := gemini_requests w; sleeps := sleeps w; log := log w |}.

Definition add_gemini_request (prompt : jsstring) (w : World) : World :=
  {| properties := properties w; clock := clock w; clock_reads := clock_reads w;
     mailbox := mailbox w; line_endpoint := line_endpoint w;
     line_requests := line_requests w; gemini_endpoint := gemini_endpoint w;
     gemini_requests := gemini_requests w ++ [prompt];
     sleeps := sleeps w; log := log w |}.

Definition add_sleep (ms : Z) (w : World) : World :=
  {| properties := properties w; clock := clock w; clock_reads := clock_reads w;
     mailbox := mailbox w; line_endpoint := line_endpoint w;
     line_requests := line_requests w; gemini_endpoint := gemini_endpoint w;
     gemini_requests := gemini_requests w; sleeps := sleeps w ++ [ms];
     log := log w |}.

Definition add_log (e : LogEvent) (w : World) : World :=
  {| properties := properties w; clock := clock w; clock_reads := clock_reads w;
     mailbox := mailbox w; line_endpoint := line_endpoint w;
     line_requests := line_requests w; gemini_endpoint := gemini_endpoint w;
     gemini_requests := gemini_requests w; sleeps := sleeps w;
     log := log w ++ [e] |}.

(** ** The monad: state and JavaScript exceptions *)

Inductive Result (A : Type) : Type :=
| Ok (a : A)
| Throw (message : jsstring).

Arguments Ok {A} a.
Arguments Throw {A} message.

Definition M (A : Type) : Type := World -> Result A * World.

Definition ret {A : Type} (a : A) : M A := fun w => (Ok a, w).

Definition throw {A : Type} (message : jsstring) : M A :=
  fun w => (Throw message, w).

Definition bind {A B : Type} (m : M A) (k : A -> M B) : M B :=
  fun w =>
    match m w with
    | (Ok a, w') => k a w'
    | (Throw e, w') => (Throw e, w')
    end.

(** [try { m } catch (error) { handler(error.message) }]: the effects of
    [m] up to the throw stay. *)
Definition try_catch {A : Type} (m : M A) (handler : jsstring -> M A) : M A :=
  fun w =>
    match m w with
    | (Ok a, w') => (Ok a, w')
    | (Throw e, w') => handler e w'
    end.

Declare Scope js_scope.
Delimit Scope js_scope with js.
Notation "x <- m ;; k" := (bind m (fun x => k))
  (at level 100, m at next level, right associativity) : js_scope.
Notation "m ;; k" := (bind m (fun _ => k))
  (at level 100, right associativity) : js_scope.
Local Open Scope js_scope.

(** [new Date().getTime()]. *)
Definition now : M Z :=
  fun w => (Ok (clock w (clock_reads w)), tick w).

(** [Utilities.sleep(ms)]. *)
Definition sleep (ms : Z) : M unit := fun w => (Ok tt, add_sleep ms w).

Definition logger_info (e : LogEvent) : M unit := fun w => (Ok tt, add_log e w).

(** [properties.getProperty(key)]. *)
Definition getProperty (key : string) : M (option jsstring) :=
  fun w => (Ok (properties w !! key), w).

(** [properties.setProperty(key, value)]. *)
Definition setProperty (key : string) (value : jsstring) : M unit :=
  fun w => (Ok tt, set_properties (<[key := value]> (properties w)) w).

(** [GmailApp.search(query, start, max)]. *)
Definition GmailApp_search (query : jsstring) (start : Z) (max : jsval)
    : M (list GmailThread) :=
  fun w =>
    match mailbox w query start max with
    | Some threads => (Ok threads, w)
    | None => (Throw (lit "Gmail service error"), w)
    end.

(** [UrlFetchApp.fetch] to the push endpoint. *)
Definition fetch_line (r : LinePushRequest) : M (Z * jsstring) :=
  fun w =>
    match line_endpoint w (length (line_requests w)) with
    | Response s b => (Ok (s, b), add_line_request r w)
    | FetchFails e => (Throw e, add_line_request r w)
    end.

(** [UrlFetchApp.fetch] to the generative-language endpoint. *)
Definition fetch_gemini (prompt : jsstring) : M (Z * jsstring) :=
  fun w =>
    match gemini_endpoint w (length (gemini_requests w)) with
    | Response s b => (Ok (s, b), add_gemini_request prompt w)
    | FetchFails e => (Throw e, add_gemini_request prompt w)
    end.

(** ** src/line/LineService.ts *)

Record LineApiError : Type := {
  message : jsval;
  details : jsval
}.

Record LineApiResponse : Type := {
  status : Z;
  body : jsstring;
  error : option LineApiError
}.

Module LineService.

Section WithPlatform.
Variable P : Platform.

Definition buildErrorResponse (statusCode : Z) (responseBody : jsstring)
    : LineApiResponse :=
  let fallback :=
    {| message := JStr (match responseBody with
                        | [] => lit "Unknown error"
                        | _ => responseBody
                        end);
       details := JUndef |} in
  let err :=
    match JSON_parse P responseBody with
    | Some errorData =>
        match Val.get (lit "message") errorData with
        | Some m =>
            {| message := if Val.truthy m then m else JStr (lit "Unknown error");
               details := Val.get_opt (lit "details") errorData |}
        | None => fallback
        end
    | None => fallback
    end in
  {| status := statusCode; body := responseBody; error := Some err |}.

Definition handleLineResponse (statusCode : Z) (responseBody : jsstring)
    : LineApiResponse :=
  if statusCode =? 200
  then {| status := statusCode; body := responseBody; error := None |}
  else buildErrorResponse statusCode responseBody.

(** [sendToLineApi] on whatever the caller holds as the token and as the
    group id: the token goes through the template literal of the header,
    the group id into the payload as it is. *)
Definition sendToLineApi_untyped (accessToken groupId : jsval) (text : jsstring)
    : M LineApiResponse :=
  response <- fetch_line {| authorization := Val.toString accessToken;
                            to := groupId; text := text |} ;;
  ret (handleLineResponse (fst response) (snd response)).

(** At the declared types. *)
Definition sendToLineApi (accessToken groupId text : jsstring)
    : M LineApiResponse :=
  sendToLineApi_untyped (JStr accessToken) (JStr groupId) text.

(** The loop of [withRetry]: [attempt] is the loop variable, [remaining]
    the number of iterations left ([maxRetries + 1 - attempt]). *)
Fixpoint withRetry_from {T : Type} (fn : M T) (maxRetries attempt : nat)
    (remaining : nat) (lastError : option jsstring) : M T :=
  match remaining with
  | O =>
      throw (match lastError with
             | Some e => e
             | None => lit "Retry failed with unknown error"
             end)
  | S remaining' =>
      try_catch fn
        (fun e =>
           (if (attempt <? maxRetries)%nat
            then sleep (2 ^ Z.of_nat attempt * 1000)
            else ret tt) ;;
           withRetry_from fn maxRetries (S attempt) remaining' (Some e))
  end.

Definition withRetry {T : Type} (fn : M T) (maxRetries : nat) : M T :=
  withRetry_from fn maxRetries 0 (S maxRetries) None.

Definition pushMessage (accessToken groupId text : jsstring)
    : M LineApiResponse :=
  withRetry (sendToLineApi accessToken groupId text) 3.

Definition pushMessage_untyped (accessToken groupId : jsval) (text : jsstring)
    : M LineApiResponse :=
  withRetry (sendToLineApi_untyped accessToken groupId text) 3.

End WithPlatform.

End LineService.

(** ** src/gemini/GeminiService.ts *)

Module GeminiService.

Section WithPlatform.
Variable P : Platform.

Definition buildExtractionPrompt (emailBody emailSubject : jsstring)
    : jsstring :=

  lit "You are a todo extraction assistant. Extract actionable todo items from the following email." ++
  nl ++ nl ++ lit "Email Subject: " ++ emailSubject ++ nl ++ nl ++
  lit "Email Content:" ++ nl ++ emailBody ++ nl ++ nl ++
  lit "Instructions:" ++ nl ++
  lit "1. Extract ONLY actionable todo items (tasks that need to be done)" ++
  nl ++ lit "2. Ignore greetings, signatures, and non-actionable content" ++
  nl ++ lit "3. Return todos in JSON format as an array of objects" ++ nl ++
  lit "4. Each todo should have: description (string), priority (optional: " ++
  [dquote] ++ lit "high" ++ [dquote] ++ lit ", " ++ [dquote] ++
  lit "medium" ++ [dquote] ++ lit ", " ++ [dquote] ++ lit "low" ++
  [dquote] ++ lit ")" ++ nl ++
  lit "5. If no todos found, return an empty array" ++ nl ++ nl ++
  lit "Format:" ++ nl ++ lit "[" ++ nl ++ lit "  {" ++ [dquote] ++
  lit "description" ++ [dquote] ++ lit ": " ++ [dquote] ++
  lit "Review pull request" ++ [dquote] ++ lit ", " ++ [dquote] ++
  lit "priority" ++ [dquote] ++ lit ": " ++ [dquote] ++ lit "high" ++
  [dquote] ++ lit "}," ++ nl ++ lit "  {" ++ [dquote] ++ lit "description" ++
  [dquote] ++ lit ": " ++ [dquote] ++ lit "Update documentation" ++
  [dquote] ++ lit "}" ++ nl ++ lit "]" ++ nl ++ nl ++
  lit "Return ONLY the JSON array, no additional text.".

(** Returns the candidate text; the declared type is [string], the value
    is whatever truthy value the response holds at that path. *)
Definition callGeminiAPI (prompt : jsstring) : M jsval :=
  response <- fetch_gemini prompt ;;
  let statusCode := fst response in
  let responseBody := snd response in
  if negb (statusCode =? 200)
  then throw (lit "Gemini API error: " ++ Number_toString statusCode)
  else
    match JSON_parse P responseBody with
    | None => throw (lit "SyntaxError: Unexpected token in JSON")
    | Some data =>
        match Val.get (lit "candidates") data with
        | None => throw (lit "TypeError: Cannot read properties of null")
        | Some candidates =>
            let content :=
              Val.get_opt (lit "text")
                (Val.first_opt
                   (Val.get_opt (lit "parts")
                      (Val.get_opt (lit "content")
                         (Val.first_opt candidates)))) in
            if negb (Val.truthy content) then ret (JStr (lit "[]"))
            else ret content
        end
    end.

(** [s.replace(/```json\n?/, '')] and [s.replace(/```\n?/, '')] on a
    string that starts with the fence: the fence and one following line
    feed go. *)
Definition remove_opening_fence (fence s : jsstring) : jsstring :=
  match skipn (length fence) s with
  | 10%N :: r => r
  | r => r
  end.

(** [s.replace(/\n?```$/, '')]. *)
Definition remove_closing_fence (s : jsstring) : jsstring :=
  match rev s with
  | 96%N :: 96%N :: 96%N :: 10%N :: r => rev r
  | 96%N :: 96%N :: 96%N :: r => rev r
  | _ => s
  end.

Definition strip_code_fence (response : jsstring) : jsstring :=
  let jsonStr := trim response in
  if startsWith jsonStr (lit "```json")
  then remove_closing_fence (remove_opening_fence (lit "```json") jsonStr)
  else if startsWith jsonStr (lit "```")
  then remove_closing_fence (remove_opening_fence (lit "```") jsonStr)
  else jsonStr.

(** [todos.map((todo) => ({ description: todo.description, ... }))]. *)
Fixpoint map_todos (todos : list jsval)
    (emailId senderEmail emailSubject : jsstring) : M (list TodoItem) :=
  match todos with
  | [] => ret []
  | todo :: rest =>
      match Val.get (lit "description") todo, Val.get (lit "priority") todo with
      | Some d, Some p =>
          t <- now ;;
          items <- map_todos rest emailId senderEmail emailSubject ;;
          ret ({| description := d; priority := p;
                  sourceEmailId := emailId; sourceSender := senderEmail;
                  sourceSubject := emailSubject; extractedAt := t;
                  matchedPattern := ai_extracted |} :: items)
      | _, _ => throw (lit "TypeError: Cannot read properties of null")
      end
  end.

Definition parseTodosFromResponse (response : jsval)
    (emailId senderEmail emailSubject : jsstring) : M (list TodoItem) :=
  try_catch
    (match response with
     | JStr s =>
         match JSON_parse P (strip_code_fence s) with
         | None => throw (lit "SyntaxError: Unexpected token in JSON")
         | Some (JArr todos) => map_todos todos emailId senderEmail emailSubject
         | Some _ => ret []
         end
     | _ => throw (lit "TypeError: response.trim is not a function")
     end)
    (fun _ => ret []).

Definition extractTodos (emailBody emailId senderEmail emailSubject : jsstring)
    : M (list TodoItem) :=
  let prompt := buildExtractionPrompt emailBody emailSubject in
  response <- callGeminiAPI prompt ;;
  parseTodosFromResponse response emailId senderEmail emailSubject.

End WithPlatform.

End GeminiService.

(** ** src/email/EmailParser.ts *)

Module EmailParser.

Section WithPlatform.
Variable P : Platform.

Fixpoint after_gt (s : jsstring) : option jsstring :=
  match s with
  | [] => None
  | c :: r => if (c =? 62)%N then Some r else after_gt r
  end.

(** [html.replace(/<[^>]*>/g, '')]: every stretch from a [<] to the next
    [>] goes.  The fuel is the length of the text. *)
Fixpoint remove_tags (fuel : nat) (s : jsstring) : jsstring :=
  match fuel with
  | O => s
  | S fuel' =>
      match s with
      | [] => []
      | c :: r =>
          if (c =? 60)%N
          then match after_gt r with
               | Some r' => remove_tags fuel' r'
               | None => c :: r
               end
          else c :: remove_tags fuel' r
      end
  end.

Definition stripHtml (html : jsstring) : jsstring :=
  trim (remove_tags (length html) html).

Definition isDuplicate (todos : list TodoItem) (d : jsstring) : bool :=
  existsb (fun todo => match description todo with
                       | JStr s => Js.eqb s d
                       | _ => false
                       end) todos.

(** [(match[1] || match[2])?.trim()]. *)
Definition match_description (m : RegExpMatch) : option jsstring :=
  option_map trim
    (match group1 m with
     | Some (c :: g) => Some (c :: g)
     | _ => group2 m
     end).

(** The [while ((match = pattern.regex.exec(plainText)) !== null)] loop
    over the successive matches of one pattern. *)
Fixpoint while_exec (matches : list RegExpMatch) (pattern : MatchedPattern)
    (sourceEmailId sourceSender sourceSubject : jsstring)
    (todos : list TodoItem) : M (list TodoItem) :=
  match matches with
  | [] => ret todos
  | m :: rest =>
      match match_description m with
      | Some (c :: d) =>
          if isDuplicate todos (c :: d)
          then while_exec rest pattern sourceEmailId sourceSender
                 sourceSubject todos
          else
            t <- now ;;
            while_exec rest pattern sourceEmailId sourceSender sourceSubject
              (todos ++ [ {| description := JStr (c :: d); priority := JUndef;
                             sourceEmailId := sourceEmailId;
                             sourceSender := sourceSender;
                             sourceSubject := sourceSubject;
                             extractedAt := t;
                             matchedPattern := pattern |} ])
      | _ => while_exec rest pattern sourceEmailId sourceSender
               sourceSubject todos
      end
  end.

Definition patterns : list MatchedPattern :=
  [numbered; bullet; action; checkbox].

Fixpoint for_patterns (ps : list MatchedPattern) (plainText : jsstring)
    (sourceEmailId sourceSender sourceSubject : jsstring)
    (todos : list TodoItem) : M (list TodoItem) :=
  match ps with
  | [] => ret todos
  | pattern :: rest =>
      todos' <- while_exec (exec_all P pattern plainText) pattern
                  sourceEmailId sourceSender sourceSubject todos ;;
      for_patterns rest plainText sourceEmailId sourceSender sourceSubject
        todos'
  end.

Definition extractTodos
    (emailBody sourceEmailId sourceSender sourceSubject : jsstring)
    : M (list TodoItem) :=
  let plainText := stripHtml emailBody in
  for_patterns patterns plainText sourceEmailId sourceSender sourceSubject [].

End WithPlatform.

End EmailParser.

(** ** src/config/types.ts *)

(** A JavaScript number that [parseInt] may have produced: [None] is NaN. *)
Abbreviation number := (option Z).

Record AppConfig : Type := {
  lineAccessToken : jsstring;
  lineGroupId : jsstring;
  geminiApiKey : jsstring;
  senderWhitelist : list jsstring;
  lastProcessedTime : Z;
  maxEmailsPerRun : option number     (* [None]: the field is absent *)
}.

(** A time value that [new Date(t)] accepts; [toISOString] raises a
    RangeError on any other. *)
Definition valid_time (t : Z) : bool :=
  (-8640000000000000 <=? t) && (t <=? 8640000000000000).

Definition falsy_property (v : option jsstring) : bool :=
  match v with
  | None | Some [] => true
  | Some (_ :: _) => false
  end.

(** The value of a number that [parseInt] produced. *)
Definition of_number (n : number) : jsval :=
  match n with
  | Some z => JNum z
  | None => JNonInt NaN
  end.

(** ** The conversions of the language that the sources rely on *)

Module Coerce.

Section WithPlatform.
Variable P : Platform.

(** ToNumber. *)
Definition toNumber (v : jsval) : jsnum :=
  match Val.toPrimitive v with
  | JUndef => NonInt NaN
  | JNull => Int 0
  | JBool b => Int (if b then 1 else 0)
  | JNum z => Int z
  | JNonInt x => NonInt x
  | JStr s => Number_of_string P s
  | JArr _ | JObj _ => NonInt NaN
  end.

(** [v < n], [v > n] and [n <= v] for a number [n]. *)
Definition lt (v : jsval) (n : Z) : bool := Num.ltb (toNumber v) n.
Definition gt (v : jsval) (n : Z) : bool := Num.gtb (toNumber v) n.
Definition ge (v : jsval) (n : Z) : bool := Num.geb (toNumber v) n.

(** TimeClip: the time value of a date, [None] for an invalid one. *)
Definition TimeClip (n : jsnum) : option Z :=
  match n with
  | Int z => if valid_time z then Some z else None
  | NonInt (Fraction below _) =>
      if 0 <=? below
      then if below <? 8640000000000000 then Some below else None
      else if -8640000000000000 <=? below then Some (below + 1) else None
  | NonInt _ => None
  end.

(** [new Date(v).getTime()]; [None] is NaN, the invalid date. *)
Definition Date_of (v : jsval) : option Z :=
  match Val.toPrimitive v with
  | JStr s => Date_parse P s
  | prim => TimeClip (toNumber prim)
  end.

End WithPlatform.

End Coerce.

(** ** The configuration service over individual Script Properties
       (unnamed/part_002) *)

Module ConfigService.

(** [s.split(',')]. *)
Fixpoint split_comma (s : jsstring) : list jsstring :=
  match s with
  | [] => [[]]
  | c :: r =>
      if (c =? 44)%N then [] :: split_comma r
      else match split_comma r with
           | h :: tl => (c :: h) :: tl
           | [] => [[c]]
           end
  end.

Definition parse_whitelist (senderWhitelistStr : jsstring) : list jsstring :=
  List.filter (fun s => (0 <? length s)%nat) (map trim (split_comma senderWhitelistStr)).

Definition missing (key : string) : jsstring :=
  lit "Configuration error: " ++ lit key ++ lit " not found in Script Properties".

Definition getConfig : M AppConfig :=
  lineAccessToken <- getProperty "lineAccessToken" ;;
  lineGroupId <- getProperty "lineGroupId" ;;
  geminiApiKey <- getProperty "geminiApiKey" ;;
  senderWhitelistStr <- getProperty "senderWhitelist" ;;
  lastProcessedTimeStr <- getProperty "lastProcessedTime" ;;
  maxEmailsPerRunStr <- getProperty "maxEmailsPerRun" ;;
  match lineAccessToken with
  | None | Some [] => throw (missing "lineAccessToken")
  | Some (c1 :: token) =>
  match lineGroupId with
  | None | Some [] => throw (missing "lineGroupId")
  | Some (c2 :: group) =>
  match geminiApiKey with
  | None | Some [] => throw (missing "geminiApiKey")
  | Some (c3 :: key) =>
  match senderWhitelistStr with
  | None | Some [] => throw (missing "senderWhitelist")
  | Some (c4 :: str) =>
      let senderWhitelist := parse_whitelist (c4 :: str) in
      if (length senderWhitelist =? 0)%nat
      then throw (lit "Configuration error: senderWhitelist cannot be empty")
      else
        let lastProcessedTime : number :=
          match lastProcessedTimeStr with
          | None | Some [] => Some 0
          | Some s => parseInt s
          end in
        let maxEmailsPerRun : number :=
          match maxEmailsPerRunStr with
          | None | Some [] => Some 100
          | Some s => parseInt s
          end in
        (* new Date(config.lastProcessedTime).toISOString() *)
        match lastProcessedTime with
        | Some t =>
            if valid_time t
            then ret {| lineAccessToken := c1 :: token;
                        lineGroupId := c2 :: group;
                        geminiApiKey := c3 :: key;
                        senderWhitelist := senderWhitelist;
                        lastProcessedTime := t;
                        maxEmailsPerRun := Some maxEmailsPerRun |}
            else throw (lit "RangeError: Invalid time value")
        | None => throw (lit "RangeError: Invalid time value")
        end
  end end end end.

Definition updateLastProcessedTime (timestamp : Z) : M unit :=
  setProperty "lastProcessedTime" (Number_toString timestamp).

(** [key.includes(part)] on a property name. *)
Fixpoint includes (key part : string) : bool :=
  String.prefix part key
  || match key with
     | EmptyString => false
     | String _ rest => includes rest part
     end.

(** The body of the loop of [listProperties]: the value stored in
    [masked[key]]. *)
Definition mask (key : string) (value : jsstring) : jsstring :=
  if includes key "Token" || includes key "Key"
  then match value with
       | [] => []
       | _ => firstn 10 value ++ lit "..."
       end
  else value.

(** [for (const [key, value] of Object.entries(props)) masked[key] = ...]:
    every key of the store gets one entry. *)
Definition listProperties : M (gmap string jsstring) :=
  fun w => (Ok (map_imap (fun key value => Some (mask key value)) (properties w)), w).

End ConfigService.

(** ** The configuration service over one JSON property
       (src/config/ConfigService.ts)

    The guard [isAppConfig] looks at four keys and at the whitelist
    being an array.  Whatever passes it is returned and used as it is:
    the model reads every field as the value that [JSON.parse] built,
    with the conversions and the errors of the language. *)

Module JsonConfigService.

Section WithPlatform.
Variable P : Platform.

Definition CONFIG_KEY : string := "config".

Definition has_key (k : jsstring) (fields : list (jsstring * jsval)) : bool :=
  existsb (fun kv => Js.eqb k (fst kv)) fields.

(** The type guard [isAppConfig]. *)
Definition isAppConfig (obj : jsval) : bool :=
  match obj with
  | JObj fields =>
      has_key (lit "lineAccessToken") fields
      && has_key (lit "lineGroupId") fields
      && has_key (lit "geminiApiKey") fields
      && has_key (lit "senderWhitelist") fields
      && Val.isArray (Val.assoc (lit "senderWhitelist") fields)
  | _ => false
  end.

(** Returns the parsed object itself. *)
Definition getConfig : M jsval :=
  json <- getProperty CONFIG_KEY ;;
  match json with
  | None | Some [] =>
      throw (lit "Configuration not found. Run initializeConfig() first.")
  | Some (c :: s) =>
      match JSON_parse P (c :: s) with
      | None => throw (lit "Invalid configuration format")
      | Some config =>
          if negb (isAppConfig config)
          then throw (lit "Invalid configuration structure")
          else ret config
      end
  end.

Definition plain_char (c : N) : bool := negb (is_space c) && negb (c =? 64)%N.

Fixpoint split_at_sign (s : jsstring) : option (jsstring * jsstring) :=
  match s with
  | [] => None
  | c :: r =>
      if (c =? 64)%N then Some ([], r)
      else match split_at_sign r with
           | Some (a, d) => Some (c :: a, d)
           | None => None
           end
  end.

(** [/^[^\s@]+@[^\s@]+\.[^\s@]+$/.test(email)]. *)
Definition isValidEmail (email : jsstring) : bool :=
  match split_at_sign email with
  | Some (c :: a, d0 :: d) =>
      forallb plain_char (c :: a) && forallb plain_char (d0 :: d)
      && existsb (fun x => (x =? 46)%N) (removelast d)
  | _ => false
  end.

Inductive Validation : Type :=
| success
| failure (reason : jsstring).

(** [for (const email of config.senderWhitelist) if (!this.isValidEmail(email))
    return ...]: the first element that fails the test, which the regular
    expression applies to the text of the element. *)
Fixpoint first_invalid_email (l : list jsval) : option jsval :=
  match l with
  | [] => None
  | email :: r =>
      if isValidEmail (Val.toString email) then first_invalid_email r
      else Some email
  end.

(** [x !== undefined]. *)
Definition defined (x : jsval) : bool :=
  match x with JUndef => false | _ => true end.

Definition validateConfig (config : jsval) : M Validation :=
  if negb (isAppConfig config) then ret (failure (lit "Invalid config structure"))
  else
    let lineAccessToken := Val.get_opt (lit "lineAccessToken") config in
    let lineGroupId := Val.get_opt (lit "lineGroupId") config in
    let senderWhitelist := Val.get_opt (lit "senderWhitelist") config in
    let extractionConfidence := Val.get_opt (lit "extractionConfidence") config in
    let maxEmailsPerRun := Val.get_opt (lit "maxEmailsPerRun") config in
    if negb (Val.truthy lineAccessToken)
       || Coerce.lt P (Val.length_of lineAccessToken) 50
    then ret (failure (lit "Invalid LINE access token (too short)"))
    else if negb (Val.truthy lineGroupId)
    then ret (failure (lit "Invalid LINE group ID (must start with C)"))
    else
      match lineGroupId with
      | JStr group =>
          if negb (startsWith group (lit "C"))
          then ret (failure (lit "Invalid LINE group ID (must start with C)"))
          else
            match senderWhitelist with
            | JArr senders =>
                if (length senders =? 0)%nat
                then ret (failure (lit "Sender whitelist cannot be empty"))
                else
                  match first_invalid_email senders with
                  | Some email =>
                      ret (failure (lit "Invalid email address: "
                                      ++ Val.toString email))
                  | None =>
                      if defined extractionConfidence
                         && (Coerce.lt P extractionConfidence 0
                             || Coerce.gt P extractionConfidence 1)
                      then ret (failure
                                  (lit "Extraction confidence must be between 0 and 1"))
                      else if defined maxEmailsPerRun
                              && Coerce.lt P maxEmailsPerRun 1
                      then ret (failure (lit "Max emails per run must be positive"))
                      else ret success
                  end
            | _ =>
                (* excluded by the guard *)
                throw (lit "TypeError: config.senderWhitelist is not iterable")
            end
      | _ =>
          (* a truthy value that is not a string has no method startsWith *)
          throw (lit "TypeError: config.lineGroupId.startsWith is not a function")
      end.

Definition setConfig (config : jsval) : M unit :=
  validation <- validateConfig config ;;
  match validation with
  | failure reason => throw (lit "Invalid configuration: " ++ reason)
  | success => setProperty CONFIG_KEY (JSON_stringify P config)
  end.

(** [config.lastProcessedTime = timestamp] on the object. *)
Fixpoint set_field (k : jsstring) (v : jsval) (fields : list (jsstring * jsval))
    : list (jsstring * jsval) :=
  match fields with
  | [] => [(k, v)]
  | (k', v') :: r =>
      if Js.eqb k k' then (k', v) :: r else (k', v') :: set_field k v r
  end.

Definition updateLastProcessedTime (timestamp : Z) : M unit :=
  config <- getConfig ;;
  match config with
  | JObj fields =>
      setConfig (JObj (set_field (lit "lastProcessedTime") (JNum timestamp) fields))
  | _ => setConfig config
  end.

End WithPlatform.

End JsonConfigService.

(** ** The mailbox services *)

(** The record built for one message of one thread (both versions of
    [fetchNewEmails] build the same one). *)
Definition emailMessage (thread : GmailThread) (m : GmailMessage) : EmailMessage :=
  {| id := getId m;
     threadId := getThreadId thread;
     from := getFrom m;
     subject := getSubject m;
     bodyPlain := getPlainBody m;
     bodyHtml := getBody m;
     receivedDate := getDate m;
     processed := false;
     labelIds := getLabels thread |}.

(** [for (const message of messages) { if (messageDate <= lastProcessedTime)
    continue; emails.push(...) }]. *)
Fixpoint for_messages (thread : GmailThread) (messages : list GmailMessage)
    (lastProcessedTime : Z) (emails : list EmailMessage) : list EmailMessage :=
  match messages with
  | [] => emails
  | m :: rest =>
      if getDate m <=? lastProcessedTime
      then for_messages thread rest lastProcessedTime emails
      else for_messages thread rest lastProcessedTime
             (emails ++ [emailMessage thread m])
  end.

(** [for (const thread of threads) { ... }]. *)
Fixpoint for_threads (threads : list GmailThread) (lastProcessedTime : Z)
    (emails : list EmailMessage) : list EmailMessage :=
  match threads with
  | [] => emails
  | thread :: rest =>
      for_threads rest lastProcessedTime
        (for_messages thread (getMessages thread) lastProcessedTime emails)
  end.

(** [this.maxEmailsPerRun] after [constructor(maxEmailsPerRun = 100)]. *)
Definition EmailService_new (maxEmailsPerRun : option number) : number :=
  match maxEmailsPerRun with
  | None => Some 100
  | Some n => n
  end.

(** *** The service that puts the whitelist in the query
        (second part of src/email/EmailParser.ts) *)

Module EmailService.

Section WithPlatform.
Variable P : Platform.

Definition query (lastProcessedTime : Z) (senderWhitelist : list jsstring)
    : jsstring :=
  let queryDate := formatDate P lastProcessedTime in
  let senderQuery :=
    Js.join (lit " OR ") (map (fun sender => lit "from:" ++ sender) senderWhitelist) in
  lit "(" ++ senderQuery ++ lit ") after:" ++ queryDate ++ lit " in:inbox".

Definition fetchNewEmails (this_maxEmailsPerRun : number)
    (lastProcessedTime : Z) (senderWhitelist : list jsstring)
    : M (list EmailMessage) :=
  threads <- GmailApp_search (query lastProcessedTime senderWhitelist) 0
               (of_number this_maxEmailsPerRun) ;;
  ret (for_threads threads lastProcessedTime []).

End WithPlatform.

End EmailService.

(** [this.maxEmailsPerRun] after [constructor(maxEmailsPerRun = 100)], for
    whatever value the caller passes. *)
Definition EmailService_new_untyped (maxEmailsPerRun : jsval) : jsval :=
  match maxEmailsPerRun with
  | JUndef => JNum 100
  | _ => maxEmailsPerRun
  end.

(** *** The service that filters by sender afterwards
        (first part of src/email/EmailService.ts)

    The bundled entry point calls it with the fields of the object that
    [getConfig] returned, so [fetchNewEmails] and [filterBySender_untyped]
    take the watermark, the cap and the whitelist as those values. *)

Module EmailServiceFilter.

Section WithPlatform.
Variable P : Platform.

Definition query (queryDate : jsstring) : jsstring :=
  lit "after:" ++ queryDate ++ lit " in:inbox".

(** [for (const message of messages) { if (messageDate <= lastProcessedTime)
    continue; emails.push(...) }]. *)
Fixpoint for_messages (thread : GmailThread) (messages : list GmailMessage)
    (lastProcessedTime : jsval) (emails : list EmailMessage) : list EmailMessage :=
  match messages with
  | [] => emails
  | m :: rest =>
      if Coerce.ge P lastProcessedTime (getDate m)
      then for_messages thread rest lastProcessedTime emails
      else for_messages thread rest lastProcessedTime
             (emails ++ [emailMessage thread m])
  end.

Fixpoint for_threads (threads : list GmailThread) (lastProcessedTime : jsval)
    (emails : list EmailMessage) : list EmailMessage :=
  match threads with
  | [] => emails
  | thread :: rest =>
      for_threads rest lastProcessedTime
        (for_messages thread (getMessages thread) lastProcessedTime emails)
  end.

Definition fetchNewEmails (this_maxEmailsPerRun : jsval)
    (lastProcessedTime : jsval) : M (list EmailMessage) :=
  queryDate <- match Coerce.Date_of P lastProcessedTime with
               | Some t => ret (formatDate P t)
               | None =>
                   match formatDate_invalid P with
                   | Some day => ret day
                   | None => throw (lit "Invalid argument: date")
                   end
               end ;;
  threads <- GmailApp_search (query queryDate) 0 this_maxEmailsPerRun ;;
  ret (for_threads threads lastProcessedTime []).

(** The longest run of code units other than [>], and what follows it. *)
Fixpoint span_not_gt (s : jsstring) : jsstring * jsstring :=
  match s with
  | [] => ([], [])
  | c :: r =>
      if (c =? 62)%N then ([], s)
      else let (run, rest) := span_not_gt r in (c :: run, rest)
  end.

(** Group 1 of [email.from.match(/<([^>]+)>/)]. *)
Fixpoint angle_match (s : jsstring) : option jsstring :=
  match s with
  | [] => None
  | c :: r =>
      if (c =? 60)%N
      then match span_not_gt r with
           | (x :: run, _ :: _) => Some (x :: run)
           | _ => angle_match r
           end
      else angle_match r
  end.

Definition isAllowed (senderWhitelist : list jsstring) (email : EmailMessage)
    : bool :=
  let senderEmail :=
    match angle_match (from email) with
    | Some address => address
    | None => from email
    end in
  existsb (fun whitelisted =>
             Js.eqb (toLowerCase P whitelisted) (toLowerCase P senderEmail))
          senderWhitelist.

Definition filterBySender (emails : list EmailMessage)
    (senderWhitelist : list jsstring) : list EmailMessage :=
  List.filter (isAllowed senderWhitelist) emails.

(** [senderWhitelist.some(...)] over the elements as the array holds
    them: an element that is not a string has no method [toLowerCase],
    and the call raises a TypeError ([None]). *)
Fixpoint some_whitelisted (senderWhitelist : list jsval) (senderEmail : jsstring)
    : option bool :=
  match senderWhitelist with
  | [] => Some false
  | JStr whitelisted :: rest =>
      if Js.eqb (toLowerCase P whitelisted) (toLowerCase P senderEmail)
      then Some true
      else some_whitelisted rest senderEmail
  | _ :: _ => None
  end.

Definition isAllowed_untyped (senderWhitelist : list jsval) (email : EmailMessage)
    : option bool :=
  let senderEmail :=
    match angle_match (from email) with
    | Some address => address
    | None => from email
    end in
  some_whitelisted senderWhitelist senderEmail.

(** [emails.filter(...)]; [None] when the callback raises. *)
Fixpoint filter_allowed (emails : list EmailMessage) (senderWhitelist : list jsval)
    : option (list EmailMessage) :=
  match emails with
  | [] => Some []
  | email :: rest =>
      match isAllowed_untyped senderWhitelist email with
      | Some isAllowed =>
          match filter_allowed rest senderWhitelist with
          | Some filtered => Some (if isAllowed then email :: filtered else filtered)
          | None => None
          end
      | None => None
      end
  end.

(** The result of [filterBySender] on whatever the caller holds as the
    whitelist; [None] is a TypeError.  A value without a method [some]
    raises when the callback of [filter] first runs; [null] and
    [undefined] already raise at [.length]. *)
Definition filtered_by_sender (emails : list EmailMessage)
    (senderWhitelist : jsval) : option (list EmailMessage) :=
  match senderWhitelist with
  | JArr whitelist => filter_allowed emails whitelist
  | JUndef | JNull => None
  | _ =>
      match emails with
      | [] => Some []
      | _ :: _ => None
      end
  end.

Definition filterBySender_untyped (emails : list EmailMessage)
    (senderWhitelist : jsval) : M (list EmailMessage) :=
  match filtered_by_sender emails senderWhitelist with
  | Some filtered => ret filtered
  | None => throw (lit "TypeError: senderWhitelist.some is not a function")
  end.

End WithPlatform.

End EmailServiceFilter.

Definition MAX_EXECUTION_TIME_MS : Z := 6 * 60 * 1000.

(** [email.bodyHtml || email.bodyPlain]. *)
Definition body_of (email : EmailMessage) : jsstring :=
  match bodyHtml email with
  | [] => bodyPlain email
  | html => html
  end.

(** ** The orchestration with per-message watermark and run summary
       (second part of src/email/EmailService.ts) *)

Inductive RunStatus : Type :=
| Completed
| Failed.

Module RunOrchestrator.

Section WithPlatform.
Variable P : Platform.

Definition check_mark : jsstring := [9989%N].     (* U+2705 *)
Definition cross_mark : jsstring := [10060%N].    (* U+274C *)

(** The text of the run summary, given the formatted timestamp. *)
Definition summary_text (timestamp : jsstring) (emailsFound todosExtracted : nat)
    (executionTimeSec : jsstring) (status : RunStatus)
    (errorMsg : option jsstring) : jsstring :=
  let statusIcon :=
    match status with Completed => check_mark | Failed => cross_mark end in
  let summary := statusIcon ++ lit " Email Monitor Run Summary" ++ nl ++ nl in
  let summary := summary ++ lit "Time: " ++ timestamp ++ nl in
  let summary := summary ++ lit "Emails Found: " ++ nat_toString emailsFound ++ nl in
  let summary := summary ++ lit "Todos Extracted: " ++ nat_toString todosExtracted ++ nl in
  let summary := summary ++ lit "Execution Time: " ++ executionTimeSec ++ lit "s" ++ nl in
  let summary := summary ++ lit "Status: "
                   ++ match status with
                      | Completed => lit "Completed"
                      | Failed => lit "Failed"
                      end in
  match errorMsg with
  | Some (c :: msg) => summary ++ nl ++ nl ++ lit "Error: " ++ (c :: msg)
  | _ => summary
  end.

Definition sendRunSummary (config : AppConfig) (emailsFound todosExtracted : nat)
    (executionTimeSec : jsstring) (status : RunStatus)
    (errorMsg : option jsstring) : M unit :=
  t <- now ;;
  let summary :=
    summary_text (toLocaleString P t) emailsFound todosExtracted
      executionTimeSec status errorMsg in
  try_catch
    (LineService.pushMessage P (lineAccessToken config) (lineGroupId config) summary ;;
     ret tt)
    (fun _ => ret tt).

Definition processEmail (email : EmailMessage) (config : AppConfig) : M nat :=
  logger_info (Processing_email (from email) (subject email) (id email)) ;;
  todos <- GeminiService.extractTodos P (body_of email) (id email)
             (from email) (subject email) ;;
  if (length todos =? 0)%nat
  then
    ConfigService.updateLastProcessedTime (receivedDate email) ;;
    ret 0%nat
  else
    let message :=
      MessageFormatter.formatTodosForLine todos (from email) (subject email) in
    match message with
    | [] =>
        ConfigService.updateLastProcessedTime (receivedDate email) ;;
        ret 0%nat
    | _ =>
        response <- LineService.pushMessage P (lineAccessToken config)
                      (lineGroupId config) message ;;
        (if status response =? 200
         then ConfigService.updateLastProcessedTime (receivedDate email)
         else ConfigService.updateLastProcessedTime (receivedDate email)) ;;
        ret (length todos)
    end.

Fixpoint processFilteredEmails_from (filteredEmails : list EmailMessage)
    (config : AppConfig) (startTime : Z) (totalTodosExtracted : nat) : M nat :=
  match filteredEmails with
  | [] => ret totalTodosExtracted
  | email :: rest =>
      t <- now ;;
      if MAX_EXECUTION_TIME_MS <? t - startTime
      then ret totalTodosExtracted
      else
        n <- processEmail email config ;;
        processFilteredEmails_from rest config startTime
          (totalTodosExtracted + n)%nat
  end.

Definition processFilteredEmails (filteredEmails : list EmailMessage)
    (config : AppConfig) (startTime : Z) : M nat :=
  processFilteredEmails_from filteredEmails config startTime 0%nat.

Definition fetchEmails (config : AppConfig) (startTime : Z)
    : M (list EmailMessage) :=
  emails <- EmailService.fetchNewEmails P
              (EmailService_new (maxEmailsPerRun config))
              (lastProcessedTime config) (senderWhitelist config) ;;
  t <- now ;;
  if MAX_EXECUTION_TIME_MS <? t - startTime then ret [] else ret emails.

Definition processEmails : M unit :=
  startTime <- now ;;
  config <- ConfigService.getConfig ;;
  emails <- fetchEmails config startTime ;;
  try_catch
    (if (length emails =? 0)%nat
     then
       processingEndTime <- now ;;
       sendRunSummary config 0 0 (toFixed2 P (processingEndTime - startTime))
         Completed None
     else
       totalTodosExtracted <- processFilteredEmails emails config startTime ;;
       processingEndTime <- now ;;
       sendRunSummary config (length emails) totalTodosExtracted
         (toFixed2 P (processingEndTime - startTime)) Completed None)
    (fun e =>
       now ;;
       sendRunSummary config 0 0 (lit "0.00") Failed (Some e) ;;
       throw e).

End WithPlatform.

End RunOrchestrator.

(** ** The orchestration of the bundled entry point (src/main.ts)

    [config] is the object that [getConfig] returned. *)

Module Main.

Section WithPlatform.
Variable P : Platform.

Definition processEmail (email : EmailMessage) (config : jsval) : M nat :=
  logger_info (Processing_email (from email) (subject email) (id email)) ;;
  todos <- EmailParser.extractTodos P (body_of email) (id email)
             (from email) (subject email) ;;
  if (length todos =? 0)%nat then ret 0%nat
  else
    let message :=
      MessageFormatter.formatTodosForLine todos (from email) (subject email) in
    match message with
    | [] => ret 0%nat
    | _ =>
        LineService.pushMessage_untyped P
          (Val.get_opt (lit "lineAccessToken") config)
          (Val.get_opt (lit "lineGroupId") config) message ;;
        ret (length todos)
    end.

Fixpoint processFilteredEmails_from (filteredEmails : list EmailMessage)
    (config : jsval) (startTime : Z) (totalTodosExtracted : nat) : M nat :=
  match filteredEmails with
  | [] => ret totalTodosExtracted
  | email :: rest =>
      t <- now ;;
      if MAX_EXECUTION_TIME_MS <? t - startTime
      then ret totalTodosExtracted
      else
        n <- processEmail email config ;;
        processFilteredEmails_from rest config startTime
          (totalTodosExtracted + n)%nat
  end.

Definition processFilteredEmails (filteredEmails : list EmailMessage)
    (config : jsval) (startTime : Z) : M nat :=
  processFilteredEmails_from filteredEmails config startTime 0%nat.

Definition fetchAndFilterEmails (config : jsval) (startTime : Z)
    : M (list EmailMessage) :=
  allEmails <- EmailServiceFilter.fetchNewEmails P
                 (EmailService_new_untyped
                    (Val.get_opt (lit "maxEmailsPerRun") config))
                 (Val.get_opt (lit "lastProcessedTime") config) ;;
  t <- now ;;
  if MAX_EXECUTION_TIME_MS <? t - startTime then ret []
  else EmailServiceFilter.filterBySender_untyped P allEmails
         (Val.get_opt (lit "senderWhitelist") config).

Definition processEmails : M unit :=
  startTime <- now ;;
  try_catch
    (config <- JsonConfigService.getConfig P ;;
     (* new Date(config.lastProcessedTime).toISOString() *)
     match Coerce.Date_of P (Val.get_opt (lit "lastProcessedTime") config) with
     | None => throw (lit "RangeError: Invalid time value")
     | Some _ =>
         filteredEmails <- fetchAndFilterEmails config startTime ;;
         if (length filteredEmails =? 0)%nat
         then
           t <- now ;;
           JsonConfigService.updateLastProcessedTime P t
         else
           processFilteredEmails filteredEmails config startTime ;;
           processingEndTime <- now ;;
           JsonConfigService.updateLastProcessedTime P processingEndTime
     end)
    (fun e => now ;; throw e).

End WithPlatform.

End Main.

(** ** A reference platform, to run the model on concrete inputs

    The general theorems below hold for every [Platform].  The closed
    examples run on this one.  Its JSON reader covers the JSON grammar
    with numbers without exponent, and takes a decimal fraction digit for
    digit (the numerals of the examples are short); [Number] reads the
    same numerals and [Date.parse] the four-digit year, and take every
    other text as NaN.  Its date and number formatters only need to be
    some function, since no property depends on their output. *)

Module Reference.

Fixpoint skip_ws (s : jsstring) : jsstring :=
  match s with
  | c :: r => if ((c =? 32) || (c =? 9) || (c =? 10) || (c =? 13))%N
              then skip_ws r else s
  | [] => []
  end.

Definition hex_digit (c : N) : option N :=
  if ((48 <=? c) && (c <=? 57))%N then Some (c - 48)%N
  else if ((97 <=? c) && (c <=? 102))%N then Some (c - 87)%N
  else if ((65 <=? c) && (c <=? 70))%N then Some (c - 55)%N
  else None.

(** The characters of a string literal after its opening quote. *)
Fixpoint read_string (s : jsstring) : option (jsstring * jsstring) :=
  match s with
  | [] => None
  | 34%N :: r => Some ([], r)
  | 92%N :: e :: r =>
      let escaped (c : N) (rest : jsstring) :=
        match read_string rest with
        | Some (str, r') => Some (c :: str, r')
        | None => None
        end in
      match e with
      | 34%N => escaped 34%N r
      | 92%N => escaped 92%N r
      | 47%N => escaped 47%N r
      | 98%N => escaped 8%N r
      | 102%N => escaped 12%N r
      | 110%N => escaped 10%N r
      | 114%N => escaped 13%N r
      | 116%N => escaped 9%N r
      | _ => None
      end
  | c :: r =>
      if (c <? 32)%N then None
      else match read_string r with
           | Some (str, r') => Some (c :: str, r')
           | None => None
           end
  end.

Definition is_digit (c : N) : bool := ((48 <=? c) && (c <=? 57))%N.

Fixpoint span_digits (s : jsstring) : jsstring * jsstring :=
  match s with
  | c :: r => if is_digit c
              then let (ds, rest) := span_digits r in (c :: ds, rest)
              else ([], s)
  | [] => ([], [])
  end.

Fixpoint drop_zeros (s : jsstring) : jsstring :=
  match s with
  | 48%N :: r => drop_zeros r
  | _ => s
  end.

(** The number with the integer digits [ds] and the fraction digits
    [fs]. *)
Definition decimal (negative : bool) (ds fs : jsstring) : jsnum :=
  let n := match parse_digits ds with Some z => z | None => 0 end in
  match rev (drop_zeros (rev fs)) with
  | [] => Int (if negative then - n else n)
  | fs' =>
      NonInt (Fraction (if negative then - n - 1 else n)
                ((if negative then [45%N] else [])
                 ++ Number_toString n ++ [46%N] ++ fs'))
  end.

Definition value_of (x : jsnum) : jsval :=
  match x with
  | Int z => JNum z
  | NonInt y => JNonInt y
  end.

(** A numeral with an optional fraction; an exponent is outside the
    subset. *)
Definition read_number (s : jsstring) : option (jsval * jsstring) :=
  let (negative, s') := match s with
                        | 45%N :: r => (true, r)
                        | _ => (false, s)
                        end in
  match span_digits s' with
  | ([], _) => None
  | (48%N :: _ :: _, _) => None
  | (ds, rest) =>
      match rest with
      | 101%N :: _ | 69%N :: _ => None
      | 46%N :: rest' =>
          match span_digits rest' with
          | ([], _) => None
          | (_, 101%N :: _) | (_, 69%N :: _) => None
          | (fs, rest'') => Some (value_of (decimal negative ds fs), rest'')
          end
      | _ => Some (value_of (decimal negative ds []), rest)
      end
  end.

Fixpoint put (k : jsstring) (v : jsval) (fields : list (jsstring * jsval))
    : list (jsstring * jsval) :=
  match fields with
  | [] => [(k, v)]
  | (k', v') :: r => if Js.eqb k k' then (k', v) :: r else (k', v') :: put k v r
  end.

Fixpoint read_value (fuel : nat) (s : jsstring) : option (jsval * jsstring) :=
  match fuel with
  | O => None
  | S fuel' =>
      match skip_ws s with
      | 123%N :: r =>
          match skip_ws r with
          | 125%N :: r' => Some (JObj [], r')
          | _ => read_members fuel' r []
          end
      | 91%N :: r =>
          match skip_ws r with
          | 93%N :: r' => Some (JArr [], r')
          | _ => read_elements fuel' r []
          end
      | 34%N :: r =>
          match read_string r with
          | Some (str, r') => Some (JStr str, r')
          | None => None
          end
      | 116%N :: 114%N :: 117%N :: 101%N :: r => Some (JBool true, r)
      | 102%N :: 97%N :: 108%N :: 115%N :: 101%N :: r => Some (JBool false, r)
      | 110%N :: 117%N :: 108%N :: 108%N :: r => Some (JNull, r)
      | s' => read_number s'
      end
  end
with read_elements (fuel : nat) (s : jsstring) (acc : list jsval)
    : option (jsval * jsstring) :=
  match fuel with
  | O => None
  | S fuel' =>
      match read_value fuel' s with
      | Some (v, r) =>
          match skip_ws r with
          | 44%N :: r' => read_elements fuel' r' (acc ++ [v])
          | 93%N :: r' => Some (JArr (acc ++ [v]), r')
          | _ => None
          end
      | None => None
      end
  end
with read_members (fuel : nat) (s : jsstring) (acc : list (jsstring * jsval))
    : option (jsval * jsstring) :=
  match fuel with
  | O => None
  | S fuel' =>
      match skip_ws s with
      | 34%N :: r =>
          match read_string r with
          | Some (k, r1) =>
              match skip_ws r1 with
              | 58%N :: r2 =>
                  match read_value fuel' r2 with
                  | Some (v, r3) =>
                      match skip_ws r3 with
                      | 44%N :: r4 => read_members fuel' r4 (put k v acc)
                      | 125%N :: r4 => Some (JObj (put k v acc), r4)
                      | _ => None
                      end
                  | None => None
                  end
              | _ => None
              end
          | None => None
          end
      | _ => None
      end
  end.

Definition parse (s : jsstring) : option jsval :=
  match read_value (2 * length s + 2) s with
  | Some (v, r) => match skip_ws r with [] => Some v | _ => None end
  | None => None
  end.

Definition hex_char (n : N) : N :=
  if (n <? 10)%N then (48 + n)%N else (87 + n)%N.

Fixpoint quote_chars (s : jsstring) : jsstring :=
  match s with
  | [] => []
  | c :: r =>
      (if (c =? 34)%N then [92%N; 34%N]
       else if (c =? 92)%N then [92%N; 92%N]
       else if (c =? 8)%N then [92%N; 98%N]
       else if (c =? 12)%N then [92%N; 102%N]
       else if (c =? 10)%N then [92%N; 110%N]
       else if (c =? 13)%N then [92%N; 114%N]
       else if (c =? 9)%N then [92%N; 116%N]
       else [c]) ++ quote_chars r
  end.

Definition quote (s : jsstring) : jsstring := [34%N] ++ quote_chars s ++ [34%N].

Definition is_undefined (v : jsval) : bool :=
  match v with JUndef => true | _ => false end.

(** Compact output; a property whose value is [undefined] is left out. *)
Fixpoint stringify (v : jsval) : jsstring :=
  match v with
  | JUndef | JNull => lit "null"
  | JBool true => lit "true"
  | JBool false => lit "false"
  | JNum z => Number_toString z
  | JNonInt (Fraction _ numeral) => numeral
  | JNonInt _ => lit "null"
  | JStr s => quote s
  | JArr items => lit "[" ++ Js.join (lit ",") (map stringify items) ++ lit "]"
  | JObj fields =>
      lit "{"
      ++ Js.join (lit ",")
           (flat_map (fun kv =>
                        match kv with
                        | (k, x) =>
                            if is_undefined x then []
                            else [quote k ++ lit ":" ++ stringify x]
                        end) fields)
      ++ lit "}"
  end.

Definition ascii_lower (c : N) : N :=
  if ((65 <=? c) && (c <=? 90))%N then (c + 32)%N else c.

(** Seconds with two decimals, from milliseconds. *)
Definition seconds (ms : Z) : jsstring :=
  let cs := (ms + 5) / 10 in
  Number_toString (cs / 100) ++ lit "."
    ++ Number_toString (cs mod 100 / 10) ++ Number_toString (cs mod 10).

(** [Number(s)] on a decimal numeral with an optional sign and an
    optional fraction; the empty text is 0. *)
Definition number_of_string (s : jsstring) : jsnum :=
  let (negative, s') := match trim s with
                        | 45%N :: r => (true, r)
                        | 43%N :: r => (false, r)
                        | r => (false, r)
                        end in
  match trim s with
  | [] => Int 0
  | _ =>
      match span_digits s' with
      | (ds, []) => match ds with [] => NonInt NaN | _ => decimal negative ds [] end
      | (ds, 46%N :: rest) =>
          match span_digits rest with
          | (fs, []) =>
              match ds, fs with
              | [], [] => NonInt NaN
              | _, _ => decimal negative ds fs
              end
          | _ => NonInt NaN
          end
      | _ => NonInt NaN
      end
  end.

(** Days from 1970-01-01 to the first of January of a year. *)
Definition days_to_year (y : Z) : Z :=
  let y' := y - 1 in
  let era := y' / 400 in
  let yoe := y' - era * 400 in
  era * 146097 + (yoe * 365 + yoe / 4 - yoe / 100 + 306) - 719468.

(** [Date.parse] on a four-digit year. *)
Definition date_parse (s : jsstring) : option Z :=
  match s with
  | [a; b; c; d] =>
      if forallb is_digit s
      then option_map (fun y => days_to_year y * 86400000) (parse_digits s)
      else None
  | _ => None
  end.

Definition platform (matches : MatchedPattern -> jsstring -> list RegExpMatch)
    : Platform :=
  {| JSON_parse := parse;
     JSON_stringify := stringify;
     formatDate := fun t => lit "day " ++ Number_toString (t / 86400000);
     toLocaleString := fun t => lit "time " ++ Number_toString t;
     toFixed2 := seconds;
     toLowerCase := map ascii_lower;
     exec_all := matches;
     Number_of_string := number_of_string;
     Date_parse := date_parse;
     formatDate_invalid := None |}.

Definition no_matches : MatchedPattern -> jsstring -> list RegExpMatch :=
  fun _ _ => [].

End Reference.

(** ** Concrete worlds for the closed examples *)

Module Scenario.

Definition P0 : Platform := Reference.platform Reference.no_matches.

Definition token : jsstring := lit "channel-access-token-0123456789-0123456789-0123456789".
Definition group : jsstring := lit "C0123456789".

(** Script Properties of a deployment that watches [a@x.com]. *)
Definition props (watermark : jsstring) : gmap string jsstring :=
  <["lineAccessToken" := token]>
    (<["lineGroupId" := group]>
       (<["geminiApiKey" := lit "gemini-key"]>
          (<["senderWhitelist" := lit "a@x.com"]>
             (<["lastProcessedTime" := watermark]> ∅)))).

Definition message (ident sender : string) (date : Z) : GmailMessage :=
  {| getId := lit ident; getFrom := lit sender; getSubject := lit "subject";
     getPlainBody := lit "plain body"; getBody := lit "<p>html body</p>";
     getDate := date |}.

Definition thread (ident : string) (messages : list GmailMessage) : GmailThread :=
  {| getThreadId := lit ident; getLabels := [lit "INBOX"];
     getMessages := messages |}.

(** A mailbox that answers every query with the first [max] of the given
    threads. *)
Definition inbox (threads : list GmailThread)
    : jsstring -> Z -> jsval -> option (list GmailThread) :=
  fun _ _ max =>
    match max with
    | JNum n => Some (firstn (Z.to_nat n) threads)
    | _ => None
    end.

(** A mailbox whose search raises. *)
Definition broken_inbox : jsstring -> Z -> jsval -> option (list GmailThread) :=
  fun _ _ _ => None.

(** The body of a 200 response of the generative endpoint whose
    candidate text is [text]. *)
Definition gemini_body (text : jsstring) : jsstring :=
  Reference.stringify
    (JObj [(lit "candidates",
            JArr [JObj [(lit "content",
                         JObj [(lit "parts",
                                JArr [JObj [(lit "text", JStr text)]])])]])]).

Definition always (o : FetchOutcome) : nat -> FetchOutcome := fun _ => o.

(** The k-th outcome is the k-th element; [last] afterwards. *)
Definition outcomes (l : list FetchOutcome) (last : FetchOutcome)
    : nat -> FetchOutcome :=
  fun k => nth k l last.

(** A world at the start of a run: the clock reads [t0], [t0 + 1], ... *)
Definition world (p : gmap string jsstring) (t0 : Z)
    (box : jsstring -> Z -> jsval -> option (list GmailThread))
    (line gemini : nat -> FetchOutcome) : World :=
  {| properties := p; clock := fun k => t0 + Z.of_nat k; clock_reads := 0;
     mailbox := box; line_endpoint := line; line_requests := [];
     gemini_endpoint := gemini; gemini_requests := []; sleeps := [];
     log := [] |}.

(** The next run: same store, same services, a later clock. *)
Definition next_run (t0 : Z) (w : World) : World :=
  {| properties := properties w; clock := fun k => t0 + Z.of_nat k;
     clock_reads := 0; mailbox := mailbox w;
     line_endpoint := line_endpoint w; line_requests := [];
     gemini_endpoint := gemini_endpoint w; gemini_requests := [];
     sleeps := []; log := [] |}.

Definition one_todo : jsstring :=
  lit "[{" ++ [dquote] ++ lit "description" ++ [dquote] ++ lit ": "
    ++ [dquote] ++ lit "Review pull request" ++ [dquote] ++ lit "}]".

Definition empty_description : jsstring :=
  lit "[{" ++ [dquote] ++ lit "description" ++ [dquote] ++ lit ": "
    ++ [dquote] ++ [dquote] ++ lit "}]".

Definition ok_line : FetchOutcome := Response 200 (lit "{}").
Definition no_items : FetchOutcome := Response 200 (gemini_body (lit "[]")).

(** The configuration that [props] holds, with the watermark [t]. *)
Definition config (t : Z) (cap : Z) : AppConfig :=
  {| lineAccessToken := token; lineGroupId := group;
     geminiApiKey := lit "gemini-key"; senderWhitelist := [lit "a@x.com"];
     lastProcessedTime := t; maxEmailsPerRun := Some (Some cap) |}.

(** Two threads, the newer first, as a mailbox lists them. *)
Definition newest_first : list GmailThread :=
  [ thread "t1" [message "m1" "a@x.com" 3000];
    thread "t2" [message "m2" "a@x.com" 2000] ].

Definition oldest_first : list GmailThread :=
  [ thread "t2" [message "m2" "a@x.com" 2000];
    thread "t1" [message "m1" "a@x.com" 3000] ].

(** One thread with two new messages. *)
Definition one_thread : list GmailThread :=
  [ thread "t1" [message "m1" "a@x.com" 2000; message "m2" "a@x.com" 3000] ].

(** One thread in which [b@x.com] answered [a@x.com]. *)
Definition with_reply : list GmailThread :=
  [ thread "t1" [message "m1" "a@x.com" 2000; message "m2" "b@x.com" 2500] ].

Definition w_newest_first : World :=
  world (props (lit "1000")) 5000 (inbox newest_first) (always ok_line)
    (always no_items).

Definition w_oldest_first : World :=
  world (props (lit "1000")) 5000 (inbox oldest_first) (always ok_line)
    (always no_items).

Definition w_capped : World :=
  world (<["maxEmailsPerRun" := lit "1"]> (props (lit "1000"))) 5000
    (inbox one_thread) (always ok_line) (always no_items).

Definition w_reply : World :=
  world (props (lit "1000")) 5000 (inbox with_reply) (always ok_line)
    (always no_items).

(** The mailbox search raises. *)
Definition w_mailbox_down : World :=
  world (props (lit "1000")) 5000 broken_inbox (always ok_line) (always no_items).

(** The push endpoint answers 429 three times, then 200. *)
Definition w_rate_limited : World :=
  world (props (lit "1000")) 5000 (inbox oldest_first)
    (outcomes [Response 429 []; Response 429 []; Response 429 []] ok_line)
    (always (Response 200 (gemini_body one_todo))).

(** The transport to the push endpoint raises three times, then 200. *)
Definition w_flaky_transport : World :=
  world (props (lit "1000")) 5000 (inbox oldest_first)
    (outcomes [FetchFails (lit "Timeout"); FetchFails (lit "Timeout");
               FetchFails (lit "Timeout")] ok_line)
    (always (Response 200 (gemini_body one_todo))).


(** The push endpoint always answers 500. *)
Definition w_line_500 : World :=
  world (props (lit "1000")) 5000 (inbox oldest_first)
    (always (Response 500 []))
    (always (Response 200 (gemini_body one_todo))).

(** The generative endpoint answers 500. *)
Definition w_gemini_500 : World :=
  world (props (lit "1000")) 5000 (inbox oldest_first) (always ok_line)
    (always (Response 500 (lit "Internal error"))).

(** The generative endpoint returns an item whose description is empty. *)
Definition w_empty_description : World :=
  world (props (lit "1000")) 5000 (inbox oldest_first) (always ok_line)
    (always (Response 200 (gemini_body empty_description))).

(** The [config] property of a deployment of the bundle. *)
Definition config_fields (watermark : Z) : list (jsstring * jsval) :=
  [ (lit "lineAccessToken", JStr token);
    (lit "lineGroupId", JStr group);
    (lit "geminiApiKey", JStr (lit "gemini-key"));
    (lit "senderWhitelist", JArr [JStr (lit "a@x.com")]);
    (lit "lastProcessedTime", JNum watermark) ].

Definition json_props (watermark : Z) : gmap string jsstring :=
  <["config" := Reference.stringify (JObj (config_fields watermark))]> ∅.

(** The numbered-list pattern finds one item in every text. *)
Definition one_numbered_item : MatchedPattern -> jsstring -> list RegExpMatch :=
  fun pattern _ =>
    match pattern with
    | numbered => [ {| group1 := Some (lit " Call the supplier "); group2 := None |} ]
    | _ => []
    end.

Definition P1 : Platform := Reference.platform one_numbered_item.


Definition email_of (th : GmailThread) (k : nat) : list EmailMessage :=
  match nth_error (getMessages th) k with
  | Some m => [emailMessage th m]
  | None => []
  end.

End Scenario.

(** ** Vocabulary of the statements *)

(** A single item whose description alone is 5000 code units long. *)
Definition long_todos : list TodoItem :=
  [ {| description := JStr (repeat 97%N 5000); priority := JUndef;
       sourceEmailId := lit "m1"; sourceSender := lit "a@x.com";
       sourceSubject := lit "s"; extractedAt := 0;
       matchedPattern := ai_extracted |} ].

(** What a push may change: the POST trace grows by [k] copies of the
    request and the sleep trace by [zs]; nothing else moves. *)
Definition pushed (req : LinePushRequest) (k : nat) (zs : list Z) (w w' : World) : Prop :=
  properties w' = properties w /\ clock w' = clock w /\
  clock_reads w' = clock_reads w /\ mailbox w' = mailbox w /\
  line_endpoint w' = line_endpoint w /\
  gemini_endpoint w' = gemini_endpoint w /\
  gemini_requests w' = gemini_requests w /\ log w' = log w /\
  line_requests w' = line_requests w ++ repeat req k /\
  sleeps w' = sleeps w ++ zs.

(** The sleeps of the attempts [attempt], [attempt + 1], ... that are
    followed by another one. *)
Fixpoint backoff (maxRetries attempt count : nat) : list Z :=
  match count with
  | O => []
  | S c =>
      (if (attempt <? maxRetries)%nat then [2 ^ Z.of_nat attempt * 1000] else [])
      ++ backoff maxRetries (S attempt) c
  end.

(** [n] readings of the clock. *)
Definition ticks (n : nat) (w : World) : World := Nat.iter n tick w.

Definition event_of (email : EmailMessage) : LogEvent :=
  Processing_email (from email) (subject email) (id email).

(** The store after [updateLastProcessedTime(t)]. *)
Definition advance (t : Z) (w : World) : World :=
  set_properties (<["lastProcessedTime" := Number_toString t]> (properties w)) w.

(** The services a run only reads. *)
Definition same_services (w w' : World) : Prop :=
  clock w' = clock w /\ mailbox w' = mailbox w /\
  line_endpoint w' = line_endpoint w /\ gemini_endpoint w' = gemini_endpoint w.

(** The messages of the threads that are newer than the watermark, in
    the order of the threads and, within a thread, of its messages. *)
Definition new_messages (lastProcessedTime : Z) (threads : list GmailThread)
    : list EmailMessage :=
  flat_map (fun thread =>
              map (emailMessage thread)
                (List.filter (fun m => lastProcessedTime <? getDate m)
                   (getMessages thread)))
           threads.

(** An item whose description is a string that starts with a code unit
    other than white space. *)
Definition described (item : TodoItem) : Prop :=
  exists c s, description item = JStr (c :: s) /\ is_space c = false.

(** The two kinds of request a run sends to the chat endpoint. *)
Definition is_notification (r : LinePushRequest) : Prop :=
  startsWith (text r) MessageFormatter.envelope_icon = true.

Definition is_summary (r : LinePushRequest) : Prop :=
  startsWith (text r)
    (RunOrchestrator.check_mark ++ lit " Email Monitor Run Summary") = true
  \/ startsWith (text r)
       (RunOrchestrator.cross_mark ++ lit " Email Monitor Run Summary") = true.

(** The watermark as [getConfig] reads it from the store. *)
Definition stored_watermark (w : World) : number :=
  match properties w !! "lastProcessedTime" with
  | None | Some [] => Some 0
  | Some s => parseInt s
  end.

(** The candidate text that [callGeminiAPI] looks up in the body. *)
Definition candidate_text (data : jsval) : jsval :=
  Val.get_opt (lit "text")
    (Val.first_opt
       (Val.get_opt (lit "parts")
          (Val.get_opt (lit "content")
             (Val.first_opt (Val.get_opt (lit "candidates") data))))).

(** What a run of the bundle leaves alone while it visits messages. *)
Definition untouched (w w' : World) : Prop :=
  properties w' = properties w /\ clock w' = clock w /\ mailbox w' = mailbox w
  /\ (clock_reads w <= clock_reads w')%nat.

(** The store after a timestamp was written into the object [fields]. *)
Definition with_watermark (t : Z) (fields : list (jsstring * jsval)) : jsval :=
  JObj (JsonConfigService.set_field (lit "lastProcessedTime") (JNum t) fields).

Section BundleVocabulary.
Variable P : Platform.

(** The outcome of reading the [config] property of a store. *)
Definition read_config (p : gmap string jsstring) : Result jsval :=
  match p !! "config" with
  | None | Some [] =>
      Throw (lit "Configuration not found. Run initializeConfig() first.")
  | Some (c :: s) =>
      match JSON_parse P (c :: s) with
      | None => Throw (lit "Invalid configuration format")
      | Some config =>
          if negb (JsonConfigService.isAppConfig config)
          then Throw (lit "Invalid configuration structure")
          else Ok config
      end
  end.

Definition write_config (obj : jsval) (w : World) : World :=
  set_properties (<["config" := JSON_stringify P obj]> (properties w)) w.

(** The watermark, the whitelist and the cap that a loaded object
    holds. *)
Definition watermark_of (config : jsval) : jsval :=
  Val.get_opt (lit "lastProcessedTime") config.

Definition whitelist_of (config : jsval) : jsval :=
  Val.get_opt (lit "senderWhitelist") config.

Definition cap_of (config : jsval) : jsval :=
  EmailService_new_untyped (Val.get_opt (lit "maxEmailsPerRun") config).

(** The test of the fetch loop: a message received at [d] is kept when
    [d <= lastProcessedTime] is false. *)
Definition newer (watermark : jsval) (d : Z) : bool :=
  negb (Coerce.ge P watermark d).

(** The messages of the threads that the fetch loop keeps, in the order
    of the threads and, within a thread, of its messages. *)
Definition kept_messages (watermark : jsval) (threads : list GmailThread)
    : list EmailMessage :=
  flat_map (fun thread =>
              map (emailMessage thread)
                (List.filter (fun m => newer watermark (getDate m))
                   (getMessages thread)))
           threads.

(** The query of the search of the bundle, for a watermark whose date is
    valid. *)
Definition query_of (watermark : jsval) : jsstring :=
  EmailServiceFilter.query
    (match Coerce.Date_of P watermark with
     | Some t => formatDate P t
     | None => []
     end).

(** The messages that a run of the bundle fetched and kept: the threads
    of its search, the messages that pass the watermark test, and of
    these the ones that pass the sender filter. *)
Definition fetched (w : World) (config : jsval) (filtered : list EmailMessage)
    : Prop :=
  exists threads,
    mailbox w (query_of (watermark_of config)) 0 (cap_of config) = Some threads
    /\ EmailServiceFilter.filtered_by_sender P
         (kept_messages (watermark_of config) threads) (whitelist_of config)
       = Some filtered.


End BundleVocabulary.

(** ** Vocabulary of the further properties *)

(** One line of the list of a notification:
    [`${number}. ${priorityIcon}${todo.description}\n`]. *)
Definition todo_line (number : nat) (todo : TodoItem) : jsstring :=
  nat_toString number ++ lit ". "
    ++ MessageFormatter.getPriorityIcon (priority todo)
    ++ Val.toString (description todo) ++ nl.

(** The lines of the items, numbered from [first]. *)
Fixpoint todo_lines (first : nat) (todos : list TodoItem) : jsstring :=
  match todos with
  | [] => []
  | todo :: rest => todo_line first todo ++ todo_lines (S first) rest
  end.

(** A notification as it reads when it fits the limit: the header, the
    numbered items, the footer with their count. *)
Definition layout (todos : list TodoItem) (sender subject : jsstring) : jsstring :=
  MessageFormatter.envelope_icon ++ lit " New Todos from Email" ++ nl ++ nl
  ++ lit "From: " ++ sender ++ nl
  ++ lit "Subject: " ++ subject ++ nl
  ++ nl ++ MessageFormatter.rule ++ nl ++ nl
  ++ todo_lines 1 todos
  ++ nl ++ MessageFormatter.rule ++ nl
  ++ lit "Total: " ++ nat_toString (length todos) ++ lit " todo"
  ++ (if (length todos <=? 1)%nat then [] else lit "s").


(** A run of white space. *)
Definition blank (s : jsstring) : Prop := Forall (fun c => is_space c = true) s.

(** An item that names the message it was taken from. *)
Definition attributed (emailId sender subject : jsstring) (item : TodoItem) : Prop :=
  sourceEmailId item = emailId /\ sourceSender item = sender
  /\ sourceSubject item = subject.

(** A text in which some [<] is followed, somewhere, by a [>]. *)
Definition has_tag (s : jsstring) : Prop :=
  exists a b c, s = a ++ [60%N] ++ b ++ [62%N] ++ c.

(** What the pattern extractor stores as a description: a string that is
    not empty and has no white space at either end. *)
Definition trimmed_text (item : TodoItem) : Prop :=
  exists d, description item = JStr d /\ d <> [] /\ trim d = d.

(** The invariant of the loops of the pattern extractor. *)
Definition well_formed (todos : list TodoItem) : Prop :=
  NoDup (map description todos)
  /\ Forall trimmed_text todos.

(** An address as the whitelist holds it: not empty, no white space at
    either end, no comma. *)
Definition clean (entry : jsstring) : Prop :=
  entry <> [] /\ trim entry = entry /\ ~ In 44%N entry.

(** The four properties that [getConfig] requires are set, and the
    whitelist names at least one address. *)
Definition required_present (p : gmap string jsstring) : Prop :=
  falsy_property (p !! "lineAccessToken") = false
  /\ falsy_property (p !! "lineGroupId") = false
  /\ falsy_property (p !! "geminiApiKey") = false
  /\ falsy_property (p !! "senderWhitelist") = false
  /\ match p !! "senderWhitelist" with
     | Some s => ConfigService.parse_whitelist s <> []
     | None => False
     end.

(** The configuration with another watermark. *)
Definition set_lastProcessedTime (t : Z) (c : AppConfig) : AppConfig :=
  {| lineAccessToken := lineAccessToken c; lineGroupId := lineGroupId c;
     geminiApiKey := geminiApiKey c; senderWhitelist := senderWhitelist c;
     lastProcessedTime := t; maxEmailsPerRun := maxEmailsPerRun c |}.

(** The cap as [getConfig] reads it from the store. *)
Definition stored_cap (w : World) : number :=
  match properties w !! "maxEmailsPerRun" with
  | None | Some [] => Some 100
  | Some s => parseInt s
  end.

(** A property name under which [listProperties] masks the value. *)
Definition sensitive (key : string) : bool :=
  ConfigService.includes key "Token" || ConfigService.includes key "Key".

(** A code unit that [[^\s@]] matches. *)
Definition plain (c : N) : Prop := is_space c = false /\ c <> 64%N.

(** The texts that [/^[^\s@]+@[^\s@]+\.[^\s@]+$/] matches: a local part,
    an [@], and a domain with a dot that is neither its first nor its
    last code unit, all without white space and without another [@]. *)
Definition email_shape (email : jsstring) : Prop :=
  exists l a b,
    email = l ++ [64%N] ++ a ++ [46%N] ++ b
    /\ l <> [] /\ a <> [] /\ b <> []
    /\ Forall plain l /\ Forall plain a /\ Forall plain b.

(** A configuration object at the declared types: the token and the
    group id are strings, the whitelist is an array of strings, and the
    two optional numbers are absent or numbers. *)
Definition number_or_absent (v : jsval) : Prop :=
  match v with
  | JUndef | JNum _ | JNonInt _ => True
  | _ => False
  end.

Definition declared_types (config : jsval) (token group : jsstring)
    (senders : list jsstring) : Prop :=
  JsonConfigService.isAppConfig config = true
  /\ Val.get_opt (lit "lineAccessToken") config = JStr token
  /\ Val.get_opt (lit "lineGroupId") config = JStr group
  /\ Val.get_opt (lit "senderWhitelist") config = JArr (map JStr senders)
  /\ number_or_absent (Val.get_opt (lit "extractionConfidence") config)
  /\ number_or_absent (Val.get_opt (lit "maxEmailsPerRun") config).

(** An optional number that is not below [low] and, when [high] is
    given, not above it.  NaN is neither below nor above anything. *)
Definition within (low : Z) (high : option Z) (v : jsval) : Prop :=
  match v with
  | JUndef => True
  | JNum z => low <= z /\ match high with Some h => z <= h | None => True end
  | JNonInt (Fraction below _) =>
      low <= below /\ match high with Some h => below < h | None => True end
  | JNonInt NaN => True
  | JNonInt (Infinity negative) =>
      negative = false /\ high = None
  | _ => False
  end.

(** What [validateConfig] asks of a configuration at the declared
    types. *)
Definition valid_configuration (config : jsval) (token group : jsstring)
    (senders : list jsstring) : Prop :=
  (50 <= length token)%nat
  /\ startsWith group (lit "C") = true
  /\ senders <> []
  /\ Forall (fun email => JsonConfigService.isValidEmail email = true) senders
  /\ within 0 (Some 1) (Val.get_opt (lit "extractionConfidence") config)
  /\ within 1 None (Val.get_opt (lit "maxEmailsPerRun") config).

(** The prompt sent for a message. *)
Definition prompt_of (email : EmailMessage) : jsstring :=
  GeminiService.buildExtractionPrompt (body_of email) (subject email).

(** The store after the visits of [visited] returned: the watermark of
    the last of them is written, if there is one. *)
Definition watermark_after (visited : list EmailMessage)
    (p : gmap string jsstring) : gmap string jsstring :=
  match last visited with
  | Some email => <["lastProcessedTime" := Number_toString (receivedDate email)]> p
  | None => p
  end.

(** The request that carries a run summary. *)
Definition summary_request (config : AppConfig) (summary : jsstring)
    : LinePushRequest :=
  {| authorization := lineAccessToken config; to := JStr (lineGroupId config);
     text := summary |}.

(** What the bundled entry point does to the two endpoints: it sends
    nothing to the generative one, and only notifications to the chat
    one. *)
Definition notifies_only (w w' : World) : Prop :=
  gemini_requests w' = gemini_requests w
  /\ exists notes,
       line_requests w' = line_requests w ++ notes /\ Forall is_notification notes.

(** A store without any property. *)
Definition w_unconfigured : World :=
  Scenario.world ∅ 5000 (Scenario.inbox Scenario.oldest_first)
    (Scenario.always Scenario.ok_line) (Scenario.always Scenario.no_items).

(** The [config] property of a deployment whose access token is too
    short for [validateConfig]. *)
Definition short_token_fields : list (jsstring * jsval) :=
  [ (lit "lineAccessToken", JStr (lit "short-token"));
    (lit "lineGroupId", JStr Scenario.group);
    (lit "geminiApiKey", JStr (lit "gemini-key"));
    (lit "senderWhitelist", JArr [JStr (lit "a@x.com")]);
    (lit "lastProcessedTime", JNum 1000) ].

(** A deployment of the bundle with that configuration. *)
Definition w_short_token : World :=
  Scenario.world
    (<["config" := Reference.stringify (JObj short_token_fields)]> ∅) 5000
    (Scenario.inbox Scenario.oldest_first)
    (Scenario.always Scenario.ok_line) (Scenario.always Scenario.no_items).

(** A run in which every reading of the clock is seven minutes after
    the one before. *)
Definition w_slow_search : World :=
  {| properties := Scenario.props (lit "1000");
     clock := fun k => 5000 + 420000 * Z.of_nat k; clock_reads := 0;
     mailbox := Scenario.inbox Scenario.oldest_first;
     line_endpoint := Scenario.always Scenario.ok_line; line_requests := [];
     gemini_endpoint := Scenario.always Scenario.no_items; gemini_requests := [];
     sleeps := []; log := [] |}.


(** A message whose sender has a display name. *)
Definition message_from_ann : EmailMessage :=
  {| id := lit "m9"; threadId := lit "t9"; from := lit "Ann <A@X.com>";
     subject := lit "subject"; bodyPlain := lit "plain body"; bodyHtml := [];
     receivedDate := 2000; processed := false; labelIds := [] |}.

(** A deployment of the bundle whose watermark is the received time of
    the newest message of the mailbox. *)
Definition w_bundle_idle : World :=
  Scenario.world (Scenario.json_props 3000) 5000
    (Scenario.inbox Scenario.oldest_first)
    (Scenario.always Scenario.ok_line) (Scenario.always Scenario.no_items).

(** The [config] property of a deployment whose watermark was stored as
    a text, and whose confidence threshold is one half. *)
Definition text_watermark_fields : list (jsstring * jsval) :=
  [ (lit "lineAccessToken", JStr Scenario.token);
    (lit "lineGroupId", JStr Scenario.group);
    (lit "geminiApiKey", JStr (lit "gemini-key"));
    (lit "senderWhitelist", JArr [JStr (lit "a@x.com")]);
    (lit "lastProcessedTime", JStr (lit "1000"));
    (lit "extractionConfidence", JNonInt (Fraction 0 (lit "0.5"))) ].

Definition w_text_watermark : World :=
  Scenario.world
    (<["config" := Reference.stringify (JObj text_watermark_fields)]> ∅) 5000
    (Scenario.inbox Scenario.oldest_first)
    (Scenario.always Scenario.ok_line) (Scenario.always Scenario.no_items).

(* ===================================================================== *)
(** * Properties *)
(* ===================================================================== *)

Section Formatter.
Import MessageFormatter.

Lemma startsWith_app (p x : jsstring) : startsWith (p ++ x) p = true.
Proof.
  induction p as [|c p IH]; simpl; [reflexivity|].
  now rewrite N.eqb_refl, IH.
Qed.

Lemma endsWith_app (a p : jsstring) : endsWith (a ++ p) p = true.
Proof. unfold endsWith. rewrite rev_app_distr. apply startsWith_app. Qed.

Lemma truncation_suffix_length : length truncation_suffix = 16%nat.
Proof. reflexivity. Qed.


(** C7, as stated, fails: the rendering of [long_todos] exceeds the limit,
    yet the output is not the rendering cut at the limit minus the length
    of the suffix (4984) with the suffix appended; it is 4996 code units
    long, because the cut is at 4980. *)
Lemma formatTodosForLine_cut_is_not_limit_minus_suffix :
  let r := render long_todos (lit "a@x.com") (lit "s") in
  let out := formatTodosForLine long_todos (lit "a@x.com") (lit "s") in
  (LINE_CONSTRAINTS.MAX_MESSAGE_LENGTH < length r)%nat /\
  out <> firstn (LINE_CONSTRAINTS.MAX_MESSAGE_LENGTH - length truncation_suffix) r
           ++ truncation_suffix /\
  length out = 4996%nat.
Proof.
  cbv zeta. split; [|split].
  - vm_compute. lia.
  - intros H. apply (f_equal (@length N)) in H. vm_compute in H. discriminate.
  - vm_compute. reflexivity.
Qed.

(** The length check on its own, for any limit and any cut. *)
Lemma enforce_limit_spec (limit margin : nat) (suffix r : jsstring) :
  (length suffix <= margin)%nat -> (margin <= limit)%nat ->
  let out := if (limit <? length r)%nat
             then firstn (limit - margin) r ++ suffix else r in
  (length out <= limit)%nat /\
  ((length r <= limit)%nat -> out = r) /\
  ((limit < length r)%nat ->
     out = firstn (limit - margin) r ++ suffix /\
     length out = (limit - margin + length suffix)%nat /\
     endsWith out suffix = true).
Proof.
  intros Hs Hm out. subst out.
  destruct (limit <? length r)%nat eqn:E;
    [apply Nat.ltb_lt in E | apply Nat.ltb_ge in E].
  - assert (Hlen : length (firstn (limit - margin) r ++ suffix)
                   = (limit - margin + length suffix)%nat).
    { rewrite length_app, length_firstn. lia. }
    repeat split.
    + rewrite Hlen. lia.
    + intros. lia.
    + exact Hlen.
    + apply endsWith_app.
  - repeat split; try lia; intros; lia.
Qed.

(** C7 (amended): for a non-empty list of items the output never exceeds
    5000 code units; a rendering within the limit is returned unchanged;
    a longer one is cut to its first 5000 - 20 = 4980 code units and the
    16-unit suffix is appended, so the output is 4996 units long and ends
    with the truncation marker. *)
Theorem formatTodosForLine_bounded (todos : list TodoItem) (sender subject : jsstring) :
  todos <> [] ->
  let r := render todos sender subject in
  let out := formatTodosForLine todos sender subject in
  (length out <= LINE_CONSTRAINTS.MAX_MESSAGE_LENGTH)%nat /\
  ((length r <= LINE_CONSTRAINTS.MAX_MESSAGE_LENGTH)%nat -> out = r) /\
  ((LINE_CONSTRAINTS.MAX_MESSAGE_LENGTH < length r)%nat ->
     out = firstn (LINE_CONSTRAINTS.MAX_MESSAGE_LENGTH - 20) r ++ truncation_suffix /\
     length out = 4996%nat /\
     endsWith out truncation_suffix = true).
Proof.
  intros Hne r out. subst out. unfold formatTodosForLine. fold r.
  destruct todos as [|t ts]; [contradiction|].
  change (length (t :: ts) =? 0)%nat with false. cbv iota.
  clearbody r.
  exact (enforce_limit_spec LINE_CONSTRAINTS.MAX_MESSAGE_LENGTH 20
           truncation_suffix r ltac:(vm_compute; lia) ltac:(vm_compute; lia)).
Qed.

Lemma formatTodosForLine_bounded_witness :
  long_todos <> [] /\
  (length (formatTodosForLine long_todos (lit "a@x.com") (lit "s"))
     <= LINE_CONSTRAINTS.MAX_MESSAGE_LENGTH)%nat.
Proof.
  split; [discriminate|].
  apply (formatTodosForLine_bounded long_todos (lit "a@x.com") (lit "s")).
  discriminate.
Defined.

End Formatter.

(** ** The store: decimal round trip and [ConfigService] *)

Section Store.

Lemma uint_of_codes_of_uint (u : Decimal.uint) :
  uint_of_codes (codes_of_uint u) = u.
Proof. induction u; simpl; congruence. Qed.

Lemma parse_digits_codes (u : Decimal.uint) :
  u <> Nil -> parse_digits (codes_of_uint u) = Some (Z.of_N (N.of_uint u)).
Proof.
  intros Hu. unfold parse_digits. rewrite uint_of_codes_of_uint.
  destruct u; [contradiction|reflexivity..].
Qed.

Lemma parseInt_digit_head (c : N) (r : jsstring) :
  (48 <= c <= 57)%N -> parseInt (c :: r) = parse_digits (c :: r).
Proof.
  intros Hc.
  assert (Hcases : c = 48%N \/ c = 49%N \/ c = 50%N \/ c = 51%N \/ c = 52%N
                   \/ c = 53%N \/ c = 54%N \/ c = 55%N \/ c = 56%N \/ c = 57%N)
    by lia.
  repeat (destruct Hcases as [-> | Hcases]; [reflexivity|]).
  subst c. reflexivity.
Qed.

Lemma codes_of_uint_head (u : Decimal.uint) :
  u <> Nil -> exists c r, codes_of_uint u = c :: r /\ (48 <= c <= 57)%N.
Proof.
  intros Hu. destruct u; [contradiction|..]; simpl; eexists; eexists;
    (split; [reflexivity|lia]).
Qed.

(** What [updateLastProcessedTime] writes, [parseInt] reads back. *)
Lemma parseInt_Number_toString (z : Z) : parseInt (Number_toString z) = Some z.
Proof.
  destruct z as [|p|p]; [reflexivity| |].
  - unfold Number_toString.
    pose proof (DecimalPos.Unsigned.to_uint_nonnil p) as Hnil.
    destruct (codes_of_uint_head _ Hnil) as (c & r & Hcr & Hc).
    rewrite Hcr, (parseInt_digit_head c r Hc), <- Hcr.
    rewrite (parse_digits_codes _ Hnil). unfold N.of_uint.
    now rewrite DecimalPos.Unsigned.of_to.
  - unfold Number_toString.
    pose proof (DecimalPos.Unsigned.to_uint_nonnil p) as Hnil.
    change (parseInt (45%N :: codes_of_uint (Pos.to_uint p)))
      with (option_map Z.opp (parse_digits (codes_of_uint (Pos.to_uint p)))).
    rewrite (parse_digits_codes _ Hnil). unfold N.of_uint.
    now rewrite DecimalPos.Unsigned.of_to.
Qed.

Lemma Number_toString_nonempty (z : Z) : Number_toString z <> [].
Proof.
  intros H. pose proof (parseInt_Number_toString z) as Hp.
  rewrite H in Hp. discriminate.
Qed.

Lemma stored_watermark_advance (t : Z) (w : World) :
  stored_watermark (advance t w) = Some t.
Proof.
  unfold stored_watermark, advance. simpl. rewrite lookup_insert_eq.
  pose proof (Number_toString_nonempty t) as Hne.
  pose proof (parseInt_Number_toString t) as Hp.
  destruct (Number_toString t); [contradiction|exact Hp].
Qed.

(** Loading the configuration reads the store and changes nothing. *)
Lemma getConfig_world (w : World) : snd (ConfigService.getConfig w) = w.
Proof.
  unfold ConfigService.getConfig, bind, getProperty, throw, ret. simpl.
  repeat match goal with
         | |- context [match ?x with _ => _ end] => destruct x; simpl
         end; reflexivity.
Qed.

(** The outcome depends on the store alone. *)
Lemma getConfig_store (w1 w2 : World) :
  properties w1 = properties w2 ->
  fst (ConfigService.getConfig w1) = fst (ConfigService.getConfig w2).
Proof.
  unfold ConfigService.getConfig, bind, getProperty, throw, ret. simpl.
  intros ->.
  repeat match goal with
         | |- context [match ?x with _ => _ end] => destruct x; simpl
         end; reflexivity.
Qed.

Lemma getConfig_tick (w : World) (r : Result AppConfig) :
  ConfigService.getConfig w = (r, w) ->
  ConfigService.getConfig (tick w) = (r, tick w).
Proof.
  intros H. pose proof (getConfig_world (tick w)) as Hw.
  pose proof (getConfig_store (tick w) w eq_refl) as Hr.
  rewrite H in Hr. simpl in Hr.
  destruct (ConfigService.getConfig (tick w)) as [r' w']. simpl in *.
  congruence.
Qed.

Lemma getConfig_eq (w : World) :
  ConfigService.getConfig w = (fst (ConfigService.getConfig w), w).
Proof.
  pose proof (getConfig_world w) as Hw.
  destruct (ConfigService.getConfig w) as [r w']. simpl in *. congruence.
Qed.

(** A loaded configuration carries the stored watermark, a valid time. *)
Lemma getConfig_watermark (w w' : World) (config : AppConfig) :
  ConfigService.getConfig w = (Ok config, w') ->
  stored_watermark w = Some (lastProcessedTime config)
  /\ valid_time (lastProcessedTime config) = true.
Proof.
  unfold ConfigService.getConfig, bind, getProperty, throw, ret, stored_watermark.
  simpl. intros H.
  destruct (properties w !! "lineAccessToken") as [[|? ?]|]; try discriminate.
  destruct (properties w !! "lineGroupId") as [[|? ?]|]; try discriminate.
  destruct (properties w !! "geminiApiKey") as [[|? ?]|]; try discriminate.
  destruct (properties w !! "senderWhitelist") as [[|? ?]|]; try discriminate.
  match type of H with
  | context [if ?c then _ else _] => destruct c; try discriminate
  end.
  destruct (properties w !! "lastProcessedTime") as [[|c s]|].
  - destruct (valid_time 0) eqn:Hv; [|discriminate].
    injection H as <- _. simpl. split; [reflexivity|exact Hv].
  - destruct (parseInt (c :: s)) as [t|]; [|discriminate].
    destruct (valid_time t) eqn:Hv; [|discriminate].
    injection H as <- _. simpl. split; [reflexivity|exact Hv].
  - destruct (valid_time 0) eqn:Hv; [|discriminate].
    injection H as <- _. simpl. split; [reflexivity|exact Hv].
Qed.

End Store.

(** ** The Dispatcher: [LineService.pushMessage] *)

(** The retry loop around one POST of a request. *)
Section RetryLoop.
Variable P : Platform.
Variable request : LinePushRequest.
Variable send : M LineApiResponse.
Hypothesis send_eq : forall w : World,
  send w =
  match line_endpoint w (length (line_requests w)) with
  | Response s b => (Ok (LineService.handleLineResponse P s b), add_line_request request w)
  | FetchFails e => (Throw e, add_line_request request w)
  end.


(** The first [i] attempts raise and the next one gets a response: the
    response is the outcome, whatever its status. *)
Lemma withRetry_from_response_loop (maxRetries : nat) (s : Z) (b : jsstring) :
  forall (i attempt remaining : nat) (lastError : option jsstring) (w : World),
    (i < remaining)%nat ->
    (forall j, (j < i)%nat ->
       exists e, line_endpoint w (length (line_requests w) + j) = FetchFails e) ->
    line_endpoint w (length (line_requests w) + i) = Response s b ->
    exists w',
      LineService.withRetry_from send
        maxRetries attempt remaining lastError w
      = (Ok (LineService.handleLineResponse P s b), w')
      /\ pushed request (S i) (backoff maxRetries attempt i) w w'.
Proof.
  induction i as [|i IH]; intros attempt remaining lastError w Hlt Hfail Hresp.
  - destruct remaining as [|remaining]; [lia|].
    rewrite Nat.add_0_r in Hresp. simpl.
    unfold try_catch. rewrite send_eq, Hresp.
    eexists; split; [reflexivity|].
    unfold pushed; simpl. rewrite app_nil_r. repeat split; reflexivity.
  - destruct remaining as [|remaining]; [lia|].
    destruct (Hfail 0%nat ltac:(lia)) as [e He]. rewrite Nat.add_0_r in He.
    simpl. unfold try_catch at 1. rewrite send_eq, He.
    unfold bind at 1.
    assert (Hnext : forall k, (length (line_requests w ++ [request]) + k
                               = length (line_requests w) + S k)%nat).
    { intros k. rewrite length_app. simpl. lia. }
    destruct (attempt <? maxRetries)%nat.
    + unfold sleep at 1.
      destruct (IH (S attempt) remaining (Some e)
                  (add_sleep (2 ^ Z.of_nat attempt * 1000)
                     (add_line_request request w))) as (w' & Hrun & Hp).
      * lia.
      * intros j Hj. simpl. rewrite Hnext. apply Hfail. lia.
      * simpl. rewrite Hnext. exact Hresp.
      * exists w'. split; [exact Hrun|].
        destruct Hp as (H1 & H2 & H3 & H4 & H5 & H6 & H7 & H8 & H9 & H10).
        unfold pushed. simpl in *.
        repeat split; try assumption.
        -- rewrite H9. rewrite <- app_assoc. reflexivity.
        -- rewrite H10. rewrite <- app_assoc. reflexivity.
    + unfold ret at 1.
      destruct (IH (S attempt) remaining (Some e)
                  (add_line_request request w)) as (w' & Hrun & Hp).
      * lia.
      * intros j Hj. simpl. rewrite Hnext. apply Hfail. lia.
      * simpl. rewrite Hnext. exact Hresp.
      * exists w'. split; [exact Hrun|].
        destruct Hp as (H1 & H2 & H3 & H4 & H5 & H6 & H7 & H8 & H9 & H10).
        unfold pushed. simpl in *.
        repeat split; try assumption.
        rewrite H9. rewrite <- app_assoc. reflexivity.
Qed.


(** Whatever the endpoint does, a push makes between one and four POSTs
    of the same request and touches nothing but the two traces. *)
Lemma withRetry_from_frame_loop (maxRetries : nat) :
  forall (remaining attempt : nat) (lastError : option jsstring)
         (w w' : World) (r : Result LineApiResponse),
    LineService.withRetry_from send
      maxRetries attempt remaining lastError w = (r, w') ->
    exists k zs, (k <= remaining)%nat /\ (remaining <> O -> k <> O)
                 /\ pushed request k zs w w'.
Proof.
  induction remaining as [|remaining IH]; intros attempt lastError w w' r Hrun.
  - simpl in Hrun. unfold throw in Hrun. injection Hrun as <- <-.
    exists 0%nat, []. split; [lia|]. split; [congruence|].
    unfold pushed; simpl. rewrite !app_nil_r. repeat split; reflexivity.
  - simpl in Hrun. unfold try_catch at 1 in Hrun.
    rewrite send_eq in Hrun.
    destruct (line_endpoint w (length (line_requests w))) as [s b|e].
    + injection Hrun as <- <-. exists 1%nat, []. split; [lia|]. split; [lia|].
      unfold pushed; simpl. rewrite app_nil_r. repeat split; reflexivity.
    + unfold bind at 1 in Hrun.
      destruct (attempt <? maxRetries)%nat.
      * unfold sleep at 1 in Hrun.
        apply IH in Hrun. destruct Hrun as (k & zs & Hk & _ & Hp).
        exists (S k), (2 ^ Z.of_nat attempt * 1000 :: zs).
        split; [lia|]. split; [lia|].
        destruct Hp as (H1 & H2 & H3 & H4 & H5 & H6 & H7 & H8 & H9 & H10).
        unfold pushed. simpl in *.
        repeat split; try assumption.
        -- rewrite H9. rewrite <- app_assoc. reflexivity.
        -- rewrite H10. rewrite <- app_assoc. reflexivity.
      * unfold ret at 1 in Hrun.
        apply IH in Hrun. destruct Hrun as (k & zs & Hk & _ & Hp).
        exists (S k), zs.
        split; [lia|]. split; [lia|].
        destruct Hp as (H1 & H2 & H3 & H4 & H5 & H6 & H7 & H8 & H9 & H10).
        unfold pushed. simpl in *.
        repeat split; try assumption.
        rewrite H9. rewrite <- app_assoc. reflexivity.
Qed.

End RetryLoop.

(** The push of whatever the caller holds as the token and the group
    id. *)
Section DispatcherUntyped.
Variable P : Platform.
Variables accessToken groupId : jsval.
Variable txt : jsstring.

Let request : LinePushRequest :=
  {| authorization := Val.toString accessToken; to := groupId; text := txt |}.

Lemma sendToLineApi_untyped_eq (w : World) :
  LineService.sendToLineApi_untyped P accessToken groupId txt w =
  match line_endpoint w (length (line_requests w)) with
  | Response s b => (Ok (LineService.handleLineResponse P s b), add_line_request request w)
  | FetchFails e => (Throw e, add_line_request request w)
  end.
Proof.
  unfold LineService.sendToLineApi_untyped, bind, fetch_line, ret. fold request.
  destruct (line_endpoint w (length (line_requests w))); reflexivity.
Qed.

Lemma pushMessage_untyped_frame (w w' : World) (r : Result LineApiResponse) :
  LineService.pushMessage_untyped P accessToken groupId txt w = (r, w') ->
  exists k zs, (1 <= k <= 4)%nat /\ pushed request k zs w w'.
Proof.
  intros Hrun. unfold LineService.pushMessage_untyped, LineService.withRetry in Hrun.
  apply (withRetry_from_frame_loop P request _ sendToLineApi_untyped_eq) in Hrun.
  destruct Hrun as (k & zs & Hk & Hk0 & Hp).
  exists k, zs. split; [|exact Hp].
  specialize (Hk0 ltac:(discriminate)). lia.
Qed.

End DispatcherUntyped.

(** The push at the declared types. *)
Section Dispatcher.
Variable P : Platform.
Variables accessToken groupId txt : jsstring.

Let request : LinePushRequest :=
  {| authorization := accessToken; to := JStr groupId; text := txt |}.

Lemma sendToLineApi_eq (w : World) :
  LineService.sendToLineApi P accessToken groupId txt w =
  match line_endpoint w (length (line_requests w)) with
  | Response s b => (Ok (LineService.handleLineResponse P s b), add_line_request request w)
  | FetchFails e => (Throw e, add_line_request request w)
  end.
Proof. exact (sendToLineApi_untyped_eq P (JStr accessToken) (JStr groupId) txt w). Qed.

Lemma withRetry_from_response (maxRetries : nat) (s : Z) (b : jsstring) :
  forall (i attempt remaining : nat) (lastError : option jsstring) (w : World),
    (i < remaining)%nat ->
    (forall j, (j < i)%nat ->
       exists e, line_endpoint w (length (line_requests w) + j) = FetchFails e) ->
    line_endpoint w (length (line_requests w) + i) = Response s b ->
    exists w',
      LineService.withRetry_from (LineService.sendToLineApi P accessToken groupId txt)
        maxRetries attempt remaining lastError w
      = (Ok (LineService.handleLineResponse P s b), w')
      /\ pushed request (S i) (backoff maxRetries attempt i) w w'.
Proof. exact (withRetry_from_response_loop P request _ sendToLineApi_eq maxRetries s b). Qed.


Lemma withRetry_from_frame (maxRetries : nat) :
  forall (remaining attempt : nat) (lastError : option jsstring)
         (w w' : World) (r : Result LineApiResponse),
    LineService.withRetry_from (LineService.sendToLineApi P accessToken groupId txt)
      maxRetries attempt remaining lastError w = (r, w') ->
    exists k zs, (k <= remaining)%nat /\ (remaining <> O -> k <> O)
                 /\ pushed request k zs w w'.
Proof. exact (withRetry_from_frame_loop P request _ sendToLineApi_eq maxRetries). Qed.

Lemma pushMessage_frame (w w' : World) (r : Result LineApiResponse) :
  LineService.pushMessage P accessToken groupId txt w = (r, w') ->
  exists k zs, (1 <= k <= 4)%nat /\ pushed request k zs w w'.
Proof.
  intros Hrun. unfold LineService.pushMessage, LineService.withRetry in Hrun.
  apply withRetry_from_frame in Hrun.
  destruct Hrun as (k & zs & Hk & Hk0 & Hp).
  exists k, zs. split; [|exact Hp].
  specialize (Hk0 ltac:(discriminate)). lia.
Qed.

End Dispatcher.

(** ** The Extractor: [GeminiService.extractTodos] *)

Section Extractor.
Variable P : Platform.


Lemma ticks_S (n : nat) (w : World) : ticks n (tick w) = ticks (S n) w.
Proof.
  unfold ticks. induction n as [|n IH]; simpl; [reflexivity|].
  simpl in IH. now rewrite IH.
Qed.

Lemma ticks_fields (n : nat) (w : World) :
  properties (ticks n w) = properties w /\ clock (ticks n w) = clock w /\
  clock_reads (ticks n w) = (n + clock_reads w)%nat /\
  mailbox (ticks n w) = mailbox w /\
  line_endpoint (ticks n w) = line_endpoint w /\
  line_requests (ticks n w) = line_requests w /\
  gemini_endpoint (ticks n w) = gemini_endpoint w /\
  gemini_requests (ticks n w) = gemini_requests w /\
  sleeps (ticks n w) = sleeps w /\ log (ticks n w) = log w.
Proof.
  induction n as [|n IH]; [repeat split; reflexivity|].
  destruct IH as (H1 & H2 & H3 & H4 & H5 & H6 & H7 & H8 & H9 & H10).
  unfold ticks in *. simpl. repeat split; try assumption. now rewrite H3.
Qed.

Lemma callGeminiAPI_world (prompt : jsstring) (w : World) :
  snd (GeminiService.callGeminiAPI P prompt w) = add_gemini_request prompt w.
Proof.
  unfold GeminiService.callGeminiAPI, bind, fetch_gemini, throw, ret.
  destruct (gemini_endpoint w (length (gemini_requests w))) as [s b|e]; simpl;
    [|reflexivity].
  destruct (negb (s =? 200)); [reflexivity|].
  destruct (JSON_parse P b) as [data|]; [|reflexivity].
  destruct (Val.get (lit "candidates") data) as [candidates|]; [|reflexivity].
  match goal with |- context [if ?c then _ else _] => destruct c end; reflexivity.
Qed.

Lemma map_todos_ticks (emailId senderEmail emailSubject : jsstring) :
  forall (todos : list jsval) (w : World),
  exists n, snd (GeminiService.map_todos todos emailId senderEmail emailSubject w)
            = ticks n w.
Proof.
  induction todos as [|todo rest IH]; intros w.
  - exists 0%nat. reflexivity.
  - simpl.
    destruct (Val.get (lit "description") todo) as [d|];
      [|exists 0%nat; reflexivity].
    destruct (Val.get (lit "priority") todo) as [p|];
      [|exists 0%nat; reflexivity].
    unfold bind at 1. unfold now at 1.
    destruct (IH (tick w)) as [n Hn].
    exists (S n). rewrite <- ticks_S, <- Hn.
    unfold bind, ret.
    destruct (GeminiService.map_todos rest emailId senderEmail emailSubject (tick w))
      as [[items|e] w1]; reflexivity.
Qed.

(** The parser of the model's answer never raises: every failure inside
    its [try] block ends in the empty list. *)
Lemma parseTodosFromResponse_returns
    (response : jsval) (emailId senderEmail emailSubject : jsstring) (w : World) :
  exists items n,
    GeminiService.parseTodosFromResponse P response emailId senderEmail emailSubject w
    = (Ok items, ticks n w).
Proof.
  unfold GeminiService.parseTodosFromResponse, try_catch.
  destruct response as [| |b|z|x|s|l|f];
    try (exists [], 0%nat; reflexivity).
  destruct (JSON_parse P (GeminiService.strip_code_fence s)) as [v|];
    [|exists [], 0%nat; reflexivity].
  destruct v as [| |b|z|x|s'|todos|f];
    try (exists [], 0%nat; reflexivity).
  destruct (map_todos_ticks emailId senderEmail emailSubject todos w) as [n Hn].
  destruct (GeminiService.map_todos todos emailId senderEmail emailSubject w)
    as [[items|e] w1]; simpl in Hn; subst w1.
  - exists items, n. reflexivity.
  - exists [], n. reflexivity.
Qed.

(** What an extraction may change: one prompt is sent and the clock is
    read some number of times. *)
Lemma extractTodos_world (emailBody emailId senderEmail emailSubject : jsstring)
    (w : World) :
  exists n,
    snd (GeminiService.extractTodos P emailBody emailId senderEmail emailSubject w)
    = ticks n (add_gemini_request
                 (GeminiService.buildExtractionPrompt emailBody emailSubject) w).
Proof.
  unfold GeminiService.extractTodos, bind.
  pose proof (callGeminiAPI_world
                (GeminiService.buildExtractionPrompt emailBody emailSubject) w) as Hw.
  destruct (GeminiService.callGeminiAPI P
              (GeminiService.buildExtractionPrompt emailBody emailSubject) w)
    as [[response|e] w1]; simpl in Hw; subst w1.
  - destruct (parseTodosFromResponse_returns response emailId senderEmail
                emailSubject
                (add_gemini_request
                   (GeminiService.buildExtractionPrompt emailBody emailSubject) w))
      as (items & n & Hrun).
    exists n. rewrite Hrun. reflexivity.
  - exists 0%nat. reflexivity.
Qed.

End Extractor.

(** ** The orchestrator with per-message watermark *)

Section Orchestrator.
Variable P : Platform.




Lemma same_services_refl (w : World) : same_services w w.
Proof. repeat split. Qed.

Lemma same_services_trans (w1 w2 w3 : World) :
  same_services w1 w2 -> same_services w2 w3 -> same_services w1 w3.
Proof.
  intros (A1 & A2 & A3 & A4) (B1 & B2 & B3 & B4).
  repeat split; congruence.
Qed.

(** One visit, branch by branch. *)
Lemma processEmail_eq (email : EmailMessage) (config : AppConfig) (w : World) :
  RunOrchestrator.processEmail P email config w =
  match GeminiService.extractTodos P (body_of email) (id email) (from email)
          (subject email) (add_log (event_of email) w) with
  | (Throw e, w1) => (Throw e, w1)
  | (Ok todos, w1) =>
      match MessageFormatter.formatTodosForLine todos (from email) (subject email) with
      | [] => (Ok 0%nat, advance (receivedDate email) w1)
      | c :: m =>
          match LineService.pushMessage P (lineAccessToken config)
                  (lineGroupId config) (c :: m) w1 with
          | (Throw e, w2) => (Throw e, w2)
          | (Ok response, w2) => (Ok (length todos), advance (receivedDate email) w2)
          end
      end
  end.
Proof.
  unfold RunOrchestrator.processEmail, bind at 1, logger_info.
  fold (event_of email). unfold bind at 1.
  destruct (GeminiService.extractTodos P (body_of email) (id email) (from email)
              (subject email) (add_log (event_of email) w)) as [[todos|e] w1];
    [|reflexivity].
  destruct todos as [|todo todos].
  - reflexivity.
  - change (length (todo :: todos) =? 0)%nat with false. cbv iota.
    destruct (MessageFormatter.formatTodosForLine (todo :: todos) (from email)
                (subject email)) as [|c m].
    + reflexivity.
    + unfold bind at 1.
      destruct (LineService.pushMessage P (lineAccessToken config)
                  (lineGroupId config) (c :: m) w1) as [[response|e] w2];
        [|reflexivity].
      destruct (status response =? 200); reflexivity.
Qed.

(** The effect of one visit on the log, the store and the services. *)
Lemma processEmail_effect (email : EmailMessage) (config : AppConfig)
    (w w' : World) (r : Result nat) :
  RunOrchestrator.processEmail P email config w = (r, w') ->
  log w' = log w ++ [event_of email]
  /\ same_services w w'
  /\ match r with
     | Ok _ => properties w' =
               <["lastProcessedTime" := Number_toString (receivedDate email)]>
                 (properties w)
     | Throw _ => properties w' = properties w
     end.
Proof.
  rewrite processEmail_eq. intros Hrun.
  destruct (extractTodos_world P (body_of email) (id email) (from email)
              (subject email) (add_log (event_of email) w)) as [n Hn].
  destruct (GeminiService.extractTodos P (body_of email) (id email) (from email)
              (subject email) (add_log (event_of email) w)) as [[todos|e] w1];
    simpl in Hn.
  - destruct (ticks_fields n
                (add_gemini_request
                   (GeminiService.buildExtractionPrompt (body_of email) (subject email))
                   (add_log (event_of email) w)))
      as (T1 & T2 & T3 & T4 & T5 & T6 & T7 & T8 & T9 & T10).
    rewrite <- Hn in *. simpl in *.
    destruct (MessageFormatter.formatTodosForLine todos (from email) (subject email))
      as [|c m].
    + injection Hrun as <- <-. simpl.
      split; [exact T10|]. split; [repeat split; assumption|]. now rewrite T1.
    + destruct (LineService.pushMessage P (lineAccessToken config)
                  (lineGroupId config) (c :: m) w1) as [[response|e] w2] eqn:Hpush;
        apply pushMessage_frame in Hpush;
        destruct Hpush as (k & zs & _ & H1 & H2 & H3 & H4 & H5 & H6 & H7 & H8 & H9 & H10);
        injection Hrun as <- <-; simpl.
      * clear Hn. unfold same_services, advance; simpl.
        split; [congruence|]. split; [repeat split; congruence|]. congruence.
      * clear Hn. unfold same_services; simpl.
        split; [congruence|]. split; [repeat split; congruence|]. congruence.
  - destruct (ticks_fields n
                (add_gemini_request
                   (GeminiService.buildExtractionPrompt (body_of email) (subject email))
                   (add_log (event_of email) w)))
      as (T1 & T2 & T3 & T4 & T5 & T6 & T7 & T8 & T9 & T10).
    rewrite <- Hn in *. simpl in *.
    injection Hrun as <- <-.
    split; [exact T10|]. split; [repeat split; assumption|]. exact T1.
Qed.

(** The loop: it visits a prefix of its list, in list order, and on
    normal return the store holds the date of the last message visited. *)
Lemma processFilteredEmails_from_effect (config : AppConfig) (startTime : Z) :
  forall (emails : list EmailMessage) (total : nat) (w w' : World) (r : Result nat),
    RunOrchestrator.processFilteredEmails_from P emails config startTime total w
    = (r, w') ->
    exists k,
      (k <= length emails)%nat
      /\ log w' = log w ++ map event_of (firstn k emails)
      /\ same_services w w'
      /\ match r with
         | Ok _ =>
             match last (firstn k emails) with
             | Some email =>
                 properties w' =
                 <["lastProcessedTime" := Number_toString (receivedDate email)]>
                   (properties w)
             | None => properties w' = properties w
             end
         | Throw _ => True
         end.
Proof.
  induction emails as [|email rest IH]; intros total w w' r Hrun.
  - simpl in Hrun. unfold ret in Hrun. injection Hrun as <- <-.
    exists 0%nat. simpl. rewrite app_nil_r.
    split; [lia|]. split; [reflexivity|]. split; [apply same_services_refl|reflexivity].
  - simpl in Hrun. unfold bind at 1, now at 1 in Hrun.
    destruct (MAX_EXECUTION_TIME_MS <? clock w (clock_reads w) - startTime).
    + unfold ret in Hrun. injection Hrun as <- <-.
      exists 0%nat. simpl. rewrite app_nil_r.
      split; [lia|]. split; [reflexivity|].
      split; [repeat split|reflexivity].
    + unfold bind at 1 in Hrun.
      destruct (RunOrchestrator.processEmail P email config (tick w))
        as [[n|e] w1] eqn:Hvisit;
        apply processEmail_effect in Hvisit;
        destruct Hvisit as (Hlog & Hserv & Hprops); simpl in Hlog, Hprops;
        change (same_services w w1) in Hserv.
      * apply IH in Hrun. destruct Hrun as (k & Hk & Hlog' & Hserv' & Hprops').
        exists (S k). simpl.
        split; [lia|].
        split; [rewrite Hlog', Hlog, <- app_assoc; reflexivity|].
        split; [apply (same_services_trans w w1 w'); assumption|].
        destruct r as [total'|e]; [|exact I].
        destruct (firstn k rest) as [|e1 l] eqn:Hfirst.
        -- simpl in *. congruence.
        -- change (last (email :: e1 :: l)) with (last (e1 :: l)).
           destruct (last (e1 :: l)) as [email'|] eqn:Hlast.
           ++ rewrite Hprops', Hprops. apply insert_insert_eq.
           ++ apply last_None in Hlast. discriminate.
      * injection Hrun as <- <-.
        exists 1%nat. simpl.
        split; [lia|]. split; [exact Hlog|]. split; [exact Hserv|exact I].
Qed.

End Orchestrator.

(** ** The mailbox reader *)

Section MailboxReader.
Variable P : Platform.

Lemma for_messages_spec (thread : GmailThread) (lastProcessedTime : Z) :
  forall (messages : list GmailMessage) (emails : list EmailMessage),
    for_messages thread messages lastProcessedTime emails
    = emails ++ map (emailMessage thread)
                  (List.filter (fun m => lastProcessedTime <? getDate m) messages).
Proof.
  induction messages as [|m rest IH]; intros emails; simpl.
  - now rewrite app_nil_r.
  - destruct (Z.leb_spec (getDate m) lastProcessedTime) as [Hle|Hgt].
    + assert (Hb : (lastProcessedTime <? getDate m) = false) by lia.
      rewrite Hb. apply IH.
    + assert (Hb : (lastProcessedTime <? getDate m) = true) by lia.
      rewrite Hb, IH. simpl. now rewrite <- app_assoc.
Qed.

Lemma for_threads_spec (lastProcessedTime : Z) :
  forall (threads : list GmailThread) (emails : list EmailMessage),
    for_threads threads lastProcessedTime emails
    = emails ++ new_messages lastProcessedTime threads.
Proof.
  induction threads as [|thread rest IH]; intros emails; simpl.
  - now rewrite app_nil_r.
  - rewrite IH, for_messages_spec. now rewrite <- app_assoc.
Qed.

Lemma new_messages_newer (lastProcessedTime : Z) (threads : list GmailThread) :
  Forall (fun email => lastProcessedTime < receivedDate email)
    (new_messages lastProcessedTime threads).
Proof.
  unfold new_messages. apply List.Forall_forall. intros email Hin.
  apply in_flat_map in Hin. destruct Hin as (thread & _ & Hin).
  apply in_map_iff in Hin. destruct Hin as (m & <- & Hin).
  apply filter_In in Hin. destruct Hin as [_ Hnew]. simpl. lia.
Qed.

(** The fetch is the search followed by the date filter; the date filter
    keeps exactly the messages strictly newer than the watermark. *)
Lemma fetchNewEmails_eq (cap : number) (lastProcessedTime : Z)
    (senderWhitelist : list jsstring) (w : World) :
  EmailService.fetchNewEmails P cap lastProcessedTime senderWhitelist w =
  match mailbox w (EmailService.query P lastProcessedTime senderWhitelist) 0 (of_number cap) with
  | Some threads => (Ok (new_messages lastProcessedTime threads), w)
  | None => (Throw (lit "Gmail service error"), w)
  end.
Proof.
  unfold EmailService.fetchNewEmails, bind, GmailApp_search, ret.
  destruct (mailbox w (EmailService.query P lastProcessedTime senderWhitelist) 0 (of_number cap));
    [|reflexivity].
  now rewrite for_threads_spec.
Qed.

End MailboxReader.

(** ** Whole runs of the orchestrator *)

Section Runs.
Variable P : Platform.

(** The summary is dispatched by one push, and a failure of that push is
    swallowed: [sendRunSummary] always returns. *)
Lemma sendRunSummary_effect (config : AppConfig) (emailsFound todosExtracted : nat)
    (executionTimeSec : jsstring) (status : RunStatus)
    (errorMsg : option jsstring) (w : World) :
  exists w' k zs,
    RunOrchestrator.sendRunSummary P config emailsFound todosExtracted
      executionTimeSec status errorMsg w = (Ok tt, w')
    /\ (1 <= k <= 4)%nat
    /\ pushed {| authorization := lineAccessToken config;
                 to := JStr (lineGroupId config);
                 text := RunOrchestrator.summary_text
                           (toLocaleString P (clock w (clock_reads w)))
                           emailsFound todosExtracted executionTimeSec
                           status errorMsg |}
         k zs (tick w) w'.
Proof.
  unfold RunOrchestrator.sendRunSummary, bind at 1, now at 1.
  unfold try_catch, bind, ret.
  match goal with
  | |- context [LineService.pushMessage P ?a ?b ?c ?w0] =>
      destruct (LineService.pushMessage P a b c w0) as [[response|e] w'] eqn:Hpush
  end;
    apply pushMessage_frame in Hpush; destruct Hpush as (k & zs & Hk & Hp);
    exists w', k, zs; repeat split; try lia; apply Hp.
Qed.

(** A run of the orchestrator that finds no new message leaves the store
    as it was, visits nothing, and dispatches exactly one summary, the
    zero-activity one: between one and four POSTs (more than one only
    when the transport raises) of one request to the configured group,
    whose text reports [Emails Found: 0] and [Todos Extracted: 0] with
    status Completed. *)
Lemma orchestrator_quiet_run (w : World) (config : AppConfig)
    (threads : list GmailThread) :
  ConfigService.getConfig w = (Ok config, w) ->
  mailbox w (EmailService.query P (lastProcessedTime config) (senderWhitelist config))
    0 (of_number (EmailService_new (maxEmailsPerRun config))) = Some threads ->
  new_messages (lastProcessedTime config) threads = [] ->
  exists w' k timestamp executionTimeSec,
    RunOrchestrator.processEmails P w = (Ok tt, w')
    /\ properties w' = properties w
    /\ stored_watermark w' = stored_watermark w
    /\ log w' = log w
    /\ (1 <= k <= 4)%nat
    /\ line_requests w' =
       line_requests w
       ++ repeat {| authorization := lineAccessToken config;
                    to := JStr (lineGroupId config);
                    text := RunOrchestrator.check_mark
                              ++ lit " Email Monitor Run Summary" ++ nl ++ nl
                              ++ lit "Time: " ++ timestamp ++ nl
                              ++ lit "Emails Found: 0" ++ nl
                              ++ lit "Todos Extracted: 0" ++ nl
                              ++ lit "Execution Time: " ++ executionTimeSec
                              ++ lit "s" ++ nl
                              ++ lit "Status: Completed" |} k.
Proof.
  intros Hconfig Hsearch Hnone. apply getConfig_tick in Hconfig.
  unfold RunOrchestrator.processEmails.
  unfold bind at 1, now at 1. unfold bind at 1. rewrite Hconfig.
  unfold bind at 1. unfold RunOrchestrator.fetchEmails.
  unfold bind at 1. rewrite fetchNewEmails_eq.
  change (mailbox (tick w)) with (mailbox w). rewrite Hsearch, Hnone.
  unfold bind at 1, now at 1.
  assert (Hempty : forall (b : bool) (w0 : World),
            (if b then ret (A := list EmailMessage) [] else ret []) w0 = (Ok [], w0))
    by (intros [] w0; reflexivity).
  rewrite Hempty.
  unfold try_catch. change (length (@nil EmailMessage) =? 0)%nat with true.
  cbv iota. unfold bind at 1, now at 1.
  destruct (sendRunSummary_effect config 0 0
              (toFixed2 P (clock (tick (tick w)) (clock_reads (tick (tick w)))
                           - clock w (clock_reads w)))
              Completed None (tick (tick (tick w)))) as (w' & k & zs & Hrun & Hk & Hp).
  rewrite Hrun.
  destruct Hp as (H1 & H2 & H3 & H4 & H5 & H6 & H7 & H8 & H9 & H10).
  change (properties (tick (tick (tick (tick w))))) with (properties w) in H1.
  change (log (tick (tick (tick (tick w))))) with (log w) in H8.
  change (line_requests (tick (tick (tick (tick w))))) with (line_requests w) in H9.
  exists w', k,
    (toLocaleString P (clock (tick (tick (tick w))) (clock_reads (tick (tick (tick w)))))),
    (toFixed2 P (clock (tick (tick w)) (clock_reads (tick (tick w)))
                 - clock w (clock_reads w))).
  split; [reflexivity|]. split; [exact H1|].
  split; [unfold stored_watermark; now rewrite H1|].
  split; [exact H8|]. split; [exact Hk|].
  rewrite H9. unfold RunOrchestrator.summary_text.
  rewrite <- !app_assoc. reflexivity.
Qed.

(** The visits of a whole run. *)
Lemma processEmails_visits (w : World) :
  log (snd (RunOrchestrator.processEmails P w)) = log w
  \/ exists config threads k,
       ConfigService.getConfig w = (Ok config, w)
       /\ mailbox w (EmailService.query P (lastProcessedTime config)
                       (senderWhitelist config))
            0 (of_number (EmailService_new (maxEmailsPerRun config))) = Some threads
       /\ (k <= length (new_messages (lastProcessedTime config) threads))%nat
       /\ log (snd (RunOrchestrator.processEmails P w))
          = log w ++ map event_of
                       (firstn k (new_messages (lastProcessedTime config) threads)).
Proof.
  set (L := log (snd (RunOrchestrator.processEmails P w))).
  assert (HL : L = log (snd (RunOrchestrator.processEmails P w))) by reflexivity.
  clearbody L. revert HL.
  unfold RunOrchestrator.processEmails.
  unfold bind at 1, now at 1. unfold bind at 1.
  pose proof (getConfig_eq w) as Hcw.
  rewrite (getConfig_tick w _ Hcw).
  destruct (fst (ConfigService.getConfig w)) as [config|e];
    [|intros ->; left; reflexivity].
  unfold bind at 1. unfold RunOrchestrator.fetchEmails.
  unfold bind at 1. rewrite fetchNewEmails_eq.
  change (mailbox (tick w)) with (mailbox w).
  destruct (mailbox w (EmailService.query P (lastProcessedTime config)
                         (senderWhitelist config))
              0 (of_number (EmailService_new (maxEmailsPerRun config)))) as [threads|] eqn:Hsearch;
    [|intros ->; left; reflexivity].
  unfold bind at 1, now at 1.
  assert (Hsummary : forall a b x s e w0,
            log (snd (RunOrchestrator.sendRunSummary P config a b x s e w0)) = log w0).
  { intros a b x s e w0.
    destruct (sendRunSummary_effect config a b x s e w0) as (w' & k & zs & Hrun & _ & Hp).
    rewrite Hrun. simpl. apply Hp. }
  assert (Hnone : forall w0,
            log w0 = log w ->
            log (snd (try_catch
                        (processingEndTime <- now ;;
                         RunOrchestrator.sendRunSummary P config 0 0
                           (toFixed2 P (processingEndTime - clock w (clock_reads w)))
                           Completed None)
                        (fun e =>
                           now ;;
                           RunOrchestrator.sendRunSummary P config 0 0 (lit "0.00")
                             Failed (Some e) ;;
                           throw e) w0)) = log w).
  { intros w0 Hw0. unfold try_catch. unfold bind at 1, now at 1.
    match goal with
    | |- context [RunOrchestrator.sendRunSummary P ?c ?a ?b ?x ?s ?e ?w1] =>
        destruct (sendRunSummary_effect c a b x s e w1) as (w' & k & zs & Hrun & _ & Hp)
    end.
    rewrite Hrun. simpl. destruct Hp as (_ & _ & _ & _ & _ & _ & _ & H8 & _).
    rewrite H8. exact Hw0. }
  destruct (MAX_EXECUTION_TIME_MS <?
            clock (tick w) (clock_reads (tick w)) - clock w (clock_reads w)).
  { unfold ret at 1.
    change (length (@nil EmailMessage) =? 0)%nat with true. cbv iota.
    intros ->. left. apply Hnone. reflexivity. }
  unfold ret at 1.
  destruct (new_messages (lastProcessedTime config) threads)
    as [|email rest] eqn:Hemails.
  { change (length (@nil EmailMessage) =? 0)%nat with true. cbv iota.
    intros ->. left. apply Hnone. reflexivity. }
  change (length (email :: rest) =? 0)%nat with false. cbv iota.
  intros HL. right. exists config, threads. rewrite Hemails.
  revert HL.
  unfold try_catch. unfold bind at 1.
  unfold RunOrchestrator.processFilteredEmails.
  destruct (RunOrchestrator.processFilteredEmails_from P (email :: rest) config
              (clock w (clock_reads w)) 0 (tick (tick w))) as [[total|e] w3] eqn:Hloop;
    apply processFilteredEmails_from_effect in Hloop;
    destruct Hloop as (k & Hk & Hlog & _ & _);
    change (log (tick (tick w))) with (log w) in Hlog;
    intros HL;
    exists k; (split; [exact Hcw|]); (split; [exact Hsearch|]);
    (split; [exact Hk|]); rewrite HL.
  - unfold bind at 1, now at 1.
    match goal with
    | |- context [RunOrchestrator.sendRunSummary P ?c ?a ?b ?x ?s ?e0 ?w1] =>
        destruct (sendRunSummary_effect c a b x s e0 w1) as (w' & k' & zs & Hrun & _ & Hp)
    end.
    rewrite Hrun. simpl.
    destruct Hp as (_ & _ & _ & _ & _ & _ & _ & H8 & _).
    rewrite H8. simpl. exact Hlog.
  - unfold bind at 1, now at 1. unfold bind at 1.
    match goal with
    | |- context [RunOrchestrator.sendRunSummary P ?c ?a ?b ?x ?s ?e0 ?w1] =>
        destruct (sendRunSummary_effect c a b x s e0 w1) as (w' & k' & zs & Hrun & _ & Hp)
    end.
    rewrite Hrun. unfold throw. simpl.
    destruct Hp as (_ & _ & _ & _ & _ & _ & _ & H8 & _).
    rewrite H8. simpl. exact Hlog.
Qed.

(** *** The requests of a run *)

Lemma forEach_todo_extends :
  forall (todos : list TodoItem) (index : nat) (message : jsstring),
  exists x, MessageFormatter.forEach_todo index todos message = message ++ x.
Proof.
  induction todos as [|todo rest IH]; intros index message; simpl.
  - exists []. now rewrite app_nil_r.
  - match goal with
    | |- context [MessageFormatter.forEach_todo (S index) rest (message ++ ?y)] =>
        destruct (IH (S index) (message ++ y)) as [x Hx]; rewrite Hx;
        exists (y ++ x); now rewrite <- app_assoc
    end.
Qed.

(** A formatted notification starts with the envelope icon. *)
Lemma formatTodosForLine_head (todos : list TodoItem) (sender title : jsstring) :
  MessageFormatter.formatTodosForLine todos sender title = []
  \/ startsWith (MessageFormatter.formatTodosForLine todos sender title)
       MessageFormatter.envelope_icon = true.
Proof.
  unfold MessageFormatter.formatTodosForLine.
  destruct todos as [|todo rest]; [left; reflexivity|right].
  change (length (todo :: rest) =? 0)%nat with false. cbv iota.
  assert (Hhead : exists x, MessageFormatter.render (todo :: rest) sender title
                            = MessageFormatter.envelope_icon ++ x).
  { unfold MessageFormatter.render.
    match goal with
    | |- context [MessageFormatter.forEach_todo 0 ?l ?m] =>
        destruct (forEach_todo_extends l 0 m) as [x Hx]; rewrite Hx
    end.
    rewrite <- !app_assoc. eexists. reflexivity. }
  destruct Hhead as [x Hx]. rewrite Hx.
  match goal with |- context [if ?b then _ else _] => destruct b end.
  - change (LINE_CONSTRAINTS.MAX_MESSAGE_LENGTH - 20)%nat with (S (S 4978)).
    unfold MessageFormatter.envelope_icon. simpl app at 1.
    reflexivity.
  - apply startsWith_app.
Qed.

Lemma notification_is_not_summary (r : LinePushRequest) :
  is_notification r -> ~ is_summary r.
Proof.
  unfold is_notification, is_summary, MessageFormatter.envelope_icon.
  destruct (text r) as [|c s]; [discriminate|].
  change (startsWith (c :: s) [55357%N; 56551%N])
    with (if (55357 =? c)%N then startsWith s [56551%N] else false).
  destruct (N.eqb_spec 55357 c) as [<-|]; [|discriminate].
  intros _ [H1|H1]; vm_compute in H1; discriminate H1.
Qed.

Lemma summary_text_head (timestamp : jsstring) (a b : nat) (x : jsstring)
    (s : RunStatus) (e : option jsstring) :
  exists rest,
    RunOrchestrator.summary_text timestamp a b x s e
    = (match s with
       | Completed => RunOrchestrator.check_mark
       | Failed => RunOrchestrator.cross_mark
       end ++ lit " Email Monitor Run Summary") ++ rest.
Proof.
  unfold RunOrchestrator.summary_text.
  destruct e as [[|c m]|]; eexists; rewrite <- ?app_assoc; reflexivity.
Qed.

Lemma summary_text_is_summary (timestamp : jsstring) (a b : nat) (x : jsstring)
    (s : RunStatus) (e : option jsstring) (token to0 : jsstring) :
  is_summary {| authorization := token; to := JStr to0;
                text := RunOrchestrator.summary_text timestamp a b x s e |}.
Proof.
  unfold is_summary. cbn [text].
  destruct (summary_text_head timestamp a b x s e) as [rest ->].
  destruct s; [left|right]; apply startsWith_app.
Qed.

(** The requests of one visit: none, or up to four copies of one
    notification. *)
Lemma processEmail_requests (email : EmailMessage) (config : AppConfig)
    (w w' : World) (r : Result nat) :
  RunOrchestrator.processEmail P email config w = (r, w') ->
  exists notes,
    line_requests w' = line_requests w ++ notes /\ Forall is_notification notes.
Proof.
  rewrite processEmail_eq. intros Hrun.
  destruct (extractTodos_world P (body_of email) (id email) (from email)
              (subject email) (add_log (event_of email) w)) as [n Hn].
  destruct (ticks_fields n
              (add_gemini_request
                 (GeminiService.buildExtractionPrompt (body_of email) (subject email))
                 (add_log (event_of email) w)))
    as (T1 & T2 & T3 & T4 & T5 & T6 & T7 & T8 & T9 & T10).
  destruct (GeminiService.extractTodos P (body_of email) (id email) (from email)
              (subject email) (add_log (event_of email) w)) as [[todos|e] w1];
    simpl in Hn; rewrite <- Hn in T6; simpl in T6; clear Hn T1 T2 T3 T4 T5 T7 T8 T9 T10.
  - pose proof (formatTodosForLine_head todos (from email) (subject email)) as Hhead.
    destruct (MessageFormatter.formatTodosForLine todos (from email) (subject email))
      as [|c m].
    + injection Hrun as _ <-. exists []. simpl. rewrite app_nil_r.
      split; [exact T6|constructor].
    + destruct Hhead as [Hhead|Hhead]; [discriminate|].
      destruct (LineService.pushMessage P (lineAccessToken config)
                  (lineGroupId config) (c :: m) w1) as [[response|e] w2] eqn:Hpush;
        apply pushMessage_frame in Hpush;
        destruct Hpush as (k & zs & _ & H1 & H2 & H3 & H4 & H5 & H6 & H7 & H8 & H9 & H10);
        injection Hrun as _ <-;
        eexists; (split; [simpl; rewrite H9, T6; reflexivity|]);
        apply List.Forall_forall; intros x Hx; apply repeat_spec in Hx; subst x;
        exact Hhead.
  - injection Hrun as _ <-. exists []. rewrite app_nil_r.
    split; [exact T6|constructor].
Qed.

Lemma loop_requests (config : AppConfig) (startTime : Z) :
  forall (emails : list EmailMessage) (total : nat) (w w' : World) (r : Result nat),
    RunOrchestrator.processFilteredEmails_from P emails config startTime total w
    = (r, w') ->
    exists notes,
      line_requests w' = line_requests w ++ notes /\ Forall is_notification notes.
Proof.
  induction emails as [|email rest IH]; intros total w w' r Hrun.
  - simpl in Hrun. unfold ret in Hrun. injection Hrun as _ <-.
    exists []. rewrite app_nil_r. split; [reflexivity|constructor].
  - simpl in Hrun. unfold bind at 1, now at 1 in Hrun.
    destruct (MAX_EXECUTION_TIME_MS <? clock w (clock_reads w) - startTime).
    + unfold ret in Hrun. injection Hrun as _ <-.
      exists []. rewrite app_nil_r. split; [reflexivity|constructor].
    + unfold bind at 1 in Hrun.
      destruct (RunOrchestrator.processEmail P email config (tick w))
        as [[n|e] w1] eqn:Hvisit;
        apply processEmail_requests in Hvisit;
        destruct Hvisit as (notes1 & Hreq1 & Hall1); simpl in Hreq1.
      * apply IH in Hrun. destruct Hrun as (notes2 & Hreq2 & Hall2).
        exists (notes1 ++ notes2).
        split; [rewrite Hreq2, Hreq1, <- app_assoc; reflexivity|].
        apply Forall_app. split; assumption.
      * injection Hrun as _ <-. exists notes1. split; assumption.
Qed.

(** X23: when the configuration loads and the mailbox search returns,
    the run, whether it returns or raises, sends its notifications and then
    exactly one summary: between one and four POSTs (more than one only
    when the transport raises) of one summary request to the configured
    group. *)
Lemma run_dispatches_one_summary (w : World) (config : AppConfig)
    (threads : list GmailThread) :
  ConfigService.getConfig w = (Ok config, w) ->
  mailbox w (EmailService.query P (lastProcessedTime config) (senderWhitelist config))
    0 (of_number (EmailService_new (maxEmailsPerRun config))) = Some threads ->
  exists notes summary k,
    line_requests (snd (RunOrchestrator.processEmails P w))
    = line_requests w ++ notes ++ repeat summary k
    /\ (1 <= k <= 4)%nat
    /\ Forall is_notification notes
    /\ is_summary summary
    /\ to summary = JStr (lineGroupId config).
Proof.
  intros Hconfig Hsearch. apply getConfig_tick in Hconfig.
  unfold RunOrchestrator.processEmails.
  unfold bind at 1, now at 1. unfold bind at 1. rewrite Hconfig.
  unfold bind at 1. unfold RunOrchestrator.fetchEmails.
  unfold bind at 1. rewrite fetchNewEmails_eq.
  change (mailbox (tick w)) with (mailbox w). rewrite Hsearch.
  unfold bind at 1, now at 1.
  assert (Hsum : forall a b x s e w0 notes,
            line_requests w0 = line_requests w ++ notes ->
            Forall is_notification notes ->
            exists notes0 summary k,
              line_requests
                (snd (RunOrchestrator.sendRunSummary P config a b x s e w0))
              = line_requests w ++ notes0 ++ repeat summary k
              /\ (1 <= k <= 4)%nat
              /\ Forall is_notification notes0
              /\ is_summary summary
              /\ to summary = JStr (lineGroupId config)).
  { intros a b x s e w0 notes Hreq Hall.
    destruct (sendRunSummary_effect config a b x s e w0)
      as (w' & k & zs & Hrun & Hk & Hp).
    rewrite Hrun. simpl.
    destruct Hp as (_ & _ & _ & _ & _ & _ & _ & _ & H9 & _).
    simpl in H9. rewrite Hreq in H9.
    eexists notes, _, k. split; [rewrite H9, <- app_assoc; reflexivity|].
    split; [exact Hk|]. split; [exact Hall|].
    split; [apply summary_text_is_summary|reflexivity]. }
  assert (Hquiet : forall w0,
            line_requests w0 = line_requests w ->
            exists notes0 summary k,
              line_requests
                (snd (try_catch
                        (processingEndTime <- now ;;
                         RunOrchestrator.sendRunSummary P config 0 0
                           (toFixed2 P (processingEndTime - clock w (clock_reads w)))
                           Completed None)
                        (fun e =>
                           now ;;
                           RunOrchestrator.sendRunSummary P config 0 0 (lit "0.00")
                             Failed (Some e) ;;
                           throw e) w0))
              = line_requests w ++ notes0 ++ repeat summary k
              /\ (1 <= k <= 4)%nat
              /\ Forall is_notification notes0
              /\ is_summary summary
              /\ to summary = JStr (lineGroupId config)).
  { intros w0 Hw0. unfold try_catch. unfold bind at 1, now at 1.
    match goal with
    | |- context [RunOrchestrator.sendRunSummary P ?c ?a ?b ?x ?s ?e ?w1] =>
        pose proof (Hsum a b x s e w1 [] ltac:(simpl; rewrite app_nil_r; exact Hw0)
                      ltac:(constructor)) as Hs;
        destruct (sendRunSummary_effect c a b x s e w1) as (w' & k & zs & Hrun & _ & _)
    end.
    rewrite Hrun in *. exact Hs. }
  destruct (MAX_EXECUTION_TIME_MS <?
            clock (tick w) (clock_reads (tick w)) - clock w (clock_reads w)).
  { unfold ret at 1. change (length (@nil EmailMessage) =? 0)%nat with true.
    cbv iota. apply Hquiet. reflexivity. }
  unfold ret at 1.
  destruct (new_messages (lastProcessedTime config) threads) as [|email rest].
  { change (length (@nil EmailMessage) =? 0)%nat with true. cbv iota.
    apply Hquiet. reflexivity. }
  change (length (email :: rest) =? 0)%nat with false. cbv iota.
  unfold try_catch. unfold bind at 1. unfold RunOrchestrator.processFilteredEmails.
  destruct (RunOrchestrator.processFilteredEmails_from P (email :: rest) config
              (clock w (clock_reads w)) 0 (tick (tick w))) as [[total|e] w3] eqn:Hloop;
    apply loop_requests in Hloop; destruct Hloop as (notes & Hreq & Hall);
    change (line_requests (tick (tick w))) with (line_requests w) in Hreq.
  - unfold bind at 1, now at 1.
    match goal with
    | |- context [RunOrchestrator.sendRunSummary P ?c ?a ?b ?x ?s ?e0 ?w1] =>
        pose proof (Hsum a b x s e0 w1 notes Hreq Hall) as Hs;
        destruct (sendRunSummary_effect c a b x s e0 w1) as (w' & k & zs & Hrun & _ & _)
    end.
    rewrite Hrun in *. exact Hs.
  - unfold bind at 1, now at 1. unfold bind at 1.
    match goal with
    | |- context [RunOrchestrator.sendRunSummary P ?c ?a ?b ?x ?s ?e0 ?w1] =>
        pose proof (Hsum a b x s e0 w1 notes Hreq Hall) as Hs;
        destruct (sendRunSummary_effect c a b x s e0 w1) as (w' & k & zs & Hrun & _ & _)
    end.
    rewrite Hrun in *. unfold throw. exact Hs.
Qed.

End Runs.

(** ** Claims about the Dispatcher *)

Section DispatcherClaims.
Variable P : Platform.

(** An HTTP response, whatever its status, ends the call at the first
    attempt: nothing is slept, nothing is retried. *)
Lemma pushMessage_response_not_retried (accessToken groupId txt : jsstring)
    (w : World) (s : Z) (b : jsstring) :
  line_endpoint w (length (line_requests w)) = Response s b ->
  LineService.pushMessage P accessToken groupId txt w
  = (Ok (LineService.handleLineResponse P s b),
     add_line_request {| authorization := accessToken; to := JStr groupId; text := txt |} w).
Proof.
  intros H. unfold LineService.pushMessage, LineService.withRetry. simpl.
  unfold try_catch. now rewrite sendToLineApi_eq, H.
Qed.

(** Transport failures are what the loop retries: three of them followed
    by a 200 give a success after four POSTs and sleeps of 1, 2 and 4
    seconds. *)
Lemma pushMessage_retries_transport_failures (accessToken groupId txt : jsstring)
    (w : World) (b : jsstring) :
  (forall j, (j < 3)%nat ->
     exists e, line_endpoint w (length (line_requests w) + j) = FetchFails e) ->
  line_endpoint w (length (line_requests w) + 3) = Response 200 b ->
  exists w',
    LineService.pushMessage P accessToken groupId txt w
    = (Ok {| status := 200; body := b; error := None |}, w')
    /\ line_requests w' =
       line_requests w
       ++ repeat {| authorization := accessToken; to := JStr groupId; text := txt |} 4
    /\ sleeps w' = sleeps w ++ [1000; 2000; 4000].
Proof.
  intros Hfail Hok.
  destruct (withRetry_from_response P accessToken groupId txt 3 200 b 3 0 4 None w
              ltac:(lia) Hfail Hok) as (w' & Hrun & Hp).
  exists w'. split; [exact Hrun|]. split; apply Hp.
Qed.

Lemma handleLineResponse_status (s : Z) (b : jsstring) :
  status (LineService.handleLineResponse P s b) = s.
Proof.
  unfold LineService.handleLineResponse, LineService.buildErrorResponse.
  destruct (s =? 200); reflexivity.
Qed.

Lemma loop_step (email : EmailMessage) (rest : list EmailMessage)
    (config : AppConfig) (startTime : Z) (total : nat) (w : World) :
  (MAX_EXECUTION_TIME_MS <? clock w (clock_reads w) - startTime) = false ->
  RunOrchestrator.processFilteredEmails_from P (email :: rest) config startTime total w
  = match RunOrchestrator.processEmail P email config (tick w) with
    | (Ok n, w1) =>
        RunOrchestrator.processFilteredEmails_from P rest config startTime
          (total + n) w1
    | (Throw e, w1) => (Throw e, w1)
    end.
Proof.
  intros Hd. simpl. unfold bind at 1, now at 1. rewrite Hd.
  unfold bind at 1. reflexivity.
Qed.





End DispatcherClaims.

(** C1 (the code at the failing input): the push endpoint answers 429,
    429, 429 and would answer 200 to a fourth POST.  The call returns the
    first 429 as its outcome after a single POST and without any sleep:
    the status is not retried. *)
Theorem rate_limited_push_returns_after_one_attempt :
  let w := Scenario.w_rate_limited in
  let r := LineService.pushMessage Scenario.P0 Scenario.token Scenario.group
             (lit "hello") w in
  line_endpoint w 0 = Response 429 []
  /\ line_endpoint w 1 = Response 429 []
  /\ line_endpoint w 2 = Response 429 []
  /\ line_endpoint w 3 = Response 200 (lit "{}")
  /\ fst r = Ok {| status := 429; body := [];
                   error := Some {| message := JStr (lit "Unknown error");
                                    details := JUndef |} |}
  /\ length (line_requests (snd r)) = 1%nat
  /\ sleeps (snd r) = [].
Proof. vm_compute. repeat split. Qed.



(** ** Claims about the Extractor *)

Section ExtractorClaims.
Variable P : Platform.
Variables emailBody emailId senderEmail emailSubject : jsstring.

Let prompt : jsstring := GeminiService.buildExtractionPrompt emailBody emailSubject.


Lemma callGeminiAPI_eq (w : World) :
  GeminiService.callGeminiAPI P prompt w =
  match gemini_endpoint w (length (gemini_requests w)) with
  | FetchFails e => (Throw e, add_gemini_request prompt w)
  | Response s b =>
      if negb (s =? 200)
      then (Throw (lit "Gemini API error: " ++ Number_toString s),
            add_gemini_request prompt w)
      else
        match JSON_parse P b with
        | None => (Throw (lit "SyntaxError: Unexpected token in JSON"),
                   add_gemini_request prompt w)
        | Some data =>
            match Val.get (lit "candidates") data with
            | None => (Throw (lit "TypeError: Cannot read properties of null"),
                       add_gemini_request prompt w)
            | Some _ =>
                (Ok (if Val.truthy (candidate_text data) then candidate_text data
                     else JStr (lit "[]")),
                 add_gemini_request prompt w)
            end
        end
  end.
Proof.
  unfold GeminiService.callGeminiAPI, bind, fetch_gemini, throw, ret.
  destruct (gemini_endpoint w (length (gemini_requests w))) as [s b|e];
    [|reflexivity].
  simpl. destruct (negb (s =? 200)); [reflexivity|].
  destruct (JSON_parse P b) as [data|]; [|reflexivity].
  destruct (Val.get (lit "candidates") data) as [candidates|] eqn:Hc;
    [|reflexivity].
  assert (Hopt : Val.get_opt (lit "candidates") data = candidates)
    by (unfold Val.get_opt; now rewrite Hc).
  unfold candidate_text. rewrite Hopt.
  match goal with |- context [Val.truthy ?x] => destruct (Val.truthy x) end;
    reflexivity.
Qed.

(** C3 (amended): the extraction terminates on every input.  The parser
    of the model's answer never raises, and gives the empty list for a
    text that is not JSON, for JSON that is not an array, and for the
    empty string.  The extraction as a whole returns whenever the
    endpoint answers 200 with a JSON body that is not [null], with the
    empty list when the body carries no candidate text; it raises when
    the transport raises, when the status is not 200, and when the body
    is not JSON. *)
Theorem extract_returns_or_raises (w : World) :
  (forall response,
      exists items n,
        GeminiService.parseTodosFromResponse P response emailId senderEmail
          emailSubject w = (Ok items, ticks n w))
  /\ (forall s,
        JSON_parse P (GeminiService.strip_code_fence s) = None ->
        GeminiService.parseTodosFromResponse P (JStr s) emailId senderEmail
          emailSubject w = (Ok [], w))
  /\ (forall s v,
        JSON_parse P (GeminiService.strip_code_fence s) = Some v ->
        Val.isArray v = false ->
        GeminiService.parseTodosFromResponse P (JStr s) emailId senderEmail
          emailSubject w = (Ok [], w))
  /\ (JSON_parse P [] = None ->
      GeminiService.parseTodosFromResponse P (JStr []) emailId senderEmail
        emailSubject w = (Ok [], w))
  /\ (forall b data,
        gemini_endpoint w (length (gemini_requests w)) = Response 200 b ->
        JSON_parse P b = Some data ->
        Val.nullish data = false ->
        exists items n,
          GeminiService.extractTodos P emailBody emailId senderEmail emailSubject w
          = (Ok items, ticks n (add_gemini_request prompt w)))
  /\ (forall b data,
        gemini_endpoint w (length (gemini_requests w)) = Response 200 b ->
        JSON_parse P b = Some data ->
        Val.nullish data = false ->
        Val.truthy (candidate_text data) = false ->
        JSON_parse P (lit "[]") = Some (JArr []) ->
        GeminiService.extractTodos P emailBody emailId senderEmail emailSubject w
        = (Ok [], add_gemini_request prompt w))
  /\ (forall e,
        gemini_endpoint w (length (gemini_requests w)) = FetchFails e ->
        GeminiService.extractTodos P emailBody emailId senderEmail emailSubject w
        = (Throw e, add_gemini_request prompt w))
  /\ (forall s b,
        gemini_endpoint w (length (gemini_requests w)) = Response s b ->
        s <> 200 ->
        GeminiService.extractTodos P emailBody emailId senderEmail emailSubject w
        = (Throw (lit "Gemini API error: " ++ Number_toString s),
           add_gemini_request prompt w))
  /\ (forall b,
        gemini_endpoint w (length (gemini_requests w)) = Response 200 b ->
        JSON_parse P b = None ->
        exists e,
          GeminiService.extractTodos P emailBody emailId senderEmail emailSubject w
          = (Throw e, add_gemini_request prompt w)).
Proof.
  assert (Hnonarray : forall s,
            match JSON_parse P (GeminiService.strip_code_fence s) with
            | Some (JArr _) => False
            | _ => True
            end ->
            GeminiService.parseTodosFromResponse P (JStr s) emailId senderEmail
              emailSubject w = (Ok [], w)).
  { intros s Hs. unfold GeminiService.parseTodosFromResponse, try_catch.
    destruct (JSON_parse P (GeminiService.strip_code_fence s)) as [[| | | | | |l|]|];
      try reflexivity. contradiction. }
  split; [|split; [|split; [|split; [|split; [|split; [|split; [|split]]]]]]].
  - intros response. apply parseTodosFromResponse_returns.
  - intros s Hs. apply Hnonarray. now rewrite Hs.
  - intros s v Hs Hv. apply Hnonarray. rewrite Hs. destruct v; try exact I.
    discriminate.
  - intros Hempty. apply Hnonarray. change (GeminiService.strip_code_fence []) with (@nil N).
    now rewrite Hempty.
  - intros b data Hresp Hparse Hnull.
    unfold GeminiService.extractTodos, bind. fold prompt.
    rewrite callGeminiAPI_eq, Hresp. simpl. rewrite Hparse.
    destruct data as [| |x|x|x|x|x|x]; simpl; try discriminate;
      apply parseTodosFromResponse_returns.
  - intros b data Hresp Hparse Hnull Hfalsy Hbrackets.
    unfold GeminiService.extractTodos, bind. fold prompt.
    rewrite callGeminiAPI_eq, Hresp. simpl. rewrite Hparse, Hfalsy.
    destruct data as [| |x|x|x|x|x|x]; simpl; try discriminate;
      unfold GeminiService.parseTodosFromResponse, try_catch;
      change (GeminiService.strip_code_fence (lit "[]")) with (lit "[]");
      rewrite Hbrackets; reflexivity.
  - intros e Hresp.
    unfold GeminiService.extractTodos, bind. fold prompt.
    now rewrite callGeminiAPI_eq, Hresp.
  - intros s b Hresp Hs.
    unfold GeminiService.extractTodos, bind. fold prompt.
    rewrite callGeminiAPI_eq, Hresp.
    assert (Hneq : (s =? 200) = false) by lia. now rewrite Hneq.
  - intros b Hresp Hparse.
    unfold GeminiService.extractTodos, bind. fold prompt.
    rewrite callGeminiAPI_eq, Hresp. simpl. rewrite Hparse.
    eexists; reflexivity.
Qed.

(** *** The pattern extractor, for comparison *)

Lemma trimStart_snoc (h : N) :
  is_space h = false ->
  forall a, exists a', trimStart (a ++ [h]) = a' ++ [h].
Proof.
  intros Hh. induction a as [|c a IH]; simpl.
  - rewrite Hh. exists []. reflexivity.
  - destruct (is_space c); [exact IH|]. exists (c :: a). reflexivity.
Qed.

(** A trimmed string is empty or starts with a code unit that is not
    white space. *)
Lemma trim_head (s : jsstring) :
  match trim s with
  | [] => True
  | c :: _ => is_space c = false
  end.
Proof.
  unfold trim, trimEnd.
  assert (Hstart : match trimStart s with
                   | [] => True
                   | c :: _ => is_space c = false
                   end).
  { induction s as [|c s IH]; simpl; [exact I|].
    destruct (is_space c) eqn:Hc; [exact IH|exact Hc]. }
  destruct (trimStart s) as [|h t]; [exact I|].
  simpl rev.
  destruct (trimStart_snoc h Hstart (rev t)) as [a' Ha]. rewrite Ha.
  rewrite rev_app_distr. simpl. exact Hstart.
Qed.

Lemma while_exec_described (pattern : MatchedPattern) (i s j : jsstring) :
  forall (matches : list RegExpMatch) (todos items : list TodoItem) (w w' : World),
    Forall described todos ->
    EmailParser.while_exec matches pattern i s j todos w = (Ok items, w') ->
    Forall described items.
Proof.
  induction matches as [|m rest IH]; intros todos items w w' Hall.
  - simpl. unfold ret. intros [= <- _]. exact Hall.
  - simpl.
    pose proof (trim_head (match group1 m with
                           | Some (c :: g) => c :: g
                           | _ => match group2 m with Some g => g | None => [] end
                           end)) as Hhead.
    destruct (EmailParser.match_description m) as [[|c d]|] eqn:Hd;
      try (apply IH; exact Hall).
    destruct (EmailParser.isDuplicate todos (c :: d)); [apply IH; exact Hall|].
    unfold bind at 1, now at 1. apply IH.
    apply Forall_app. split; [exact Hall|].
    constructor; [|constructor]. exists c, d. simpl. split; [reflexivity|].
    unfold EmailParser.match_description in Hd.
    destruct (group1 m) as [[|x g]|]; simpl in Hd.
    + destruct (group2 m) as [g|]; simpl in Hd; [|discriminate].
      injection Hd as Hd. rewrite Hd in Hhead. exact Hhead.
    + injection Hd as Hd. rewrite Hd in Hhead. exact Hhead.
    + destruct (group2 m) as [g|]; simpl in Hd; [|discriminate].
      injection Hd as Hd. rewrite Hd in Hhead. exact Hhead.
Qed.

(** Every item of the pattern extractor has a trimmed, non-empty
    description: the check that the AI extractor lacks. *)
Lemma pattern_extractor_descriptions (html i s j : jsstring)
    (w w' : World) (items : list TodoItem) :
  EmailParser.extractTodos P html i s j w = (Ok items, w') ->
  Forall described items.
Proof.
  unfold EmailParser.extractTodos.
  generalize (EmailParser.stripHtml html) as plainText.
  intros plainText.
  assert (Hgen : forall ps todos w0 w1 items0,
            Forall described todos ->
            EmailParser.for_patterns P ps plainText i s j todos w0 = (Ok items0, w1) ->
            Forall described items0).
  { induction ps as [|pattern rest IH]; intros todos w0 w1 items0 Hall.
    - simpl. unfold ret. intros [= <- _]. exact Hall.
    - simpl. unfold bind at 1.
      destruct (EmailParser.while_exec (exec_all P pattern plainText) pattern
                  i s j todos w0) as [[todos'|e] w2] eqn:Hloop; [|discriminate].
      apply while_exec_described in Hloop; [|exact Hall].
      apply IH. exact Hloop. }
  apply Hgen. constructor.
Qed.

End ExtractorClaims.

(** C3, as stated, fails: when the generative endpoint answers with
    status 500, the extraction raises instead of returning the empty
    list, and the run that contains it raises too. *)
Lemma extract_raises_on_http_500 :
  let w := Scenario.w_gemini_500 in
  gemini_endpoint w 0 = Response 500 (lit "Internal error")
  /\ fst (GeminiService.extractTodos Scenario.P0 (lit "body") (lit "m1")
            (lit "a@x.com") (lit "subject") w)
     = Throw (lit "Gemini API error: 500")
  /\ fst (RunOrchestrator.processEmails Scenario.P0 w)
     = Throw (lit "Gemini API error: 500").
Proof. vm_compute. repeat split. Qed.

Lemma extract_returns_or_raises_witness :
  GeminiService.parseTodosFromResponse Scenario.P0 (JStr (lit "not json")) (lit "m1")
    (lit "a@x.com") (lit "subject") Scenario.w_gemini_500
  = (Ok [], Scenario.w_gemini_500).
Proof.
  apply (proj1 (proj2 (extract_returns_or_raises Scenario.P0 (lit "body") (lit "m1")
                         (lit "a@x.com") (lit "subject") Scenario.w_gemini_500))).
  vm_compute. reflexivity.
Defined.

(** ** Claims about the orchestrator *)

Section OrchestratorClaims.
Variable P : Platform.

(** In every branch in which a visit returns (the extraction yields no
    items, the formatted message is empty, the dispatch returns an
    outcome with status 200 or with any other status), the stored
    watermark is overwritten with that message's received time before the
    loop turns to the next message; a fetch from that watermark returns
    only messages received strictly after it. *)
Lemma visit_overwrites_watermark (email : EmailMessage) (config : AppConfig)
    (w : World) :
  (forall n w',
      RunOrchestrator.processEmail P email config w = (Ok n, w') ->
      stored_watermark w' = Some (receivedDate email))
  /\ (forall todos w1,
        GeminiService.extractTodos P (body_of email) (id email) (from email)
          (subject email) (add_log (event_of email) w) = (Ok todos, w1) ->
        (todos = [] ->
           RunOrchestrator.processEmail P email config w
           = (Ok 0%nat, advance (receivedDate email) w1))
        /\ (MessageFormatter.formatTodosForLine todos (from email) (subject email) = [] ->
            RunOrchestrator.processEmail P email config w
            = (Ok 0%nat, advance (receivedDate email) w1))
        /\ (forall c m response w2,
              MessageFormatter.formatTodosForLine todos (from email) (subject email)
              = c :: m ->
              LineService.pushMessage P (lineAccessToken config) (lineGroupId config)
                (c :: m) w1 = (Ok response, w2) ->
              RunOrchestrator.processEmail P email config w
              = (Ok (length todos), advance (receivedDate email) w2)))
  /\ (forall rest startTime total n w',
        (MAX_EXECUTION_TIME_MS <? clock w (clock_reads w) - startTime) = false ->
        RunOrchestrator.processEmail P email config (tick w) = (Ok n, w') ->
        stored_watermark w' = Some (receivedDate email)
        /\ RunOrchestrator.processFilteredEmails_from P (email :: rest) config
             startTime total w
           = RunOrchestrator.processFilteredEmails_from P rest config startTime
               (total + n) w')
  /\ (forall cap whitelist w2 fetched w2',
        EmailService.fetchNewEmails P cap (receivedDate email) whitelist w2
        = (Ok fetched, w2') ->
        Forall (fun m => receivedDate email < receivedDate m) fetched).
Proof.
  assert (Hret : forall w0 n w',
            RunOrchestrator.processEmail P email config w0 = (Ok n, w') ->
            stored_watermark w' = Some (receivedDate email)).
  { intros w0 n w'. rewrite processEmail_eq.
    destruct (GeminiService.extractTodos P (body_of email) (id email) (from email)
                (subject email) (add_log (event_of email) w0)) as [[todos|e] w1];
      [|discriminate].
    destruct (MessageFormatter.formatTodosForLine todos (from email) (subject email))
      as [|c m].
    - intros [= <- <-]. apply stored_watermark_advance.
    - destruct (LineService.pushMessage P (lineAccessToken config)
                  (lineGroupId config) (c :: m) w1) as [[response|e] w2];
        [|discriminate].
      intros [= <- <-]. apply stored_watermark_advance. }
  split; [exact (Hret w)|]. split; [|split].
  - intros todos w1 Hextract. split; [|split].
    + intros ->. now rewrite processEmail_eq, Hextract.
    + intros Hformat. now rewrite processEmail_eq, Hextract, Hformat.
    + intros c m response w2 Hformat Hpush.
      now rewrite processEmail_eq, Hextract, Hformat, Hpush.
  - intros rest startTime total n w' Hd Hvisit. split; [exact (Hret _ _ _ Hvisit)|].
    now rewrite (loop_step P _ _ _ _ _ _ Hd), Hvisit.
  - intros cap whitelist w2 fetched w2'. rewrite fetchNewEmails_eq.
    destruct (mailbox w2 (EmailService.query P (receivedDate email) whitelist) 0 (of_number cap));
      [|discriminate].
    intros [= <- _]. apply new_messages_newer.
Qed.

(** The messages a run visits are a prefix of the messages, newer than
    the watermark, of the threads that the mailbox search returned,
    thread by thread and message by message in the order of the search
    result. *)
Lemma run_visits_new_messages_in_mailbox_order (w : World) :
  let visited := log (snd (RunOrchestrator.processEmails P w)) in
  visited = log w
  \/ exists config threads k,
       ConfigService.getConfig w = (Ok config, w)
       /\ mailbox w
            (lit "(" ++ Js.join (lit " OR ")
                          (map (fun sender => lit "from:" ++ sender)
                             (senderWhitelist config))
               ++ lit ") after:" ++ formatDate P (lastProcessedTime config)
               ++ lit " in:inbox")
            0 (of_number (EmailService_new (maxEmailsPerRun config))) = Some threads
       /\ (k <= length (new_messages (lastProcessedTime config) threads))%nat
       /\ visited
          = log w ++ map event_of
                       (firstn k (new_messages (lastProcessedTime config) threads))
       /\ Forall (fun email => lastProcessedTime config < receivedDate email)
            (new_messages (lastProcessedTime config) threads).
Proof.
  intros visited. subst visited.
  destruct (processEmails_visits P w) as [H|(config & threads & k & H1 & H2 & H3 & H4)].
  - left. exact H.
  - right. exists config, threads, k.
    split; [exact H1|]. split; [exact H2|]. split; [exact H3|].
    split; [exact H4|apply new_messages_newer].
Qed.

End OrchestratorClaims.

(** C4 (the code at the failing input): the mailbox lists the newer
    thread first.  The first run visits the message received at 3000,
    then the one received at 2000, each through the no-items branch; each
    visit overwrites the watermark, which is left at 2000, below the
    message visited first.  The next run, on the same mailbox, fetches
    and visits the message received at 3000 again. *)
Theorem visited_message_is_reprocessed :
  let t1 := Scenario.thread "t1" [Scenario.message "m1" "a@x.com" 3000] in
  let t2 := Scenario.thread "t2" [Scenario.message "m2" "a@x.com" 2000] in
  let run1 := RunOrchestrator.processEmails Scenario.P0 Scenario.w_newest_first in
  let run2 := RunOrchestrator.processEmails Scenario.P0
                (Scenario.next_run 9000 (snd run1)) in
  fst run1 = Ok tt
  /\ log (snd run1) = map event_of (Scenario.email_of t1 0 ++ Scenario.email_of t2 0)
  /\ stored_watermark (snd run1) = Some 2000
  /\ fst run2 = Ok tt
  /\ log (snd run2) = map event_of (Scenario.email_of t1 0).
Proof. vm_compute. repeat split. Qed.

(** C6 (the code at the failing inputs): with [maxEmailsPerRun] = 1 and
    one thread of two new messages, two messages are visited.  With the
    newer thread listed first, the message received at 3000 is visited
    before the one received at 2000.  With a thread in which [b@x.com],
    who is not in the whitelist, answered, the answer is visited too. *)
Theorem visits_exceed_cap_unordered_unfiltered :
  let capped := RunOrchestrator.processEmails Scenario.P0 Scenario.w_capped in
  let unordered := RunOrchestrator.processEmails Scenario.P0 Scenario.w_newest_first in
  let unfiltered := RunOrchestrator.processEmails Scenario.P0 Scenario.w_reply in
  (fst (ConfigService.getConfig Scenario.w_capped) = Ok (Scenario.config 1000 1)
   /\ log (snd capped)
      = map event_of
          (new_messages 1000
             [Scenario.thread "t1" [Scenario.message "m1" "a@x.com" 2000;
                                    Scenario.message "m2" "a@x.com" 3000]])
   /\ length (log (snd capped)) = 2%nat)
  /\ (log (snd unordered)
      = map event_of
          (new_messages 1000
             [Scenario.thread "t1" [Scenario.message "m1" "a@x.com" 3000];
              Scenario.thread "t2" [Scenario.message "m2" "a@x.com" 2000]])
      /\ map receivedDate
           (new_messages 1000
              [Scenario.thread "t1" [Scenario.message "m1" "a@x.com" 3000];
               Scenario.thread "t2" [Scenario.message "m2" "a@x.com" 2000]])
         = [3000; 2000])
  /\ (fst (ConfigService.getConfig Scenario.w_reply) = Ok (Scenario.config 1000 100)
      /\ log (snd unfiltered)
         = [Processing_email (lit "a@x.com") (lit "subject") (lit "m1");
            Processing_email (lit "b@x.com") (lit "subject") (lit "m2")]).
Proof. vm_compute. repeat split. Qed.

(** C8 (the code at the failing input): the configuration loads and the
    mailbox search raises.  The run raises that error and no request at
    all is sent to the chat endpoint: no summary is dispatched. *)
Theorem mailbox_failure_sends_no_summary :
  let w := Scenario.w_mailbox_down in
  let run := RunOrchestrator.processEmails Scenario.P0 w in
  fst (ConfigService.getConfig w) = Ok (Scenario.config 1000 100)
  /\ mailbox w (EmailService.query Scenario.P0 1000 [lit "a@x.com"]) 0 (JNum 100) = None
  /\ fst run = Throw (lit "Gmail service error")
  /\ line_requests (snd run) = [].
Proof. vm_compute. repeat split. Qed.

(** C9 (the code at the failing input): the generative endpoint answers
    200 with the candidate text [[{"description": ""}]].  The extraction
    returns one item, and its description is the empty string. *)
Theorem ai_extractor_returns_empty_description :
  let w := Scenario.w_empty_description in
  let r := GeminiService.extractTodos Scenario.P0 (lit "body") (lit "m1")
             (lit "a@x.com") (lit "subject") w in
  gemini_endpoint w 0 = Response 200 (Scenario.gemini_body Scenario.empty_description)
  /\ Scenario.empty_description
     = [91; 123; 34; 100; 101; 115; 99; 114; 105; 112; 116; 105; 111; 110; 34;
        58; 32; 34; 34; 125; 93]%N
  /\ map description
       (match fst r with Ok items => items | Throw _ => [] end)
     = [JStr []]
  /\ length (match fst r with Ok items => items | Throw _ => [] end) = 1%nat.
Proof. vm_compute. repeat split. Qed.

(** ** The bundled entry point (src/main.ts) *)

Section Bundle.
Variable P : Platform.

(** The pattern extractor only reads the clock, and always returns. *)
Lemma while_exec_returns (pattern : MatchedPattern) (i s j : jsstring) :
  forall (matches : list RegExpMatch) (todos : list TodoItem) (w : World),
  exists items n,
    EmailParser.while_exec matches pattern i s j todos w = (Ok items, ticks n w).
Proof.
  induction matches as [|m rest IH]; intros todos w.
  - exists todos, 0%nat. reflexivity.
  - simpl. destruct (EmailParser.match_description m) as [[|c d]|]; try apply IH.
    destruct (EmailParser.isDuplicate todos (c :: d)); [apply IH|].
    unfold bind at 1, now at 1.
    match goal with
    | |- context [EmailParser.while_exec rest pattern i s j ?acc (tick w)] =>
        destruct (IH acc (tick w)) as (items & n & Hrun)
    end.
    exists items, (S n). rewrite Hrun. now rewrite ticks_S.
Qed.

Lemma for_patterns_returns (plainText i s j : jsstring) :
  forall (ps : list MatchedPattern) (todos : list TodoItem) (w : World),
  exists items n,
    EmailParser.for_patterns P ps plainText i s j todos w = (Ok items, ticks n w).
Proof.
  induction ps as [|pattern rest IH]; intros todos w.
  - exists todos, 0%nat. reflexivity.
  - simpl. unfold bind at 1.
    destruct (while_exec_returns pattern i s j
                (exec_all P pattern plainText) todos w) as (items1 & n1 & H1).
    rewrite H1.
    destruct (IH items1 (ticks n1 w)) as (items & n & Hrun).
    exists items, (n + n1)%nat. rewrite Hrun. unfold ticks.
    now rewrite Nat.iter_add.
Qed.

Lemma EmailParser_extractTodos_returns (emailBody i s j : jsstring) (w : World) :
  exists items n,
    EmailParser.extractTodos P emailBody i s j w = (Ok items, ticks n w).
Proof. apply for_patterns_returns. Qed.

Lemma untouched_trans (w1 w2 w3 : World) :
  untouched w1 w2 -> untouched w2 w3 -> untouched w1 w3.
Proof.
  intros (A1 & A2 & A3 & A4) (B1 & B2 & B3 & B4).
  repeat split; try congruence. lia.
Qed.

Lemma Main_processEmail_effect (email : EmailMessage) (config : jsval)
    (w w' : World) (r : Result nat) :
  Main.processEmail P email config w = (r, w') ->
  log w' = log w ++ [event_of email] /\ untouched w w'.
Proof.
  unfold Main.processEmail, bind at 1, logger_info. fold (event_of email).
  unfold bind at 1.
  destruct (EmailParser_extractTodos_returns (body_of email) (id email)
              (from email) (subject email) (add_log (event_of email) w))
    as (todos & n & Hextract).
  rewrite Hextract.
  destruct (ticks_fields n (add_log (event_of email) w))
    as (T1 & T2 & T3 & T4 & T5 & T6 & T7 & T8 & T9 & T10).
  simpl in T1, T2, T3, T4, T10.
  destruct todos as [|todo todos].
  - simpl. unfold ret. intros [= <- <-].
    split; [exact T10|]. repeat split; try assumption. lia.
  - change (length (todo :: todos) =? 0)%nat with false. cbv iota.
    destruct (MessageFormatter.formatTodosForLine (todo :: todos) (from email)
                (subject email)) as [|c m].
    + unfold ret. intros [= <- <-].
      split; [exact T10|]. repeat split; try assumption. lia.
    + unfold bind at 1.
      destruct (LineService.pushMessage_untyped P
                  (Val.get_opt (lit "lineAccessToken") config)
                  (Val.get_opt (lit "lineGroupId") config) (c :: m)
                  (ticks n (add_log (event_of email) w))) as [[response|e] w2] eqn:Hpush;
        apply pushMessage_untyped_frame in Hpush;
        destruct Hpush as (k & zs & _ & H1 & H2 & H3 & H4 & H5 & H6 & H7 & H8 & H9 & H10);
        unfold ret; intros [= <- <-];
        (split; [congruence|]); repeat split; try congruence; lia.
Qed.

Lemma Main_loop_effect (config : jsval) (startTime : Z) :
  forall (emails : list EmailMessage) (total : nat) (w w' : World) (r : Result nat),
    Main.processFilteredEmails_from P emails config startTime total w = (r, w') ->
    exists k,
      (k <= length emails)%nat
      /\ log w' = log w ++ map event_of (firstn k emails)
      /\ untouched w w'.
Proof.
  induction emails as [|email rest IH]; intros total w w' r Hrun.
  - simpl in Hrun. unfold ret in Hrun. injection Hrun as <- <-.
    exists 0%nat. simpl. rewrite app_nil_r.
    split; [lia|]. split; [reflexivity|]. repeat split. lia.
  - simpl in Hrun. unfold bind at 1, now at 1 in Hrun.
    destruct (MAX_EXECUTION_TIME_MS <? clock w (clock_reads w) - startTime).
    + unfold ret in Hrun. injection Hrun as <- <-.
      exists 0%nat. simpl. rewrite app_nil_r.
      split; [lia|]. split; [reflexivity|]. repeat split. simpl. lia.
    + unfold bind at 1 in Hrun.
      destruct (Main.processEmail P email config (tick w)) as [[n|e] w1] eqn:Hvisit;
        apply Main_processEmail_effect in Hvisit;
        destruct Hvisit as (Hlog & Hu);
        assert (Hu' : untouched w w1)
          by (destruct Hu as (U1 & U2 & U3 & U4); simpl in *;
              repeat split; try assumption; lia);
        simpl in Hlog.
      * apply IH in Hrun. destruct Hrun as (k & Hk & Hlog' & Hu2).
        exists (S k). simpl. split; [lia|].
        split; [rewrite Hlog', Hlog, <- app_assoc; reflexivity|].
        apply (untouched_trans w w1 w'); assumption.
      * injection Hrun as <- <-. exists 1%nat. simpl.
        split; [lia|]. split; [exact Hlog|exact Hu'].
Qed.

(** *** The JSON configuration store *)

Lemma getConfig_eq_json (w : World) :
  JsonConfigService.getConfig P w = (read_config P (properties w), w).
Proof.
  unfold JsonConfigService.getConfig, read_config, bind, getProperty,
    JsonConfigService.CONFIG_KEY, throw, ret.
  destruct (properties w !! "config") as [[|c s]|]; try reflexivity.
  destruct (JSON_parse P (c :: s)) as [config|]; [|reflexivity].
  destruct (negb (JsonConfigService.isAppConfig config)); reflexivity.
Qed.

Lemma isAppConfig_object (config : jsval) :
  JsonConfigService.isAppConfig config = true ->
  exists fields senders,
    config = JObj fields /\ Val.assoc (lit "senderWhitelist") fields = JArr senders.
Proof.
  destruct config as [| | | | | | |fields]; try discriminate.
  unfold JsonConfigService.isAppConfig. intros H.
  apply andb_prop in H. destruct H as [_ H].
  destruct (Val.assoc (lit "senderWhitelist") fields) as [| | | | | |senders|] eqn:E;
    try discriminate.
  exists fields, senders. split; [reflexivity|exact E].
Qed.

Lemma read_config_object (p : gmap string jsstring) (config : jsval) :
  read_config P p = Ok config ->
  JsonConfigService.isAppConfig config = true
  /\ exists fields, config = JObj fields.
Proof.
  unfold read_config.
  destruct (p !! "config") as [[|c s]|]; try discriminate.
  destruct (JSON_parse P (c :: s)) as [v|]; [|discriminate].
  destruct (JsonConfigService.isAppConfig v) eqn:Hv; simpl; [|discriminate].
  intros [= <-]. split; [exact Hv|].
  destruct (isAppConfig_object v Hv) as (fields & _ & -> & _). eexists; reflexivity.
Qed.

(** The validation has no effect, and accepts only what passes the
    guard. *)
Lemma validateConfig_pure (config : jsval) (w : World) :
  JsonConfigService.validateConfig P config w
  = (fst (JsonConfigService.validateConfig P config w), w)
  /\ (fst (JsonConfigService.validateConfig P config w)
      = Ok JsonConfigService.success ->
      JsonConfigService.isAppConfig config = true).
Proof.
  unfold JsonConfigService.validateConfig, ret, throw.
  destruct (JsonConfigService.isAppConfig config); simpl;
    [|split; [reflexivity|discriminate]].
  repeat match goal with
         | |- context [if ?b then _ else _] => destruct b
         | |- context [match ?x with _ => _ end] => destruct x
         end; split; reflexivity.
Qed.

Lemma validateConfig_world (config : jsval) (w : World) :
  snd (JsonConfigService.validateConfig P config w) = w.
Proof. now rewrite (proj1 (validateConfig_pure config w)). Qed.

Lemma setConfig_effect (config : jsval) (w w' : World) (r : Result unit) :
  JsonConfigService.setConfig P config w = (r, w') ->
  match r with
  | Ok _ =>
      JsonConfigService.isAppConfig config = true /\ w' = write_config P config w
  | Throw _ => w' = w
  end.
Proof.
  unfold JsonConfigService.setConfig, bind.
  destruct (validateConfig_pure config w) as [Hpure Hguard]. rewrite Hpure.
  destruct (fst (JsonConfigService.validateConfig P config w))
    as [[|reason]|e].
  - unfold setProperty, JsonConfigService.CONFIG_KEY. intros [= <- <-].
    split; [exact (Hguard eq_refl)|reflexivity].
  - unfold throw. intros [= <- <-]. reflexivity.
  - intros [= <- <-]. reflexivity.
Qed.

(** Writing the watermark: either the object is read, updated, validated
    and stored, or an error is raised and nothing is written. *)
Lemma updateLastProcessedTime_effect (t : Z) (w w' : World) (r : Result unit) :
  JsonConfigService.updateLastProcessedTime P t w = (r, w') ->
  match r with
  | Ok _ =>
      exists fields,
        read_config P (properties w) = Ok (JObj fields)
        /\ JsonConfigService.isAppConfig (with_watermark t fields) = true
        /\ w' = write_config P (with_watermark t fields) w
  | Throw _ => w' = w
  end.
Proof.
  unfold JsonConfigService.updateLastProcessedTime, bind at 1.
  rewrite getConfig_eq_json.
  destruct (read_config P (properties w)) as [config|e] eqn:Hread;
    [|intros [= <- <-]; reflexivity].
  destruct (read_config_object _ _ Hread) as (_ & fields & ->).
  fold (with_watermark t fields). intros Hset. apply setConfig_effect in Hset.
  destruct r as [[]|e]; [|exact Hset].
  destruct Hset as [Hguard ->]. exists fields. repeat split; assumption.
Qed.

Lemma assoc_set_field (k : jsstring) (v : jsval) :
  forall fields, Val.assoc k (JsonConfigService.set_field k v fields) = v.
Proof.
  induction fields as [|[k' v'] r IH]; simpl.
  - unfold Js.eqb. now rewrite bool_decide_eq_true_2.
  - destruct (Js.eqb k k') eqn:E; simpl; rewrite E; [reflexivity|exact IH].
Qed.

(** The object with the watermark written holds that watermark, as a
    number. *)
Lemma watermark_of_with_watermark (t : Z) (fields : list (jsstring * jsval)) :
  watermark_of (with_watermark t fields) = JNum t.
Proof.
  unfold watermark_of, with_watermark, Val.get_opt, Val.get.
  now rewrite assoc_set_field.
Qed.


(** *** Whole runs of the bundle *)

Lemma for_messages_kept (thread : GmailThread) (watermark : jsval) :
  forall (messages : list GmailMessage) (emails : list EmailMessage),
    EmailServiceFilter.for_messages P thread messages watermark emails
    = emails ++ map (emailMessage thread)
                  (List.filter (fun m => newer P watermark (getDate m)) messages).
Proof.
  induction messages as [|m rest IH]; intros emails; simpl.
  - now rewrite app_nil_r.
  - unfold newer at 1. destruct (Coerce.ge P watermark (getDate m)); simpl.
    + apply IH.
    + rewrite IH, <- app_assoc. reflexivity.
Qed.

Lemma for_threads_kept (watermark : jsval) :
  forall (threads : list GmailThread) (emails : list EmailMessage),
    EmailServiceFilter.for_threads P threads watermark emails
    = emails ++ kept_messages P watermark threads.
Proof.
  induction threads as [|thread rest IH]; intros emails; simpl.
  - now rewrite app_nil_r.
  - rewrite IH, for_messages_kept, <- app_assoc. reflexivity.
Qed.


Lemma fetchNewEmails_filter_eq (cap watermark : jsval) (t : Z) (w : World) :
  Coerce.Date_of P watermark = Some t ->
  EmailServiceFilter.fetchNewEmails P cap watermark w =
  match mailbox w (query_of P watermark) 0 cap with
  | Some threads => (Ok (kept_messages P watermark threads), w)
  | None => (Throw (lit "Gmail service error"), w)
  end.
Proof.
  intros Hdate.
  unfold EmailServiceFilter.fetchNewEmails, query_of. rewrite Hdate.
  unfold bind, GmailApp_search, ret.
  destruct (mailbox w (EmailServiceFilter.query (formatDate P t)) 0 cap);
    [|reflexivity].
  now rewrite for_threads_kept.
Qed.



(** The tail of a run: the clock is read and the reading is written. *)
Lemma write_clock_effect (w3 w' : World) (r : Result unit) :
  (t <- now ;; JsonConfigService.updateLastProcessedTime P t) w3 = (r, w') ->
  match r with
  | Ok _ =>
      exists fields,
        read_config P (properties w3) = Ok (JObj fields)
        /\ JsonConfigService.isAppConfig
             (with_watermark (clock w3 (clock_reads w3)) fields) = true
        /\ w' = write_config P (with_watermark (clock w3 (clock_reads w3)) fields)
                  (tick w3)
  | Throw _ => w' = tick w3
  end.
Proof.
  unfold bind at 1, now at 1. intros Hrun.
  apply updateLastProcessedTime_effect in Hrun.
  destruct r as [[]|e]; [|exact Hrun].
  destruct Hrun as (fields & H1 & H2 & H3).
  exists fields. repeat split; assumption.
Qed.


(** A run of the bundle that fetches nothing it may visit: it sends
    nothing, visits nothing, and ends with the write of the reading it
    takes after the fetch. *)
Lemma Main_quiet_run (w w' : World) (r : Result unit) (config : jsval) :
  read_config P (properties w) = Ok config ->
  fetched P w config [] ->
  Main.processEmails P w = (r, w') ->
  line_requests w' = line_requests w
  /\ gemini_requests w' = gemini_requests w
  /\ log w' = log w
  /\ match r with
     | Ok _ =>
         exists fields,
           config = JObj fields
           /\ w' = write_config P
                     (with_watermark (clock w (clock_reads w + 2)) fields)
                     (ticks 3 w)
     | Throw _ => properties w' = properties w
     end.
Proof.
  intros Hread (threads & Hsearch & Hfiltered).
  unfold Main.processEmails. unfold bind at 1, now at 1. unfold try_catch.
  unfold bind at 1. rewrite getConfig_eq_json.
  change (properties (tick w)) with (properties w). rewrite Hread.
  fold (watermark_of config).
  destruct (Coerce.Date_of P (watermark_of config)) as [t0|] eqn:Hdate.
  2:{ unfold throw at 1. unfold bind, now, throw. intros [= <- <-].
      repeat split. }
  unfold bind at 1.
  unfold Main.fetchAndFilterEmails. unfold bind at 1.
  fold (watermark_of config) (cap_of config) (whitelist_of config).
  rewrite (fetchNewEmails_filter_eq _ _ t0 _ Hdate).
  change (mailbox (tick w)) with (mailbox w). rewrite Hsearch.
  unfold bind at 1, now at 1.
  unfold EmailServiceFilter.filterBySender_untyped. rewrite Hfiltered.
  assert (Hempty : forall (b : bool) (w0 : World),
            (if b then ret (A := list EmailMessage) [] else ret []) w0 = (Ok [], w0))
    by (intros [] w0; reflexivity).
  rewrite Hempty.
  change (length (@nil EmailMessage) =? 0)%nat with true. cbv iota.
  destruct ((t <- now ;; JsonConfigService.updateLastProcessedTime P t)
              (tick (tick w))) as [r0 w0] eqn:Hwrite.
  apply write_clock_effect in Hwrite.
  destruct r0 as [[]|e].
  - destruct Hwrite as (fields & H1 & _ & H3).
    change (properties (tick (tick w))) with (properties w) in H1.
    rewrite Hread in H1. injection H1 as ->.
    intros [= <- <-]. subst w0.
    split; [reflexivity|]. split; [reflexivity|]. split; [reflexivity|].
    exists fields. split; [reflexivity|].
    cbn [clock clock_reads tick] in *.
    replace (clock_reads w + 2)%nat with (S (S (clock_reads w))) by lia.
    reflexivity.
  - subst w0. unfold bind, now, throw. intros [= <- <-]. repeat split.
Qed.





End Bundle.

(** ** Runs that find nothing new *)

Section QuietRuns.
Variable P : Platform.

(** C5 (amended): a run of the orchestrator with the run summary, when no
    message of the threads that its search returns is newer than the
    stored watermark, leaves the store as it was, visits nothing, and
    dispatches exactly one summary, the zero-activity one, which reports
    [Emails Found: 0].  A run of the bundled entry point that fetches no
    whitelisted message newer than the watermark visits nothing and
    sends no request at all; when it returns, it has written the reading
    of the wall clock taken after the fetch as the watermark, and when it
    raises, the store is as it was. *)
Theorem no_new_mail_run (w : World) :
  (forall (config : AppConfig) (threads : list GmailThread),
      ConfigService.getConfig w = (Ok config, w) ->
      mailbox w
        (EmailService.query P (lastProcessedTime config) (senderWhitelist config))
        0 (of_number (EmailService_new (maxEmailsPerRun config))) = Some threads ->
      new_messages (lastProcessedTime config) threads = [] ->
      exists w' k timestamp executionTimeSec,
        RunOrchestrator.processEmails P w = (Ok tt, w')
        /\ properties w' = properties w
        /\ stored_watermark w' = stored_watermark w
        /\ log w' = log w
        /\ (1 <= k <= 4)%nat
        /\ line_requests w' =
           line_requests w
           ++ repeat {| authorization := lineAccessToken config;
                        to := JStr (lineGroupId config);
                        text := RunOrchestrator.check_mark
                                  ++ lit " Email Monitor Run Summary" ++ nl ++ nl
                                  ++ lit "Time: " ++ timestamp ++ nl
                                  ++ lit "Emails Found: 0" ++ nl
                                  ++ lit "Todos Extracted: 0" ++ nl
                                  ++ lit "Execution Time: " ++ executionTimeSec
                                  ++ lit "s" ++ nl
                                  ++ lit "Status: Completed" |} k)
  /\ (forall (config : jsval) (r : Result unit) (w' : World),
        read_config P (properties w) = Ok config ->
        fetched P w config [] ->
        Main.processEmails P w = (r, w') ->
        line_requests w' = line_requests w
        /\ log w' = log w
        /\ match r with
           | Ok _ =>
               exists fields,
                 config = JObj fields
                 /\ properties w' =
                    <["config" := JSON_stringify P
                                    (with_watermark (clock w (clock_reads w + 2))
                                       fields)]> (properties w)
                 /\ watermark_of (with_watermark (clock w (clock_reads w + 2)) fields)
                    = JNum (clock w (clock_reads w + 2))
           | Throw _ => properties w' = properties w
           end).
Proof.
  split.
  - intros config threads. apply orchestrator_quiet_run.
  - intros config r w' Hread Hfetched Hrun.
    destruct (Main_quiet_run P w w' r config Hread Hfetched Hrun)
      as (H1 & _ & H3 & H4).
    split; [exact H1|]. split; [exact H3|].
    destruct r as [[]|e]; [|exact H4].
    destruct H4 as (fields & -> & ->). exists fields.
    split; [reflexivity|]. split; [|apply watermark_of_with_watermark].
    unfold write_config. cbn [properties set_properties].
    destruct (ticks_fields 3 w) as (T1 & _). now rewrite T1.
Qed.

End QuietRuns.

(** C5, as stated, fails on the bundled entry point.  The stored
    watermark is 3000, the received time of the newest message, so the
    run fetches nothing new: it visits nothing and sends no request, so
    no summary either, and it replaces the stored watermark by 5002, the
    reading of the wall clock after the fetch. *)
Lemma bundled_run_without_mail_rewrites_watermark :
  let w := w_bundle_idle in
  let run := Main.processEmails Scenario.P0 w in
  read_config Scenario.P0 (properties w) = Ok (JObj (Scenario.config_fields 3000))
  /\ watermark_of (JObj (Scenario.config_fields 3000)) = JNum 3000
  /\ fst run = Ok tt
  /\ log (snd run) = []
  /\ line_requests (snd run) = []
  /\ read_config Scenario.P0 (properties (snd run))
     = Ok (with_watermark 5002 (Scenario.config_fields 3000))
  /\ watermark_of (with_watermark 5002 (Scenario.config_fields 3000)) = JNum 5002.
Proof. vm_compute. repeat split. Qed.

(** The second of two runs over an unchanged mailbox listed oldest
    first: nothing is new. *)
Lemma no_new_mail_run_witness :
  let w2 := Scenario.next_run 9000
              (snd (RunOrchestrator.processEmails Scenario.P0 Scenario.w_oldest_first)) in
  exists w' k timestamp executionTimeSec,
    RunOrchestrator.processEmails Scenario.P0 w2 = (Ok tt, w')
    /\ properties w' = properties w2
    /\ stored_watermark w' = stored_watermark w2
    /\ log w' = log w2
    /\ (1 <= k <= 4)%nat
    /\ line_requests w' =
       line_requests w2
       ++ repeat {| authorization := lineAccessToken (Scenario.config 3000 100);
                    to := JStr (lineGroupId (Scenario.config 3000 100));
                    text := RunOrchestrator.check_mark
                              ++ lit " Email Monitor Run Summary" ++ nl ++ nl
                              ++ lit "Time: " ++ timestamp ++ nl
                              ++ lit "Emails Found: 0" ++ nl
                              ++ lit "Todos Extracted: 0" ++ nl
                              ++ lit "Execution Time: " ++ executionTimeSec
                              ++ lit "s" ++ nl
                              ++ lit "Status: Completed" |} k.
Proof.
  apply (proj1 (no_new_mail_run Scenario.P0 _) (Scenario.config 3000 100)
           Scenario.oldest_first).
  - vm_compute. reflexivity.
  - vm_compute. reflexivity.
  - vm_compute. reflexivity.
Defined.


(** The same deployment with the watermark stored as the text ["1000"]:
    the guard lets the object through, the date of the query is the year
    1000, the loop compares the received times with the number 1000, and
    the run visits both messages and writes the reading 5004 as a
    number. *)
Lemma bundled_run_on_text_watermark :
  let w := w_text_watermark in
  let run := Main.processEmails Scenario.P0 w in
  fst run = Ok tt
  /\ log (snd run) = [Processing_email (lit "a@x.com") (lit "subject") (lit "m2");
                      Processing_email (lit "a@x.com") (lit "subject") (lit "m1")]
  /\ read_config Scenario.P0 (properties (snd run))
     = Ok (with_watermark 5004 text_watermark_fields).
Proof. vm_compute. repeat split. Qed.

(* ===================================================================== *)
(** * Further properties of the code *)
(* ===================================================================== *)

#[local] Arguments lit : simpl never.

(** ** The formatter *)

Section FormatterLayout.
Import MessageFormatter.

Lemma forEach_todo_lines :
  forall (todos : list TodoItem) (index : nat) (message : jsstring),
    forEach_todo index todos message = message ++ todo_lines (S index) todos.
Proof.
  induction todos as [|todo rest IH]; intros index message;
    cbn [forEach_todo todo_lines].
  - now rewrite app_nil_r.
  - cbv zeta. rewrite IH. unfold todo_line. rewrite Nat.add_1_r.
    rewrite <- !app_assoc. reflexivity.
Qed.

Lemma render_layout (todos : list TodoItem) (sender subject : jsstring) :
  render todos sender subject = layout todos sender subject.
Proof.
  unfold render, layout. rewrite forEach_todo_lines.
  rewrite <- !app_assoc.
  destruct (Nat.ltb_spec 1 (length todos)) as [H|H];
    destruct (Nat.leb_spec (length todos) 1) as [H'|H']; try lia; reflexivity.
Qed.


(** X1: a notification that fits the limit is the header, the items in the
    order of the list, numbered from 1, each on a line of its own with its
    priority icon, and the footer with their count. *)
Theorem formatTodosForLine_layout (todos : list TodoItem) (sender subject : jsstring) :
  todos <> [] ->
  (length (layout todos sender subject) <= LINE_CONSTRAINTS.MAX_MESSAGE_LENGTH)%nat ->
  formatTodosForLine todos sender subject = layout todos sender subject.
Proof.
  intros Hne Hfit. unfold formatTodosForLine.
  destruct todos as [|todo rest]; [congruence|].
  change (length (todo :: rest) =? 0)%nat with false. cbv iota zeta.
  rewrite render_layout.
  destruct (Nat.ltb_spec LINE_CONSTRAINTS.MAX_MESSAGE_LENGTH
              (length (layout (todo :: rest) sender subject))); [lia|reflexivity].
Qed.

End FormatterLayout.

Lemma formatTodosForLine_layout_witness :
  let todos := [ {| description := JStr (lit "Review pull request");
                    priority := JStr (lit "high");
                    sourceEmailId := lit "m1"; sourceSender := lit "a@x.com";
                    sourceSubject := lit "s"; extractedAt := 0;
                    matchedPattern := ai_extracted |};
                 {| description := JStr (lit "Update documentation");
                    priority := JUndef;
                    sourceEmailId := lit "m1"; sourceSender := lit "a@x.com";
                    sourceSubject := lit "s"; extractedAt := 0;
                    matchedPattern := ai_extracted |} ] in
  MessageFormatter.formatTodosForLine todos (lit "a@x.com") (lit "s")
  = layout todos (lit "a@x.com") (lit "s").
Proof.
  apply formatTodosForLine_layout; [discriminate|vm_compute; lia].
Defined.

(** ** The dispatcher *)

Section DispatcherProperties.
Variable P : Platform.


(** X3: the outcome of one HTTP response: the status and the body are
    handed on unchanged, an error is attached exactly when the status is
    not 200, and its message is never empty or undefined. *)
Theorem handleLineResponse_outcome (statusCode : Z) (responseBody : jsstring) :
  let response := LineService.handleLineResponse P statusCode responseBody in
  status response = statusCode
  /\ body response = responseBody
  /\ (error response = None <-> statusCode = 200)
  /\ (forall e, error response = Some e -> Val.truthy (message e) = true).
Proof.
  unfold LineService.handleLineResponse.
  destruct (Z.eqb_spec statusCode 200) as [->|Hne].
  - cbn [status body error]. repeat split; congruence.
  - unfold LineService.buildErrorResponse. cbv zeta. cbn [status body error].
    split; [reflexivity|]. split; [reflexivity|].
    split; [split; [discriminate|congruence]|].
    intros e [= <-].
    destruct (JSON_parse P responseBody) as [errorData|].
    + destruct (Val.get (lit "message") errorData) as [m|].
      * cbn [message]. destruct (Val.truthy m) eqn:Hm; [exact Hm|reflexivity].
      * cbn [message]. destruct responseBody; reflexivity.
    + cbn [message]. destruct responseBody; reflexivity.
Qed.

Lemma backoff_seq (maxRetries : nat) :
  forall count attempt,
    (attempt + count <= maxRetries)%nat ->
    backoff maxRetries attempt count
    = map (fun i => 2 ^ Z.of_nat i * 1000) (seq attempt count).
Proof.
  induction count as [|count IH]; intros attempt Hle; [reflexivity|].
  cbn [backoff seq map].
  destruct (Nat.ltb_spec attempt maxRetries); [|lia].
  rewrite IH by lia. reflexivity.
Qed.




End DispatcherProperties.


(** ** The AI extractor *)

Section Trimming.

Lemma trimStart_blank (ws : jsstring) (c : N) (r : jsstring) :
  blank ws -> is_space c = false -> trimStart (ws ++ c :: r) = c :: r.
Proof.
  intros Hws Hc. induction Hws as [|x ws Hx _ IH]; cbn [app trimStart].
  - now rewrite Hc.
  - now rewrite Hx.
Qed.

Lemma trimStart_all_blank (ws : jsstring) : blank ws -> trimStart ws = [].
Proof.
  intros Hws. induction Hws as [|x ws Hx _ IH]; cbn [trimStart]; [reflexivity|].
  now rewrite Hx.
Qed.

Lemma blank_rev (ws : jsstring) : blank ws -> blank (rev ws).
Proof. unfold blank. apply Forall_rev. Qed.

(** [trim] removes the white space around a text that starts and ends
    with other code units. *)
Lemma trim_padded (ws1 ws2 m : jsstring) (c d : N) :
  blank ws1 -> blank ws2 -> is_space c = false -> is_space d = false ->
  trim (ws1 ++ (c :: m ++ [d]) ++ ws2) = c :: m ++ [d].
Proof.
  intros H1 H2 Hc Hd. unfold trim, trimEnd.
  change ((c :: m ++ [d]) ++ ws2) with (c :: (m ++ [d]) ++ ws2).
  rewrite trimStart_blank by assumption.
  change (c :: (m ++ [d]) ++ ws2) with (((c :: m) ++ [d]) ++ ws2).
  rewrite rev_app_distr, (rev_app_distr (c :: m) [d]).
  change (rev [d]) with [d]. cbn [app].
  rewrite trimStart_blank by (try apply blank_rev; assumption).
  change (d :: rev (c :: m)) with ([d] ++ rev (c :: m)).
  rewrite rev_app_distr, rev_involutive. reflexivity.
Qed.

End Trimming.

Section ExtractorProperties.
Variable P : Platform.

Lemma remove_closing_fence_app (j : jsstring) :
  GeminiService.remove_closing_fence (j ++ nl ++ lit "```") = j.
Proof.
  unfold GeminiService.remove_closing_fence.
  rewrite !rev_app_distr.
  change (rev (lit "```")) with [96%N; 96%N; 96%N].
  change (rev nl) with [10%N]. cbn [app].
  apply rev_involutive.
Qed.

Lemma fenced_shape (pre j : jsstring) :
  (96%N :: pre) ++ nl ++ j ++ nl ++ lit "```"
  = 96%N :: (pre ++ nl ++ j ++ nl ++ lit "``") ++ [96%N].
Proof.
  change (lit "```") with (lit "``" ++ [96%N]).
  cbn [app]. f_equal. rewrite <- !app_assoc. reflexivity.
Qed.

Lemma is_space_backtick : is_space 96 = false.
Proof. reflexivity. Qed.

Lemma trim_fenced (ws1 ws2 pre j : jsstring) :
  blank ws1 -> blank ws2 ->
  trim (ws1 ++ ((96%N :: pre) ++ nl ++ j ++ nl ++ lit "```") ++ ws2)
  = (96%N :: pre) ++ nl ++ j ++ nl ++ lit "```".
Proof.
  intros H1 H2. rewrite fenced_shape.
  apply trim_padded; (assumption || apply is_space_backtick).
Qed.

Lemma remove_opening_fence_app (fence r : jsstring) :
  GeminiService.remove_opening_fence fence (fence ++ nl ++ r) = r.
Proof.
  unfold GeminiService.remove_opening_fence.
  rewrite skipn_app, skipn_all, Nat.sub_diag. reflexivity.
Qed.

(** X5: a candidate text wrapped in a Markdown code fence, with or without
    the [json] tag and with any white space around it, is unwrapped to
    exactly the text between the fence lines. *)
Theorem strip_code_fence_unwraps (ws1 ws2 j : jsstring) :
  blank ws1 -> blank ws2 ->
  GeminiService.strip_code_fence
    (ws1 ++ (lit "```json" ++ nl ++ j ++ nl ++ lit "```") ++ ws2) = j
  /\ GeminiService.strip_code_fence
       (ws1 ++ (lit "```" ++ nl ++ j ++ nl ++ lit "```") ++ ws2) = j.
Proof.
  intros H1 H2. unfold GeminiService.strip_code_fence. cbv zeta. split.
  - change (lit "```json") with (96%N :: lit "``json").
    rewrite (trim_fenced ws1 ws2 (lit "``json") j H1 H2).
    change (96%N :: lit "``json") with (lit "```json").
    rewrite startsWith_app, remove_opening_fence_app.
    apply remove_closing_fence_app.
  - change (lit "```" ++ nl ++ j ++ nl ++ lit "```")
      with ((96%N :: lit "``") ++ nl ++ j ++ nl ++ lit "```").
    rewrite (trim_fenced ws1 ws2 (lit "``") j H1 H2).
    change (96%N :: lit "``") with (lit "```").
    replace (startsWith (lit "```" ++ nl ++ j ++ nl ++ lit "```") (lit "```json"))
      with false by reflexivity.
    rewrite startsWith_app, remove_opening_fence_app.
    apply remove_closing_fence_app.
Qed.

Lemma map_todos_items (emailId senderEmail emailSubject : jsstring) :
  forall (todos : list jsval) (w : World),
    Forall (fun todo => Val.nullish todo = false) todos ->
    exists items,
      GeminiService.map_todos todos emailId senderEmail emailSubject w
      = (Ok items, ticks (length todos) w)
      /\ map description items = map (Val.get_opt (lit "description")) todos
      /\ map priority items = map (Val.get_opt (lit "priority")) todos
      /\ Forall (attributed emailId senderEmail emailSubject) items
      /\ Forall (fun item => matchedPattern item = ai_extracted) items.
Proof.
  induction todos as [|todo rest IH]; intros w Hall.
  - exists []. repeat split; constructor.
  - inversion Hall as [|? ? Htodo Hrest]; subst.
    cbn [GeminiService.map_todos].
    assert (Hd : Val.get (lit "description") todo
                 = Some (Val.get_opt (lit "description") todo)).
    { unfold Val.get_opt. destruct todo; try discriminate; reflexivity. }
    assert (Hp : Val.get (lit "priority") todo
                 = Some (Val.get_opt (lit "priority") todo)).
    { unfold Val.get_opt. destruct todo; try discriminate; reflexivity. }
    rewrite Hd, Hp. unfold bind at 1, now at 1.
    destruct (IH (tick w) Hrest) as (items & Hrun & H1 & H2 & H3 & H4).
    unfold bind at 1. rewrite Hrun. unfold ret.
    eexists. split; [rewrite ticks_S; reflexivity|].
    cbn [map description priority]. rewrite H1, H2.
    repeat split; constructor; try assumption; repeat split.
Qed.

Lemma map_todos_nullish (emailId senderEmail emailSubject : jsstring) :
  forall (todos : list jsval) (w : World),
    Exists (fun todo => Val.nullish todo = true) todos ->
    exists e n,
      (n < length todos)%nat
      /\ GeminiService.map_todos todos emailId senderEmail emailSubject w
         = (Throw e, ticks n w).
Proof.
  induction todos as [|todo rest IH]; intros w Hex; [inversion Hex|].
  cbn [GeminiService.map_todos].
  destruct (Val.nullish todo) eqn:Hnull.
  - exists (lit "TypeError: Cannot read properties of null"), 0%nat.
    split; [cbn; lia|].
    destruct todo; try discriminate; reflexivity.
  - inversion Hex as [? ? Hhere|? ? Hlater]; subst; [congruence|].
    assert (Hd : exists d p, Val.get (lit "description") todo = Some d
                             /\ Val.get (lit "priority") todo = Some p).
    { destruct todo; try discriminate; eexists _, _; split; reflexivity. }
    destruct Hd as (d & p & -> & ->).
    unfold bind at 1, now at 1.
    destruct (IH (tick w) Hlater) as (e & n & Hn & Hrun).
    unfold bind at 1. rewrite Hrun.
    exists e, (S n). split; [cbn; lia|]. rewrite ticks_S. reflexivity.
Qed.

(** X6: the parser of the candidate text is all or nothing.  When the
    text is a JSON array without a null element, there is one item for
    each element, in the order of the array, with the element's
    [description] and [priority] as they are and with the message's id,
    sender and subject attached.  One null element and every item of the
    answer is dropped: the result is the empty list. *)
Theorem parseTodosFromResponse_all_or_nothing
    (s emailId senderEmail emailSubject : jsstring) (todos : list jsval)
    (w : World) :
  JSON_parse P (GeminiService.strip_code_fence s) = Some (JArr todos) ->
  (Forall (fun todo => Val.nullish todo = false) todos ->
   exists items,
     GeminiService.parseTodosFromResponse P (JStr s) emailId senderEmail
       emailSubject w = (Ok items, ticks (length todos) w)
     /\ map description items = map (Val.get_opt (lit "description")) todos
     /\ map priority items = map (Val.get_opt (lit "priority")) todos
     /\ Forall (attributed emailId senderEmail emailSubject) items
     /\ Forall (fun item => matchedPattern item = ai_extracted) items)
  /\ (Exists (fun todo => Val.nullish todo = true) todos ->
      exists n,
        (n < length todos)%nat
        /\ GeminiService.parseTodosFromResponse P (JStr s) emailId senderEmail
             emailSubject w = (Ok [], ticks n w)).
Proof.
  intros Hparse. unfold GeminiService.parseTodosFromResponse, try_catch.
  rewrite Hparse. split.
  - intros Hall.
    destruct (map_todos_items emailId senderEmail emailSubject todos w Hall)
      as (items & Hrun & Hrest).
    rewrite Hrun. exists items. split; [reflexivity|exact Hrest].
  - intros Hex.
    destruct (map_todos_nullish emailId senderEmail emailSubject todos w Hex)
      as (e & n & Hn & Hrun).
    rewrite Hrun. exists n. split; [exact Hn|reflexivity].
Qed.

(** X7: whatever the endpoint answers, one extraction sends exactly one
    request, the prompt built from the body and the subject; it is never
    repeated, and the extraction neither sleeps, nor writes to the store,
    nor sends anything to the chat endpoint. *)
Theorem extractTodos_sends_one_request
    (emailBody emailId senderEmail emailSubject : jsstring) (w : World) :
  let w' := snd (GeminiService.extractTodos P emailBody emailId senderEmail
                   emailSubject w) in
  gemini_requests w'
  = gemini_requests w ++ [GeminiService.buildExtractionPrompt emailBody emailSubject]
  /\ properties w' = properties w
  /\ line_requests w' = line_requests w
  /\ sleeps w' = sleeps w
  /\ log w' = log w.
Proof.
  intros w'. subst w'.
  destruct (extractTodos_world P emailBody emailId senderEmail emailSubject w)
    as [n ->].
  destruct (ticks_fields n
              (add_gemini_request
                 (GeminiService.buildExtractionPrompt emailBody emailSubject) w))
    as (T1 & _ & _ & _ & _ & T6 & _ & T8 & T9 & T10).
  rewrite T1, T6, T8, T9, T10. repeat split.
Qed.

End ExtractorProperties.

(** ** The pattern extractor *)

Section TrimmingFacts.

Lemma trimStart_suffix (s : jsstring) : exists p, s = p ++ trimStart s.
Proof.
  induction s as [|c r [p IH]]; [exists []; reflexivity|].
  cbn [trimStart]. destruct (is_space c).
  - exists (c :: p). cbn [app]. now rewrite <- IH.
  - exists []. reflexivity.
Qed.

Lemma trim_infix (s : jsstring) : exists p q, s = p ++ trim s ++ q.
Proof.
  unfold trim, trimEnd.
  destruct (trimStart_suffix s) as [p Hp].
  destruct (trimStart_suffix (rev (trimStart s))) as [q Hq].
  exists p, (rev q). rewrite <- rev_app_distr, <- Hq, rev_involutive. exact Hp.
Qed.

Lemma trimStart_idempotent (s : jsstring) : trimStart (trimStart s) = trimStart s.
Proof.
  induction s as [|c r IH]; [reflexivity|].
  cbn [trimStart]. destruct (is_space c) eqn:Hc; [exact IH|].
  cbn [trimStart]. now rewrite Hc.
Qed.

Lemma trim_idempotent (s : jsstring) : trim (trim s) = trim s.
Proof.
  assert (Hstart : trimStart (trim s) = trim s).
  { pose proof (trim_head s) as Hhead.
    destruct (trim s) as [|c r]; [reflexivity|].
    cbn [trimStart]. now rewrite Hhead. }
  unfold trim at 1. rewrite Hstart.
  unfold trim, trimEnd. rewrite rev_involutive, trimStart_idempotent. reflexivity.
Qed.

End TrimmingFacts.

Section TagRemoval.

Lemma after_gt_Some (r r' : jsstring) :
  EmailParser.after_gt r = Some r' ->
  exists b, r = b ++ [62%N] ++ r' /\ (length r' < length r)%nat.
Proof.
  revert r'. induction r as [|c r IH]; intros r' H; [discriminate|].
  cbn [EmailParser.after_gt] in H.
  destruct (N.eqb_spec c 62) as [->|Hc].
  - injection H as <-. exists []. split; [reflexivity|cbn; lia].
  - destruct (IH r' H) as (b & -> & Hlen).
    exists (c :: b). split; [reflexivity|].
    cbn [length]. rewrite !length_app in *. cbn [length] in *. lia.
Qed.

Lemma after_gt_None (r : jsstring) :
  EmailParser.after_gt r = None -> ~ In 62%N r.
Proof.
  induction r as [|c r IH]; intros H; [intros []|].
  cbn [EmailParser.after_gt] in H.
  destruct (N.eqb_spec c 62) as [->|Hc]; [discriminate|].
  intros [Heq|Hin]; [congruence|exact (IH H Hin)].
Qed.

Lemma has_tag_cons (c : N) (s : jsstring) : has_tag s -> has_tag (c :: s).
Proof. intros (a & b & d & ->). exists (c :: a), b, d. reflexivity. Qed.

Lemma has_tag_cons_inv (c : N) (s : jsstring) :
  c <> 60%N -> has_tag (c :: s) -> has_tag s.
Proof.
  intros Hc (a & b & d & H). destruct a as [|x a].
  - cbn in H. congruence.
  - injection H as _ ->. exists a, b, d. reflexivity.
Qed.

Lemma has_tag_open (r : jsstring) : has_tag (60%N :: r) -> In 62%N r.
Proof.
  intros (a & b & d & H). destruct a as [|x a].
  - injection H as ->. apply in_or_app. right. left. reflexivity.
  - injection H as _ ->. apply in_or_app. right. right.
    apply in_or_app. right. left. reflexivity.
Qed.

(** With enough fuel, no tag is left. *)
Lemma remove_tags_no_tag :
  forall (fuel : nat) (s : jsstring),
    (length s <= fuel)%nat -> ~ has_tag (EmailParser.remove_tags fuel s).
Proof.
  induction fuel as [fuel IH] using lt_wf_ind. intros s Hlen.
  destruct fuel as [|fuel'].
  - destruct s; [|cbn in Hlen; lia]. intros (a & b & c & H).
    destruct a; discriminate.
  - cbn [EmailParser.remove_tags]. destruct s as [|c r].
    + intros (a & b & d & H). destruct a; discriminate.
    + cbn [length] in Hlen. destruct (N.eqb_spec c 60) as [->|Hc].
      * destruct (EmailParser.after_gt r) as [r'|] eqn:Hgt.
        -- apply after_gt_Some in Hgt. destruct Hgt as (b & _ & Hlt).
           apply IH; lia.
        -- intros Htag. apply has_tag_open in Htag.
           exact (after_gt_None r Hgt Htag).
      * intros Htag. apply has_tag_cons_inv in Htag; [|exact Hc].
        revert Htag. apply IH; lia.
Qed.

(** A text without a tag is left as it is. *)
Lemma remove_tags_tag_free :
  forall (fuel : nat) (s : jsstring),
    ~ has_tag s -> EmailParser.remove_tags fuel s = s.
Proof.
  induction fuel as [|fuel IH]; intros s Hfree; [reflexivity|].
  cbn [EmailParser.remove_tags]. destruct s as [|c r]; [reflexivity|].
  destruct (N.eqb_spec c 60) as [->|Hc].
  - destruct (EmailParser.after_gt r) as [r'|] eqn:Hgt; [|reflexivity].
    exfalso. apply Hfree. apply after_gt_Some in Hgt.
    destruct Hgt as (b & -> & _). exists [], b, r'. reflexivity.
  - f_equal. apply IH. intros Htag. apply Hfree, has_tag_cons, Htag.
Qed.

Lemma has_tag_infix (p s q : jsstring) : has_tag s -> has_tag (p ++ s ++ q).
Proof.
  intros (a & b & c & ->). exists (p ++ a), b, (c ++ q).
  rewrite <- !app_assoc. reflexivity.
Qed.

Lemma stripHtml_no_tag (html : jsstring) : ~ has_tag (EmailParser.stripHtml html).
Proof.
  unfold EmailParser.stripHtml. intros Htag.
  destruct (trim_infix (EmailParser.remove_tags (length html) html)) as (p & q & Heq).
  apply (has_tag_infix p _ q) in Htag. rewrite <- Heq in Htag.
  revert Htag. apply remove_tags_no_tag. lia.
Qed.

(** X8: after [stripHtml] no [<] of the text is followed by a [>]: every
    tag is gone (what may remain is a [>] with no [<] before it, or a [<]
    with no [>] after it); and a text without such a pair is only
    trimmed. *)
Theorem stripHtml_removes_every_tag (html : jsstring) :
  ~ has_tag (EmailParser.stripHtml html)
  /\ (~ has_tag html -> EmailParser.stripHtml html = trim html).
Proof.
  split; [apply stripHtml_no_tag|].
  intros Hfree. unfold EmailParser.stripHtml.
  now rewrite remove_tags_tag_free.
Qed.

(** X9: stripping twice is stripping once. *)
Theorem stripHtml_idempotent (html : jsstring) :
  EmailParser.stripHtml (EmailParser.stripHtml html) = EmailParser.stripHtml html.
Proof.
  pose proof (stripHtml_no_tag html) as Hfree.
  unfold EmailParser.stripHtml at 1.
  rewrite remove_tags_tag_free by exact Hfree.
  unfold EmailParser.stripHtml. apply trim_idempotent.
Qed.

End TagRemoval.

Section PatternExtractor.
Variable P : Platform.

Lemma isDuplicate_false (todos : list TodoItem) (d : jsstring) :
  EmailParser.isDuplicate todos d = false -> ~ In (JStr d) (map description todos).
Proof.
  unfold EmailParser.isDuplicate. induction todos as [|todo rest IH]; [intros _ []|].
  cbn [existsb map]. intros H. apply orb_false_elim in H. destruct H as [Hhere Hrest].
  intros [Heq|Hin]; [|exact (IH Hrest Hin)].
  rewrite Heq in Hhere. unfold Js.eqb in Hhere.
  rewrite bool_decide_eq_false in Hhere. congruence.
Qed.

Lemma match_description_trimmed (m : RegExpMatch) (d : jsstring) :
  EmailParser.match_description m = Some d -> trim d = d.
Proof.
  unfold EmailParser.match_description.
  destruct (match group1 m with Some (c :: g) => Some (c :: g) | _ => group2 m end)
    as [g|]; [|discriminate].
  intros [= <-]. apply trim_idempotent.
Qed.

Lemma while_exec_well_formed (pattern : MatchedPattern) (i s j : jsstring) :
  forall (matches : list RegExpMatch) (todos items : list TodoItem) (w w' : World),
    well_formed todos ->
    EmailParser.while_exec matches pattern i s j todos w = (Ok items, w') ->
    well_formed items.
Proof.
  induction matches as [|m rest IH]; intros todos items w w' Hwf Hrun.
  - cbn in Hrun. unfold ret in Hrun. now injection Hrun as <- _.
  - cbn [EmailParser.while_exec] in Hrun.
    destruct (EmailParser.match_description m) as [[|c d]|] eqn:Hm;
      [exact (IH _ _ _ _ Hwf Hrun)| |exact (IH _ _ _ _ Hwf Hrun)].
    destruct (EmailParser.isDuplicate todos (c :: d)) eqn:Hdup;
      [exact (IH _ _ _ _ Hwf Hrun)|].
    unfold bind at 1, now at 1 in Hrun.
    refine (IH _ _ _ _ _ Hrun).
    destruct Hwf as [Hnodup Hall]. split.
    + rewrite map_app. cbn [map description].
      apply NoDup_app. split; [exact Hnodup|].
      split; [|apply NoDup_singleton].
      intros x Hx Hx'. apply list_elem_of_singleton in Hx'. subst x.
      apply list_elem_of_In in Hx.
      exact (isDuplicate_false todos (c :: d) Hdup Hx).
    + apply Forall_app. split; [exact Hall|].
      constructor; [|constructor].
      exists (c :: d). split; [reflexivity|]. split; [discriminate|].
      exact (match_description_trimmed m _ Hm).
Qed.

Lemma for_patterns_well_formed (plainText i s j : jsstring) :
  forall (ps : list MatchedPattern) (todos items : list TodoItem) (w w' : World),
    well_formed todos ->
    EmailParser.for_patterns P ps plainText i s j todos w = (Ok items, w') ->
    well_formed items.
Proof.
  induction ps as [|pattern rest IH]; intros todos items w w' Hwf Hrun.
  - cbn in Hrun. unfold ret in Hrun. now injection Hrun as <- _.
  - cbn [EmailParser.for_patterns] in Hrun. unfold bind at 1 in Hrun.
    destruct (EmailParser.while_exec (exec_all P pattern plainText) pattern i s j
                todos w) as [[todos'|e] w1] eqn:Hloop; [|discriminate].
    apply (IH todos' items w1 w'); [|exact Hrun].
    exact (while_exec_well_formed pattern i s j _ _ _ _ _ Hwf Hloop).
Qed.

Lemma extractTodos_well_formed (emailBody i s j : jsstring) (w : World) :
  exists items n,
    EmailParser.extractTodos P emailBody i s j w = (Ok items, ticks n w)
    /\ well_formed items.
Proof.
  destruct (EmailParser_extractTodos_returns P emailBody i s j w) as (items & n & Hrun).
  exists items, n. split; [exact Hrun|].
  unfold EmailParser.extractTodos in Hrun.
  apply (for_patterns_well_formed (EmailParser.stripHtml emailBody) i s j
           EmailParser.patterns [] items w (ticks n w)); [|exact Hrun].
  split; constructor.
Qed.

(** X10: the pattern extractor always returns, and no two items of its
    result have the same description, whichever patterns matched them. *)
Theorem pattern_extractor_no_duplicates (emailBody i s j : jsstring) (w : World) :
  exists items n,
    EmailParser.extractTodos P emailBody i s j w = (Ok items, ticks n w)
    /\ NoDup (map description items).
Proof.
  destruct (extractTodos_well_formed emailBody i s j w) as (items & n & Hrun & Hwf).
  exists items, n. split; [exact Hrun|exact (proj1 Hwf)].
Qed.

(** X11: every description the pattern extractor returns is a string that
    is not empty and has no white space at its start or at its end. *)
Theorem pattern_extractor_trimmed_descriptions (emailBody i s j : jsstring)
    (w : World) :
  exists items n,
    EmailParser.extractTodos P emailBody i s j w = (Ok items, ticks n w)
    /\ Forall trimmed_text items.
Proof.
  destruct (extractTodos_well_formed emailBody i s j w) as (items & n & Hrun & Hwf).
  exists items, n. split; [exact Hrun|exact (proj2 Hwf)].
Qed.

End PatternExtractor.

(** ** The configuration over individual properties *)

Section Whitelist.

Lemma trimStart_app_blank (p x : jsstring) :
  blank p -> trimStart (p ++ x) = trimStart x.
Proof.
  intros Hp. induction Hp as [|c p Hc _ IH]; [reflexivity|].
  cbn [app trimStart]. now rewrite Hc.
Qed.

Lemma blank_or_not (e : jsstring) :
  blank e \/ exists b c r, e = b ++ c :: r /\ blank b /\ is_space c = false.
Proof.
  induction e as [|x e [IH|(b & c & r & -> & Hb & Hc)]].
  - left. constructor.
  - destruct (is_space x) eqn:Hx.
    + left. constructor; assumption.
    + right. exists [], x, e. repeat split; [constructor|exact Hx].
  - destruct (is_space x) eqn:Hx.
    + right. exists (x :: b), c, r. repeat split; [constructor; assumption|exact Hc].
    + right. exists [], x, (b ++ c :: r). repeat split; [constructor|exact Hx].
Qed.

Lemma trim_blank (e : jsstring) : blank e -> trim e = [].
Proof. intros He. unfold trim. now rewrite trimStart_all_blank. Qed.

Lemma blank_app (a b : jsstring) : blank a -> blank b -> blank (a ++ b).
Proof. unfold blank. intros. apply Forall_app. split; assumption. Qed.

(** White space around a text does not change what [trim] returns. *)
Lemma trim_pad (p e q : jsstring) :
  blank p -> blank q -> trim (p ++ e ++ q) = trim e.
Proof.
  intros Hp Hq. destruct (blank_or_not e) as [He|(b & c & r & -> & Hb & Hc)].
  - rewrite (trim_blank e He). apply trim_blank.
    repeat apply blank_app; assumption.
  - unfold trim. rewrite trimStart_app_blank by exact Hp.
    rewrite <- app_assoc.
    rewrite (trimStart_app_blank b ((c :: r) ++ q) Hb).
    rewrite (trimStart_app_blank b (c :: r) Hb).
    cbn [app trimStart]. rewrite Hc.
    unfold trimEnd. f_equal.
    change (c :: r ++ q) with ((c :: r) ++ q). rewrite rev_app_distr.
    apply trimStart_app_blank, blank_rev, Hq.
Qed.

Lemma split_comma_nonempty (s : jsstring) : ConfigService.split_comma s <> [].
Proof.
  destruct s as [|c r]; [discriminate|]. cbn [ConfigService.split_comma].
  destruct (c =? 44)%N; [discriminate|].
  destruct (ConfigService.split_comma r); discriminate.
Qed.

Lemma split_comma_segment (a : jsstring) :
  ~ In 44%N a ->
  ConfigService.split_comma a = [a]
  /\ forall r, ConfigService.split_comma (a ++ 44%N :: r)
               = a :: ConfigService.split_comma r.
Proof.
  induction a as [|c a IH]; intros Hfree.
  - split; [reflexivity|]. intros r. reflexivity.
  - assert (Hc : (c =? 44)%N = false).
    { apply N.eqb_neq. intros ->. apply Hfree. left. reflexivity. }
    destruct IH as [IH1 IH2]; [intros Hin; apply Hfree; right; exact Hin|].
    split.
    + cbn [ConfigService.split_comma]. rewrite Hc, IH1. reflexivity.
    + intros r. cbn [app ConfigService.split_comma]. rewrite Hc, IH2. reflexivity.
Qed.

Lemma split_comma_comma_free (s : jsstring) :
  Forall (fun segment => ~ In 44%N segment) (ConfigService.split_comma s).
Proof.
  induction s as [|c r IH]; [repeat constructor; intros []|].
  cbn [ConfigService.split_comma].
  destruct (N.eqb_spec c 44) as [->|Hc].
  - constructor; [intros []|exact IH].
  - destruct (ConfigService.split_comma r) as [|h tl].
    + repeat constructor. intros [Heq|[]]. congruence.
    + inversion IH as [|? ? Hh Htl]; subst. constructor; [|exact Htl].
      intros [Heq|Hin]; [congruence|exact (Hh Hin)].
Qed.

Lemma blank_comma_free (ws : jsstring) : blank ws -> ~ In 44%N ws.
Proof.
  intros Hws Hin. unfold blank in Hws. rewrite List.Forall_forall in Hws.
  specialize (Hws _ Hin). discriminate.
Qed.

Lemma parse_whitelist_segment (a : jsstring) :
  ~ In 44%N a ->
  ConfigService.parse_whitelist a
  = (if (0 <? length (trim a))%nat then [trim a] else [])
  /\ forall r, ConfigService.parse_whitelist (a ++ 44%N :: r)
               = (if (0 <? length (trim a))%nat then [trim a] else [])
                 ++ ConfigService.parse_whitelist r.
Proof.
  intros Hfree. destruct (split_comma_segment a Hfree) as [H1 H2].
  unfold ConfigService.parse_whitelist. split.
  - rewrite H1. cbn [map List.filter]. reflexivity.
  - intros r. rewrite H2. cbn [map List.filter].
    destruct (0 <? length (trim a))%nat; reflexivity.
Qed.

Lemma join_cons (sep e : jsstring) (l : list jsstring) :
  l <> [] -> Js.join sep (e :: l) = e ++ sep ++ Js.join sep l.
Proof. destruct l; [congruence|reflexivity]. Qed.

Lemma parse_whitelist_join (ws : jsstring) :
  blank ws ->
  forall (entries : list jsstring) (lead : jsstring),
    blank lead -> entries <> [] -> Forall clean entries ->
    ConfigService.parse_whitelist (lead ++ Js.join (44%N :: ws) entries) = entries.
Proof.
  intros Hws. induction entries as [|e rest IH]; intros lead Hlead Hne Hall;
    [congruence|].
  inversion Hall as [|? ? (Hnonempty & Htrim & Hfree) Hrest]; subst.
  assert (Ha : ~ In 44%N (lead ++ e)).
  { intros Hin. apply in_app_or in Hin.
    destruct Hin as [Hin|Hin]; [exact (blank_comma_free lead Hlead Hin)|auto]. }
  assert (Htrim' : trim (lead ++ e) = e).
  { rewrite <- (app_nil_r e) at 1. rewrite trim_pad; [exact Htrim|exact Hlead|constructor]. }
  assert (Hlen : (0 <? length e)%nat = true).
  { destruct e; [congruence|reflexivity]. }
  destruct (parse_whitelist_segment (lead ++ e) Ha) as [H1 H2].
  destruct rest as [|e' rest'].
  - cbn [Js.join]. rewrite H1, Htrim', Hlen. reflexivity.
  - rewrite join_cons by discriminate.
    cbn [app]. rewrite app_assoc, H2, Htrim', Hlen. cbn [app]. f_equal.
    apply IH; [exact Hws|discriminate|exact Hrest].
Qed.

(** X12: a whitelist written as addresses separated by a comma, with or
    without white space after it, is read back as the list of those
    addresses. *)
Theorem parse_whitelist_reads_back (ws : jsstring) (entries : list jsstring) :
  blank ws -> Forall clean entries ->
  ConfigService.parse_whitelist (Js.join (lit "," ++ ws) entries) = entries.
Proof.
  intros Hws Hall. destruct entries as [|e rest]; [reflexivity|].
  change (lit "," ++ ws) with (44%N :: ws).
  apply (parse_whitelist_join ws Hws (e :: rest) []);
    [constructor|discriminate|exact Hall].
Qed.

Lemma trim_comma_free (s : jsstring) : ~ In 44%N s -> ~ In 44%N (trim s).
Proof.
  intros Hfree Hin. destruct (trim_infix s) as (p & q & Heq).
  apply Hfree. rewrite Heq. apply in_or_app. right. apply in_or_app. now left.
Qed.

(** What [parse_whitelist] returns, whatever the text. *)
Lemma parse_whitelist_clean (s : jsstring) :
  Forall clean (ConfigService.parse_whitelist s).
Proof.
  unfold ConfigService.parse_whitelist.
  apply List.Forall_forall. intros e Hin.
  apply filter_In in Hin. destruct Hin as [Hin Hlen].
  apply in_map_iff in Hin. destruct Hin as (segment & <- & Hsegment).
  pose proof (split_comma_comma_free s) as Hfree.
  rewrite List.Forall_forall in Hfree. specialize (Hfree _ Hsegment).
  split; [destruct (trim segment); [discriminate Hlen|discriminate]|].
  split; [apply trim_idempotent|apply trim_comma_free, Hfree].
Qed.

End Whitelist.

Section KeyValueConfiguration.

Lemma falsy_property_false (v : option jsstring) :
  falsy_property v = false -> exists c s, v = Some (c :: s).
Proof. destruct v as [[|c s]|]; try discriminate. intros _. eauto. Qed.

(** [getConfig] when the required properties are there. *)
Lemma getConfig_present (w : World) (token group key str : jsstring) :
  properties w !! "lineAccessToken" = Some token -> token <> [] ->
  properties w !! "lineGroupId" = Some group -> group <> [] ->
  properties w !! "geminiApiKey" = Some key -> key <> [] ->
  properties w !! "senderWhitelist" = Some str -> str <> [] ->
  ConfigService.parse_whitelist str <> [] ->
  ConfigService.getConfig w =
  (match stored_watermark w with
   | Some t =>
       if valid_time t
       then Ok {| lineAccessToken := token; lineGroupId := group;
                  geminiApiKey := key;
                  senderWhitelist := ConfigService.parse_whitelist str;
                  lastProcessedTime := t;
                  maxEmailsPerRun := Some (stored_cap w) |}
       else Throw (lit "RangeError: Invalid time value")
   | None => Throw (lit "RangeError: Invalid time value")
   end, w).
Proof.
  intros H1 N1 H2 N2 H3 N3 H4 N4 Hlist.
  unfold ConfigService.getConfig, bind, getProperty, stored_watermark, stored_cap.
  rewrite H1, H2, H3, H4.
  destruct token as [|c1 token]; [congruence|].
  destruct group as [|c2 group]; [congruence|].
  destruct key as [|c3 key]; [congruence|].
  destruct str as [|c4 str]; [congruence|].
  cbv beta iota zeta.
  destruct (ConfigService.parse_whitelist (c4 :: str)) as [|e l] eqn:Hparse;
    [congruence|].
  change (length (e :: l) =? 0)%nat with false. cbv iota.
  destruct (properties w !! "lastProcessedTime") as [[|x s]|];
    destruct (properties w !! "maxEmailsPerRun") as [[|y s']|];
    cbv beta iota;
    repeat match goal with
           | |- context [match ?o with Some _ => _ | None => _ end] =>
               destruct o
           | |- context [if valid_time ?t then _ else _] =>
               destruct (valid_time t)
           end; reflexivity.
Qed.

(** X13: a required property that is missing or empty makes [getConfig]
    raise, naming the first such property in the order access token,
    group id, API key, whitelist; so does a whitelist that holds no
    address.  The store is left as it was. *)
Theorem getConfig_missing_property (w : World) :
  let p := properties w in
  (falsy_property (p !! "lineAccessToken") = true ->
   ConfigService.getConfig w
   = (Throw (ConfigService.missing "lineAccessToken"), w))
  /\ (falsy_property (p !! "lineAccessToken") = false ->
      falsy_property (p !! "lineGroupId") = true ->
      ConfigService.getConfig w
      = (Throw (ConfigService.missing "lineGroupId"), w))
  /\ (falsy_property (p !! "lineAccessToken") = false ->
      falsy_property (p !! "lineGroupId") = false ->
      falsy_property (p !! "geminiApiKey") = true ->
      ConfigService.getConfig w
      = (Throw (ConfigService.missing "geminiApiKey"), w))
  /\ (falsy_property (p !! "lineAccessToken") = false ->
      falsy_property (p !! "lineGroupId") = false ->
      falsy_property (p !! "geminiApiKey") = false ->
      falsy_property (p !! "senderWhitelist") = true ->
      ConfigService.getConfig w
      = (Throw (ConfigService.missing "senderWhitelist"), w))
  /\ (forall str,
        falsy_property (p !! "lineAccessToken") = false ->
        falsy_property (p !! "lineGroupId") = false ->
        falsy_property (p !! "geminiApiKey") = false ->
        p !! "senderWhitelist" = Some str -> str <> [] ->
        ConfigService.parse_whitelist str = [] ->
        ConfigService.getConfig w
        = (Throw (lit "Configuration error: senderWhitelist cannot be empty"), w)).
Proof.
  intros p. subst p.
  unfold ConfigService.getConfig, bind, getProperty. cbv beta iota.
  repeat split.
  - intros H. destruct (properties w !! "lineAccessToken") as [[|]|];
      try discriminate; reflexivity.
  - intros H1 H2.
    apply falsy_property_false in H1. destruct H1 as (c1 & s1 & ->).
    destruct (properties w !! "lineGroupId") as [[|]|]; try discriminate; reflexivity.
  - intros H1 H2 H3.
    apply falsy_property_false in H1. destruct H1 as (c1 & s1 & ->).
    apply falsy_property_false in H2. destruct H2 as (c2 & s2 & ->).
    destruct (properties w !! "geminiApiKey") as [[|]|]; try discriminate; reflexivity.
  - intros H1 H2 H3 H4.
    apply falsy_property_false in H1. destruct H1 as (c1 & s1 & ->).
    apply falsy_property_false in H2. destruct H2 as (c2 & s2 & ->).
    apply falsy_property_false in H3. destruct H3 as (c3 & s3 & ->).
    destruct (properties w !! "senderWhitelist") as [[|]|]; try discriminate; reflexivity.
  - intros str H1 H2 H3 H4 Hne Hparse.
    apply falsy_property_false in H1. destruct H1 as (c1 & s1 & ->).
    apply falsy_property_false in H2. destruct H2 as (c2 & s2 & ->).
    apply falsy_property_false in H3. destruct H3 as (c3 & s3 & ->).
    rewrite H4. destruct str as [|c4 str]; [congruence|].
    cbv zeta. rewrite Hparse. reflexivity.
Qed.

Lemma getConfig_Ok_inv (w w' : World) (c : AppConfig) :
  ConfigService.getConfig w = (Ok c, w') ->
  exists token group key str,
    properties w !! "lineAccessToken" = Some token /\ token <> []
    /\ properties w !! "lineGroupId" = Some group /\ group <> []
    /\ properties w !! "geminiApiKey" = Some key /\ key <> []
    /\ properties w !! "senderWhitelist" = Some str /\ str <> []
    /\ ConfigService.parse_whitelist str <> [].
Proof.
  unfold ConfigService.getConfig, bind, getProperty. cbv beta iota.
  destruct (properties w !! "lineAccessToken") as [[|c1 token]|]; try discriminate.
  destruct (properties w !! "lineGroupId") as [[|c2 group]|]; try discriminate.
  destruct (properties w !! "geminiApiKey") as [[|c3 key]|]; try discriminate.
  destruct (properties w !! "senderWhitelist") as [[|c4 str]|]; try discriminate.
  cbv zeta.
  destruct (ConfigService.parse_whitelist (c4 :: str)) as [|e l] eqn:Hparse;
    [discriminate|].
  intros _. exists (c1 :: token), (c2 :: group), (c3 :: key), (c4 :: str).
  rewrite Hparse. repeat split; discriminate.
Qed.

(** X14: a configuration that [getConfig] returns holds the three stored
    credentials, none of them empty, a whitelist of at least one address
    in which every address is not empty, has no white space around it and
    no comma in it, and a watermark that is a valid time; loading leaves
    the world as it was. *)
Theorem loaded_config_is_well_formed (w w' : World) (c : AppConfig) :
  ConfigService.getConfig w = (Ok c, w') ->
  w' = w
  /\ properties w !! "lineAccessToken" = Some (lineAccessToken c)
  /\ properties w !! "lineGroupId" = Some (lineGroupId c)
  /\ properties w !! "geminiApiKey" = Some (geminiApiKey c)
  /\ lineAccessToken c <> [] /\ lineGroupId c <> [] /\ geminiApiKey c <> []
  /\ senderWhitelist c <> []
  /\ Forall clean (senderWhitelist c)
  /\ valid_time (lastProcessedTime c) = true.
Proof.
  intros Hrun.
  destruct (getConfig_Ok_inv w w' c Hrun)
    as (token & group & key & str & H1 & N1 & H2 & N2 & H3 & N3 & H4 & N4 & Hlist).
  rewrite (getConfig_present w token group key str) in Hrun by assumption.
  destruct (stored_watermark w) as [t|]; [|discriminate].
  destruct (valid_time t) eqn:Hvalid; [|discriminate].
  injection Hrun as <- <-. cbn [lineAccessToken lineGroupId geminiApiKey
                                senderWhitelist lastProcessedTime].
  repeat split; try assumption. apply parse_whitelist_clean.
Qed.

(** X15: the two optional properties.  Without a stored watermark the
    configuration loads with the watermark 0; a stored watermark that
    [parseInt] reads as a valid time is loaded as that number; one that
    does not parse, or is out of the range of dates, makes [getConfig]
    raise.  Without a stored cap the cap is 100; a stored cap is loaded as
    [parseInt] reads it, also when that is NaN. *)
Theorem getConfig_optional_properties (w : World) :
  required_present (properties w) ->
  (falsy_property (properties w !! "lastProcessedTime") = true ->
   exists c, ConfigService.getConfig w = (Ok c, w) /\ lastProcessedTime c = 0)
  /\ (forall s t,
        properties w !! "lastProcessedTime" = Some s -> s <> [] ->
        parseInt s = Some t -> valid_time t = true ->
        exists c, ConfigService.getConfig w = (Ok c, w) /\ lastProcessedTime c = t)
  /\ (forall s,
        properties w !! "lastProcessedTime" = Some s -> s <> [] ->
        match parseInt s with
        | Some t => valid_time t = false
        | None => True
        end ->
        ConfigService.getConfig w = (Throw (lit "RangeError: Invalid time value"), w))
  /\ (forall c w',
        ConfigService.getConfig w = (Ok c, w') ->
        maxEmailsPerRun c
        = Some (match properties w !! "maxEmailsPerRun" with
                | None | Some [] => Some 100
                | Some s => parseInt s
                end)).
Proof.
  intros (F1 & F2 & F3 & F4 & Hlist).
  apply falsy_property_false in F1. destruct F1 as (c1 & s1 & H1).
  apply falsy_property_false in F2. destruct F2 as (c2 & s2 & H2).
  apply falsy_property_false in F3. destruct F3 as (c3 & s3 & H3).
  apply falsy_property_false in F4. destruct F4 as (c4 & s4 & H4).
  rewrite H4 in Hlist.
  rewrite (getConfig_present w (c1 :: s1) (c2 :: s2) (c3 :: s3) (c4 :: s4))
    by (assumption || discriminate).
  repeat split.
  - intros Hfalsy. unfold stored_watermark.
    destruct (properties w !! "lastProcessedTime") as [[|x s]|];
      try discriminate; eexists; (split; [reflexivity|reflexivity]).
  - intros s t Hs Hne Hparse Hvalid. unfold stored_watermark. rewrite Hs.
    destruct s as [|x s]; [congruence|]. rewrite Hparse, Hvalid.
    eexists. split; reflexivity.
  - intros s Hs Hne Hbad. unfold stored_watermark. rewrite Hs.
    destruct s as [|x s]; [congruence|].
    destruct (parseInt (x :: s)) as [t|]; [rewrite Hbad|]; reflexivity.
  - intros c w'.
    destruct (stored_watermark w) as [t|]; [|discriminate].
    destruct (valid_time t); [|discriminate].
    intros [= <- <-]. reflexivity.
Qed.

(** X16: the watermark round trip.  After [updateLastProcessedTime(t)],
    for a valid time [t], a configuration that loaded before loads again,
    the same but for the watermark, which is [t]; and of two updates the
    later one stays, whichever of the two times is larger. *)
Theorem watermark_round_trip (w : World) (c : AppConfig) (t : Z) :
  ConfigService.getConfig w = (Ok c, w) ->
  valid_time t = true ->
  ConfigService.updateLastProcessedTime t w = (Ok tt, advance t w)
  /\ ConfigService.getConfig (advance t w)
     = (Ok (set_lastProcessedTime t c), advance t w)
  /\ forall t', advance t (advance t' w) = advance t w.
Proof.
  intros Hrun Hvalid. split; [reflexivity|]. split.
  - destruct (getConfig_Ok_inv w w c Hrun)
      as (token & group & key & str & H1 & N1 & H2 & N2 & H3 & N3 & H4 & N4 & Hlist).
    rewrite (getConfig_present w token group key str) in Hrun by assumption.
    rewrite (getConfig_present (advance t w) token group key str);
      try assumption;
      try (unfold advance; cbn [properties set_properties];
           rewrite lookup_insert_ne by discriminate; assumption).
    rewrite stored_watermark_advance, Hvalid.
    destruct (stored_watermark w) as [t0|]; [|discriminate].
    destruct (valid_time t0); [|discriminate].
    injection Hrun as <-. unfold set_lastProcessedTime, stored_cap, advance.
    cbn [properties set_properties lineAccessToken lineGroupId geminiApiKey
         senderWhitelist maxEmailsPerRun].
    rewrite lookup_insert_ne by discriminate. reflexivity.
  - intros t'. unfold advance, set_properties. cbn [properties clock clock_reads
      mailbox line_endpoint line_requests gemini_endpoint gemini_requests sleeps log].
    rewrite insert_insert_eq. reflexivity.
Qed.

End KeyValueConfiguration.

Section Listing.

(** X17: [listProperties] lists every key of the store and no other.
    Under a key that includes [Token] or [Key] it shows at most the first
    ten code units of the value, followed by three dots (an empty value
    stays empty); every other value is shown in full.  Of the six
    properties of the application the access token and the API key are
    masked, the group id, the whitelist, the watermark and the cap are
    not.  The store is not changed. *)
Theorem listProperties_masks_secrets (w : World) :
  exists listed,
    ConfigService.listProperties w = (Ok listed, w)
    /\ (forall key, listed !! key = None <-> properties w !! key = None)
    /\ (forall key value,
          properties w !! key = Some value -> sensitive key = true ->
          listed !! key
          = Some (match value with
                  | [] => []
                  | _ => firstn 10 value ++ lit "..."
                  end)
          /\ forall shown, listed !! key = Some shown -> (length shown <= 13)%nat)
    /\ (forall key value,
          properties w !! key = Some value -> sensitive key = false ->
          listed !! key = Some value)
    /\ sensitive "lineAccessToken" = true /\ sensitive "geminiApiKey" = true
    /\ sensitive "lineGroupId" = false /\ sensitive "senderWhitelist" = false
    /\ sensitive "lastProcessedTime" = false /\ sensitive "maxEmailsPerRun" = false.
Proof.
  eexists. split; [reflexivity|].
  split; [|split; [|split; [|repeat split]]].
  - intros key. rewrite map_lookup_imap.
    destruct (properties w !! key); cbn; split; congruence.
  - intros key value Hkey Hs. rewrite map_lookup_imap, Hkey. cbn.
    unfold ConfigService.mask. unfold sensitive in Hs. rewrite Hs.
    split; [reflexivity|]. intros shown [= <-].
    destruct value as [|c r]; [cbn; lia|].
    rewrite length_app, length_firstn.
    change (length (lit "...")) with 3%nat. lia.
  - intros key value Hkey Hs. rewrite map_lookup_imap, Hkey. cbn.
    unfold ConfigService.mask. unfold sensitive in Hs. rewrite Hs. reflexivity.
Qed.

End Listing.

(** ** The configuration over one JSON property *)

Section Addresses.

Lemma plain_char_iff (c : N) : JsonConfigService.plain_char c = true <-> plain c.
Proof.
  unfold JsonConfigService.plain_char, plain.
  rewrite andb_true_iff, !negb_true_iff, N.eqb_neq. reflexivity.
Qed.

Lemma forallb_plain (s : jsstring) :
  forallb JsonConfigService.plain_char s = true <-> Forall plain s.
Proof.
  rewrite forallb_forall, List.Forall_forall.
  split; intros H x Hx; apply plain_char_iff, H, Hx.
Qed.

Lemma split_at_sign_Some (s l d : jsstring) :
  JsonConfigService.split_at_sign s = Some (l, d) ->
  s = l ++ [64%N] ++ d.
Proof.
  revert l. induction s as [|c r IH]; intros l H; [discriminate|].
  cbn [JsonConfigService.split_at_sign] in H.
  destruct (N.eqb_spec c 64) as [->|Hc].
  - injection H as <- <-. reflexivity.
  - destruct (JsonConfigService.split_at_sign r) as [[a d']|]; [|discriminate].
    injection H as <- <-. cbn [app]. f_equal. apply IH. reflexivity.
Qed.

Lemma split_at_sign_app (l d : jsstring) :
  Forall plain l ->
  JsonConfigService.split_at_sign (l ++ [64%N] ++ d) = Some (l, d).
Proof.
  intros Hl. induction Hl as [|c l [_ Hc] _ IH]; [reflexivity|].
  cbn [app JsonConfigService.split_at_sign].
  destruct (N.eqb_spec c 64); [congruence|].
  cbn [app] in IH. rewrite IH. reflexivity.
Qed.

Lemma existsb_dot (s : jsstring) :
  existsb (fun x => (x =? 46)%N) s = true <-> exists a b, s = a ++ [46%N] ++ b.
Proof.
  rewrite existsb_exists. split.
  - intros (x & Hin & Hx). apply N.eqb_eq in Hx. subst x.
    apply in_split in Hin. exact Hin.
  - intros (a & b & ->). exists 46%N. split; [|reflexivity].
    apply in_or_app. right. left. reflexivity.
Qed.

Lemma Forall_plain_app (a b : jsstring) :
  Forall plain (a ++ b) <-> Forall plain a /\ Forall plain b.
Proof. apply Forall_app. Qed.

Lemma plain_dot : plain 46.
Proof. split; [reflexivity|discriminate]. Qed.

(** X18: [isValidEmail] accepts exactly the texts of the shape
    local part, [@], domain, where neither part has white space or an
    [@], and the domain has a dot with something before and after it. *)
Theorem isValidEmail_iff (email : jsstring) :
  JsonConfigService.isValidEmail email = true <-> email_shape email.
Proof.
  unfold JsonConfigService.isValidEmail, email_shape. split.
  - destruct (JsonConfigService.split_at_sign email) as [[l d]|] eqn:Hsplit;
      [|discriminate].
    apply split_at_sign_Some in Hsplit. subst email.
    destruct l as [|c l]; [discriminate|]. destruct d as [|d0 d]; [discriminate|].
    rewrite !andb_true_iff, !forallb_plain, existsb_dot.
    intros [[Hl Hd] (a & b & Hdot)].
    assert (Hne : d <> []) by (intros ->; destruct a; discriminate).
    rewrite (app_removelast_last 0%N Hne) in Hd |- *. rewrite Hdot in Hd |- *.
    exists (c :: l), (d0 :: a), (b ++ [List.last d 0%N]).
    split; [cbn [app]; rewrite <- !app_assoc; reflexivity|].
    split; [discriminate|]. split; [discriminate|].
    split; [destruct b; discriminate|].
    split; [exact Hl|].
    change (d0 :: (a ++ [46%N] ++ b) ++ [List.last d 0%N])
      with ((d0 :: a ++ [46%N] ++ b) ++ [List.last d 0%N]) in Hd.
    apply Forall_plain_app in Hd. destruct Hd as [Hd1 Hlast].
    change (d0 :: a ++ [46%N] ++ b) with ((d0 :: a) ++ [46%N] ++ b) in Hd1.
    apply Forall_plain_app in Hd1. destruct Hd1 as [Ha Hb].
    apply Forall_plain_app in Hb. destruct Hb as [_ Hb].
    split; [exact Ha|]. apply Forall_plain_app. split; assumption.
  - intros (l & a & b & -> & Hl & Ha & Hb & Pl & Pa & Pb).
    rewrite (split_at_sign_app l (a ++ [46%N] ++ b) Pl).
    destruct l as [|c l]; [congruence|]. destruct a as [|d0 a]; [congruence|].
    cbn [app]. rewrite !andb_true_iff.
    split; [split|].
    + apply forallb_plain. exact Pl.
    + change (d0 :: a ++ 46%N :: b) with ((d0 :: a) ++ [46%N] ++ b).
      apply forallb_plain. apply Forall_plain_app. split; [exact Pa|].
      apply Forall_plain_app. split; [constructor; [exact plain_dot|constructor]|exact Pb].
    + apply existsb_dot. exists a, (removelast b).
      change (a ++ 46%N :: b) with (a ++ (46%N :: b)).
      rewrite removelast_app by discriminate.
      cbn [removelast]. destruct b; [congruence|reflexivity].
Qed.

End Addresses.


Section JsonConfiguration.
Variable P : Platform.

Lemma first_invalid_email_strings (l : list jsstring) :
  JsonConfigService.first_invalid_email (map JStr l) = None
  <-> Forall (fun email => JsonConfigService.isValidEmail email = true) l.
Proof.
  induction l as [|e r IH]; cbn [JsonConfigService.first_invalid_email map Val.toString].
  - split; [constructor|reflexivity].
  - destruct (JsonConfigService.isValidEmail e) eqn:He.
    + rewrite IH. split; [now constructor|now inversion 1].
    + split; [discriminate|]. inversion 1; congruence.
Qed.

(** The validation of a configuration at the declared types returns,
    and accepts exactly the valid ones. *)
Lemma validateConfig_declared (config : jsval) (token group : jsstring)
    (senders : list jsstring) (w : World) :
  declared_types config token group senders ->
  exists v,
    JsonConfigService.validateConfig P config w = (Ok v, w)
    /\ (v = JsonConfigService.success
        <-> valid_configuration config token group senders).
Proof.
  intros (Hguard & Htok & Hgrp & Hwl & Hconf & Hcap).
  unfold JsonConfigService.validateConfig, valid_configuration.
  rewrite Hguard. cbn [negb]. cbv zeta. rewrite Htok, Hgrp, Hwl.
  cbn [Val.truthy Val.length_of].
  change (Coerce.lt P (JNum (Z.of_nat (length token))) 50)
    with (Z.of_nat (length token) <? 50).
  rewrite length_map.
  assert (Hfail : forall reason (Q : Prop),
            ~ Q ->
            exists v,
              ret (JsonConfigService.failure reason) w = (Ok v, w)
              /\ (v = JsonConfigService.success <-> Q)).
  { intros reason Q HQ. eexists. split; [reflexivity|].
    split; [discriminate|]. intros HQ'. contradiction. }
  destruct (Z.ltb_spec (Z.of_nat (length token)) 50) as [Hshort|Hlong].
  { rewrite orb_true_r. apply Hfail. intros (H & _). lia. }
  destruct token as [|c token']; [cbn in Hlong; lia|]. cbn [negb orb].
  destruct group as [|g group'].
  { cbn [negb]. apply Hfail. intros (_ & H & _). discriminate H. }
  cbn [negb].
  destruct (startsWith (g :: group') (lit "C")) eqn:HC; cbn [negb].
  2:{ apply Hfail. intros (_ & H & _). discriminate H. }
  destruct senders as [|e l].
  { apply Hfail. intros (_ & _ & H & _). now apply H. }
  change (length (e :: l) =? 0)%nat with false. cbv iota.
  destruct (JsonConfigService.first_invalid_email (map JStr (e :: l))) as [bad|] eqn:Hbad.
  { apply Hfail. intros (_ & _ & _ & H & _).
    apply first_invalid_email_strings in H. congruence. }
  apply first_invalid_email_strings in Hbad.
  assert (Hconf_ok :
            JsonConfigService.defined (Val.get_opt (lit "extractionConfidence") config)
            && (Coerce.lt P (Val.get_opt (lit "extractionConfidence") config) 0
                || Coerce.gt P (Val.get_opt (lit "extractionConfidence") config) 1)
            = false
            <-> within 0 (Some 1) (Val.get_opt (lit "extractionConfidence") config)).
  { destruct (Val.get_opt (lit "extractionConfidence") config)
      as [| | |z|[below numeral| |negative]| | |]; try contradiction;
      unfold Coerce.lt, Coerce.gt, Coerce.toNumber;
      cbn [JsonConfigService.defined Val.toPrimitive Num.ltb Num.gtb within andb orb].
    - split; [intros _; exact I|reflexivity].
    - destruct (Z.ltb_spec z 0), (Z.ltb_spec 1 z); cbn [orb];
        split; try discriminate; try (intros; lia); try reflexivity;
        intros _; lia.
    - destruct (Z.ltb_spec below 0), (Z.leb_spec 1 below); cbn [orb];
        split; try discriminate; try (intros; lia); try reflexivity;
        intros _; lia.
    - split; [intros _; exact I|reflexivity].
    - destruct negative; cbn [negb orb]; split; try discriminate;
        intros [_ H]; discriminate H. }
  assert (Hcap_ok :
            JsonConfigService.defined (Val.get_opt (lit "maxEmailsPerRun") config)
            && Coerce.lt P (Val.get_opt (lit "maxEmailsPerRun") config) 1
            = false
            <-> within 1 None (Val.get_opt (lit "maxEmailsPerRun") config)).
  { destruct (Val.get_opt (lit "maxEmailsPerRun") config)
      as [| | |z|[below numeral| |negative]| | |]; try contradiction;
      unfold Coerce.lt, Coerce.toNumber;
      cbn [JsonConfigService.defined Val.toPrimitive Num.ltb within andb].
    - split; [intros _; exact I|reflexivity].
    - destruct (Z.ltb_spec z 1).
      + split; [discriminate|intros [Hz _]; lia].
      + split; [intros _; split; [lia|exact I]|reflexivity].
    - destruct (Z.ltb_spec below 1).
      + split; [discriminate|intros [Hz _]; lia].
      + split; [intros _; split; [lia|exact I]|reflexivity].
    - split; [intros _; exact I|reflexivity].
    - destruct negative; split; try discriminate; try reflexivity.
      + intros [H _]; discriminate H.
      + intros _. split; reflexivity. }
  destruct (JsonConfigService.defined (Val.get_opt (lit "extractionConfidence") config)
            && (Coerce.lt P (Val.get_opt (lit "extractionConfidence") config) 0
                || Coerce.gt P (Val.get_opt (lit "extractionConfidence") config) 1))
    eqn:Hc1.
  { apply Hfail. intros (_ & _ & _ & _ & H & _).
    apply Hconf_ok in H. discriminate H. }
  destruct (JsonConfigService.defined (Val.get_opt (lit "maxEmailsPerRun") config)
            && Coerce.lt P (Val.get_opt (lit "maxEmailsPerRun") config) 1) eqn:Hc2.
  { apply Hfail. intros (_ & _ & _ & _ & _ & H).
    apply Hcap_ok in H. discriminate H. }
  exists JsonConfigService.success. split; [reflexivity|].
  split; [|reflexivity]. intros _.
  split; [lia|]. split; [reflexivity|].
  split; [discriminate|]. split; [exact Hbad|].
  split; [apply Hconf_ok; reflexivity|apply Hcap_ok; reflexivity].
Qed.

(** X19: [setConfig] stores a configuration at the declared types only
    after it passed the validation: an access token of at least 50 code
    units, a group id that starts with [C], a whitelist of at least one
    address, all of them of the shape [isValidEmail] accepts, a
    confidence that, if present, is not below 0 and not above 1, a cap
    that, if present, is not below 1 (NaN is below and above nothing,
    and passes both).  Then the property [config] holds the JSON text of
    the object.  Otherwise it raises an error that starts with
    [Invalid configuration: ] and the store is left as it was. *)
Theorem setConfig_stores_valid_only (config : jsval) (token group : jsstring)
    (senders : list jsstring) (w : World) :
  declared_types config token group senders ->
  (valid_configuration config token group senders ->
   JsonConfigService.setConfig P config w = (Ok tt, write_config P config w))
  /\ (forall w',
        JsonConfigService.setConfig P config w = (Ok tt, w') ->
        valid_configuration config token group senders
        /\ w' = write_config P config w)
  /\ (forall e w',
        JsonConfigService.setConfig P config w = (Throw e, w') ->
        ~ valid_configuration config token group senders
        /\ w' = w /\ startsWith e (lit "Invalid configuration: ") = true).
Proof.
  intros Htyped.
  destruct (validateConfig_declared config token group senders w Htyped)
    as (v & Hv & Hiff).
  unfold JsonConfigService.setConfig, bind. rewrite Hv. split; [|split].
  - intros Hvalid. apply Hiff in Hvalid. subst v. reflexivity.
  - intros w'. destruct v as [|reason]; [|discriminate].
    intros [= <-]. split; [now apply Hiff|reflexivity].
  - intros e w'. destruct v as [|reason]; [discriminate|].
    unfold throw. intros Heq.
    assert (He : e = lit "Invalid configuration: " ++ reason) by congruence.
    assert (Hw : w' = w) by congruence.
    subst e w'. split; [|split; [reflexivity|apply startsWith_app]].
    intros Hvalid. apply Hiff in Hvalid. discriminate Hvalid.
Qed.

Lemma assoc_set_field_ne (k k' : jsstring) (v : jsval) :
  k <> k' ->
  forall fields,
    Val.assoc k' (JsonConfigService.set_field k v fields) = Val.assoc k' fields.
Proof.
  intros Hne. induction fields as [|[k0 v0] r IH];
    cbn [JsonConfigService.set_field Val.assoc].
  - unfold Js.eqb. rewrite bool_decide_eq_false_2 by congruence. reflexivity.
  - destruct (Js.eqb k k0) eqn:E; cbn [Val.assoc].
    + unfold Js.eqb in E. apply bool_decide_eq_true_1 in E. subst k0.
      unfold Js.eqb. rewrite bool_decide_eq_false_2 by congruence. reflexivity.
    + destruct (Js.eqb k' k0); [reflexivity|exact IH].
Qed.

Lemma has_key_set_field_ne (k k' : jsstring) (v : jsval) :
  k <> k' ->
  forall fields,
    JsonConfigService.has_key k' (JsonConfigService.set_field k v fields)
    = JsonConfigService.has_key k' fields.
Proof.
  intros Hne. unfold JsonConfigService.has_key.
  induction fields as [|[k0 v0] r IH];
    cbn [JsonConfigService.set_field existsb fst].
  - unfold Js.eqb. rewrite bool_decide_eq_false_2 by congruence. reflexivity.
  - destruct (Js.eqb k k0) eqn:E; cbn [existsb fst]; [reflexivity|].
    now rewrite IH.
Qed.

(** The validation does not look at the watermark. *)
Lemma validateConfig_ignores_watermark (t : Z) (fields : list (jsstring * jsval))
    (w : World) :
  JsonConfigService.validateConfig P (with_watermark t fields) w
  = JsonConfigService.validateConfig P (JObj fields) w.
Proof.
  unfold JsonConfigService.validateConfig, JsonConfigService.isAppConfig,
    with_watermark, Val.get_opt, Val.get.
  rewrite !has_key_set_field_ne by (intros H; vm_compute in H; discriminate H).
  rewrite !assoc_set_field_ne by (intros H; vm_compute in H; discriminate H).
  reflexivity.
Qed.

(** The validation is a function of the configuration alone. *)
Lemma validateConfig_any_world (config : jsval) (w1 w2 : World) :
  fst (JsonConfigService.validateConfig P config w1)
  = fst (JsonConfigService.validateConfig P config w2).
Proof.
  unfold JsonConfigService.validateConfig, ret, throw.
  repeat match goal with
         | |- context [if ?b then _ else _] => destruct b
         | |- context [match ?x with _ => _ end] => destruct x
         end; reflexivity.
Qed.

(** A stored configuration that the validation does not accept: the
    update raises, whatever else the world holds. *)
Lemma update_blocked (w w0 : World) (config : jsval) (t : Z) :
  read_config P (properties w) = Ok config ->
  fst (JsonConfigService.validateConfig P config w0) <> Ok JsonConfigService.success ->
  exists e,
    JsonConfigService.updateLastProcessedTime P t w = (Throw e, w)
    /\ match fst (JsonConfigService.validateConfig P config w0) with
       | Ok (JsonConfigService.failure reason) =>
           e = lit "Invalid configuration: " ++ reason
       | Throw e' => e = e'
       | Ok JsonConfigService.success => False
       end.
Proof.
  intros Hread Hinvalid.
  unfold JsonConfigService.updateLastProcessedTime, bind at 1.
  rewrite getConfig_eq_json, Hread.
  destruct (read_config_object P _ _ Hread) as (_ & fields & ->).
  fold (with_watermark t fields).
  unfold JsonConfigService.setConfig, bind.
  rewrite validateConfig_ignores_watermark.
  rewrite (proj1 (validateConfig_pure P (JObj fields) w)).
  rewrite (validateConfig_any_world (JObj fields) w0 w) in Hinvalid |- *.
  destruct (fst (JsonConfigService.validateConfig P (JObj fields) w))
    as [[|reason]|e].
  - congruence.
  - eexists. split; reflexivity.
  - eexists. split; reflexivity.
Qed.

(** X20: a stored configuration that [getConfig] loads but that
    [validateConfig] does not accept, for example with an access token of
    fewer than 50 code units or with a group id that is a number, can
    never have its watermark updated: every [updateLastProcessedTime]
    raises, with [Invalid configuration: ] and the reason of the
    validation, or with the error that the validation raised, and the
    store is left as it was. *)
Theorem invalid_configuration_blocks_update (w : World) (config : jsval) (t : Z) :
  JsonConfigService.getConfig P w = (Ok config, w) ->
  fst (JsonConfigService.validateConfig P config w) <> Ok JsonConfigService.success ->
  exists e,
    JsonConfigService.updateLastProcessedTime P t w = (Throw e, w)
    /\ match fst (JsonConfigService.validateConfig P config w) with
       | Ok (JsonConfigService.failure reason) =>
           e = lit "Invalid configuration: " ++ reason
       | Throw e' => e = e'
       | Ok JsonConfigService.success => False
       end.
Proof.
  intros Hload Hinvalid. rewrite getConfig_eq_json in Hload.
  apply (update_blocked w w config t); [congruence|exact Hinvalid].
Qed.

(** X21: the watermark round trip of the JSON store.  When
    [updateLastProcessedTime(t)] returns, the store held an object that
    [getConfig] loads, and, if the platform reads the text that was
    written back as the object written, [getConfig] now loads the same
    object but for the watermark, which is the number [t]. *)
Theorem json_watermark_round_trip (w w' : World) (t : Z) :
  JsonConfigService.updateLastProcessedTime P t w = (Ok tt, w') ->
  exists fields,
    JsonConfigService.getConfig P w = (Ok (JObj fields), w)
    /\ watermark_of (with_watermark t fields) = JNum t
    /\ (JSON_stringify P (with_watermark t fields) <> [] ->
        JSON_parse P (JSON_stringify P (with_watermark t fields))
        = Some (with_watermark t fields) ->
        JsonConfigService.getConfig P w' = (Ok (with_watermark t fields), w')).
Proof.
  intros Hupdate.
  apply updateLastProcessedTime_effect in Hupdate.
  destruct Hupdate as (fields & Hread & Hguard & ->).
  exists fields. rewrite getConfig_eq_json, Hread.
  split; [reflexivity|]. split; [apply watermark_of_with_watermark|].
  intros Hne Hparse.
  rewrite getConfig_eq_json. unfold read_config, write_config.
  cbn [properties set_properties]. rewrite lookup_insert_eq.
  destruct (JSON_stringify P (with_watermark t fields)) as [|x s] eqn:Htext;
    [congruence|].
  rewrite Hparse, Hguard. reflexivity.
Qed.

End JsonConfiguration.

(** ** The sender filter *)

Section SenderFilter.
Variable P : Platform.

Lemma span_not_gt_app (address rest : jsstring) :
  ~ In 62%N address ->
  EmailServiceFilter.span_not_gt (address ++ 62%N :: rest) = (address, 62%N :: rest).
Proof.
  induction address as [|c a IH]; intros Hfree.
  - reflexivity.
  - cbn [app EmailServiceFilter.span_not_gt].
    destruct (N.eqb_spec c 62) as [->|Hc]; [exfalso; apply Hfree; now left|].
    rewrite IH by (intros Hin; apply Hfree; now right). reflexivity.
Qed.

Lemma angle_match_display (name address rest : jsstring) :
  ~ In 60%N name -> address <> [] -> ~ In 62%N address ->
  EmailServiceFilter.angle_match (name ++ [60%N] ++ address ++ [62%N] ++ rest)
  = Some address.
Proof.
  intros Hname Hne Hfree. induction name as [|c name IH].
  - cbn [app EmailServiceFilter.angle_match]. change (60 =? 60)%N with true. cbv iota.
    rewrite span_not_gt_app by exact Hfree.
    destruct address; [congruence|reflexivity].
  - cbn [app EmailServiceFilter.angle_match].
    destruct (N.eqb_spec c 60) as [->|Hc]; [exfalso; apply Hname; now left|].
    apply IH. intros Hin. apply Hname. now right.
Qed.

Lemma angle_match_bare (s : jsstring) :
  ~ In 60%N s -> EmailServiceFilter.angle_match s = None.
Proof.
  induction s as [|c s IH]; intros Hfree; [reflexivity|].
  cbn [EmailServiceFilter.angle_match].
  destruct (N.eqb_spec c 60) as [->|Hc]; [exfalso; apply Hfree; now left|].
  apply IH. intros Hin. apply Hfree. now right.
Qed.

(** X22: which address the sender filter compares.  For a sender of the
    form [Name <address>] it is the address between the first [<] and
    the next [>]; for a sender without a [<] it is the whole field.  The
    message passes when the lower-cased address is the lower-cased form of
    some whitelist entry; with an empty whitelist no message passes. *)
Theorem isAllowed_compares_address (senderWhitelist : list jsstring)
    (email : EmailMessage) :
  (forall name address rest,
      from email = name ++ [60%N] ++ address ++ [62%N] ++ rest ->
      ~ In 60%N name -> address <> [] -> ~ In 62%N address ->
      EmailServiceFilter.isAllowed P senderWhitelist email
      = existsb (fun whitelisted =>
                   Js.eqb (toLowerCase P whitelisted) (toLowerCase P address))
          senderWhitelist)
  /\ (~ In 60%N (from email) ->
      EmailServiceFilter.isAllowed P senderWhitelist email
      = existsb (fun whitelisted =>
                   Js.eqb (toLowerCase P whitelisted) (toLowerCase P (from email)))
          senderWhitelist)
  /\ EmailServiceFilter.isAllowed P [] email = false
  /\ forall emails, EmailServiceFilter.filterBySender P emails [] = [].
Proof.
  unfold EmailServiceFilter.isAllowed. repeat split.
  - intros name address rest -> Hname Hne Hfree.
    rewrite angle_match_display by assumption. reflexivity.
  - intros Hfree. rewrite angle_match_bare by exact Hfree. reflexivity.
  - intros emails. unfold EmailServiceFilter.filterBySender.
    induction emails as [|e l IH]; [reflexivity|exact IH].
Qed.

End SenderFilter.

(** ** The runs of the orchestrator *)

Section RunTraces.
Variable P : Platform.

Lemma watermark_after_cons (email : EmailMessage) (l : list EmailMessage)
    (p : gmap string jsstring) :
  watermark_after (email :: l) p
  = watermark_after l
      (<["lastProcessedTime" := Number_toString (receivedDate email)]> p).
Proof.
  unfold watermark_after. rewrite last_cons.
  destruct (last l); [|reflexivity]. now rewrite insert_insert_eq.
Qed.

(** One visit: what it adds to each trace, and what it stores. *)
Lemma visit_trace (email : EmailMessage) (config : AppConfig)
    (w w' : World) (r : Result nat) :
  RunOrchestrator.processEmail P email config w = (r, w') ->
  log w' = log w ++ [event_of email]
  /\ gemini_requests w' = gemini_requests w ++ [prompt_of email]
  /\ (exists notes,
        line_requests w' = line_requests w ++ notes /\ Forall is_notification notes)
  /\ same_services w w'
  /\ properties w'
     = match r with
       | Ok _ => watermark_after [email] (properties w)
       | Throw _ => properties w
       end.
Proof.
  intros Hrun.
  destruct (processEmail_effect P email config w w' r Hrun) as (Hlog & Hsame & Hstore).
  pose proof (processEmail_requests P email config w w' r Hrun) as Hnotes.
  split; [exact Hlog|]. split; [|split; [exact Hnotes|split; [exact Hsame|]]].
  - rewrite processEmail_eq in Hrun.
    destruct (extractTodos_world P (body_of email) (id email) (from email)
                (subject email) (add_log (event_of email) w)) as [n Hn].
    destruct (ticks_fields n
                (add_gemini_request
                   (GeminiService.buildExtractionPrompt (body_of email) (subject email))
                   (add_log (event_of email) w)))
      as (_ & _ & _ & _ & _ & _ & _ & T8 & _).
    destruct (GeminiService.extractTodos P (body_of email) (id email) (from email)
                (subject email) (add_log (event_of email) w)) as [[todos|e] w1];
      cbn [snd] in Hn; rewrite <- Hn in T8; cbn [gemini_requests add_gemini_request
                                                 add_log] in T8.
    + destruct (MessageFormatter.formatTodosForLine todos (from email) (subject email))
        as [|c m].
      * injection Hrun as _ <-. exact T8.
      * destruct (LineService.pushMessage P (lineAccessToken config)
                    (lineGroupId config) (c :: m) w1) as [[response|e] w2] eqn:Hpush;
          apply pushMessage_frame in Hpush;
          destruct Hpush as (k & zs & _ & _ & _ & _ & _ & _ & _ & H7 & _);
          injection Hrun as _ <-; cbn [gemini_requests advance set_properties];
          rewrite H7; exact T8.
    + injection Hrun as _ <-. exact T8.
  - destruct r; [|exact Hstore]. exact Hstore.
Qed.

(** The loop over the fetched messages. *)
Lemma loop_trace (config : AppConfig) (startTime : Z) :
  forall (emails : list EmailMessage) (total : nat) (w w' : World) (r : Result nat),
    RunOrchestrator.processFilteredEmails_from P emails config startTime total w
    = (r, w') ->
    exists k notes,
      (k <= length emails)%nat
      /\ Forall is_notification notes
      /\ line_requests w' = line_requests w ++ notes
      /\ gemini_requests w' = gemini_requests w ++ map prompt_of (firstn k emails)
      /\ log w' = log w ++ map event_of (firstn k emails)
      /\ match r with
         | Ok _ => properties w' = watermark_after (firstn k emails) (properties w)
         | Throw _ =>
             (1 <= k)%nat
             /\ properties w'
                = watermark_after (firstn (k - 1) emails) (properties w)
         end.
Proof.
  induction emails as [|email rest IH]; intros total w w' r Hrun.
  - cbn in Hrun. unfold ret in Hrun. injection Hrun as <- <-.
    exists 0%nat, []. cbn. rewrite !app_nil_r. repeat split; constructor.
  - cbn [RunOrchestrator.processFilteredEmails_from] in Hrun.
    unfold bind at 1, now at 1 in Hrun.
    destruct (MAX_EXECUTION_TIME_MS <? clock w (clock_reads w) - startTime).
    + unfold ret in Hrun. injection Hrun as <- <-.
      exists 0%nat, []. cbn. rewrite !app_nil_r.
      repeat split; try constructor; lia.
    + unfold bind at 1 in Hrun.
      destruct (RunOrchestrator.processEmail P email config (tick w))
        as [[n|e] w1] eqn:Hvisit;
        apply visit_trace in Hvisit;
        destruct Hvisit as (Hlog & Hprompt & (notes1 & Hreq & Hall) & _ & Hstore);
        cbn [log gemini_requests line_requests properties tick] in *.
      * apply IH in Hrun.
        destruct Hrun as (k & notes2 & Hk & Hall2 & Hreq2 & Hprompt2 & Hlog2 & Hstore2).
        exists (S k), (notes1 ++ notes2). cbn [firstn map length].
        split; [lia|]. split; [apply Forall_app; split; assumption|].
        split; [rewrite Hreq2, Hreq, <- app_assoc; reflexivity|].
        split; [rewrite Hprompt2, Hprompt, <- app_assoc; reflexivity|].
        split; [rewrite Hlog2, Hlog, <- app_assoc; reflexivity|].
        destruct r as [total'|e].
        -- rewrite Hstore2, Hstore, (watermark_after_cons email (firstn k rest)).
           reflexivity.
        -- destruct Hstore2 as [Hk1 Hstore2]. split; [lia|].
           rewrite Hstore2, Hstore.
           replace (S k - 1)%nat with (S (k - 1)) by lia.
           cbn [firstn]. rewrite (watermark_after_cons email (firstn (k - 1) rest)).
           reflexivity.
      * injection Hrun as <- <-.
        exists 1%nat, notes1. cbn [firstn map length].
        split; [lia|]. split; [exact Hall|]. split; [exact Hreq|].
        split; [exact Hprompt|]. split; [exact Hlog|].
        split; [lia|exact Hstore].
Qed.

(** The summary at the end of a run. *)
Lemma summary_trace (config : AppConfig) (found total : nat) (secs : jsstring)
    (s : RunStatus) (e : option jsstring) (w : World) :
  exists w' n,
    RunOrchestrator.sendRunSummary P config found total secs s e w = (Ok tt, w')
    /\ (1 <= n <= 4)%nat
    /\ line_requests w'
       = line_requests w
         ++ repeat (summary_request config
                      (RunOrchestrator.summary_text
                         (toLocaleString P (clock w (clock_reads w)))
                         found total secs s e)) n
    /\ gemini_requests w' = gemini_requests w
    /\ log w' = log w
    /\ properties w' = properties w.
Proof.
  destruct (sendRunSummary_effect P config found total secs s e w)
    as (w' & n & zs & Hrun & Hn & H1 & _ & _ & _ & _ & _ & H7 & H8 & H9 & _).
  exists w', n. repeat split; try assumption; lia.
Qed.

(** A whole run, once the configuration has loaded and the search has
    returned. *)
Lemma processEmails_trace (w w' : World) (r : Result unit) (config : AppConfig)
    (threads : list GmailThread) :
  ConfigService.getConfig w = (Ok config, w) ->
  mailbox w (EmailService.query P (lastProcessedTime config) (senderWhitelist config))
    0 (of_number (EmailService_new (maxEmailsPerRun config))) = Some threads ->
  RunOrchestrator.processEmails P w = (r, w') ->
  let emails := new_messages (lastProcessedTime config) threads in
  exists k notes n timestamp,
    (k <= length emails)%nat
    /\ Forall is_notification notes
    /\ (1 <= n <= 4)%nat
    /\ gemini_requests w' = gemini_requests w ++ map prompt_of (firstn k emails)
    /\ log w' = log w ++ map event_of (firstn k emails)
    /\ match r with
       | Ok _ =>
           properties w' = watermark_after (firstn k emails) (properties w)
           /\ exists found total secs,
                (found = length emails \/ (found = 0 /\ k = 0)%nat)
                /\ line_requests w'
                   = line_requests w ++ notes
                     ++ repeat (summary_request config
                                  (RunOrchestrator.summary_text timestamp found total
                                     secs Completed None)) n
       | Throw e =>
           (1 <= k)%nat
           /\ properties w' = watermark_after (firstn (k - 1) emails) (properties w)
           /\ line_requests w'
              = line_requests w ++ notes
                ++ repeat (summary_request config
                             (RunOrchestrator.summary_text timestamp 0 0 (lit "0.00")
                                Failed (Some e))) n
       end.
Proof.
  intros Hconfig Hsearch Hrun emails. apply getConfig_tick in Hconfig.
  revert Hrun. unfold RunOrchestrator.processEmails.
  unfold bind at 1, now at 1. unfold bind at 1. rewrite Hconfig.
  unfold bind at 1. unfold RunOrchestrator.fetchEmails.
  unfold bind at 1. rewrite fetchNewEmails_eq.
  change (mailbox (tick w)) with (mailbox w). rewrite Hsearch.
  fold emails. unfold bind at 1, now at 1.
  assert (Hquiet :
            (try_catch
               (processingEndTime <- now ;;
                RunOrchestrator.sendRunSummary P config 0 0
                  (toFixed2 P (processingEndTime - clock w (clock_reads w)))
                  Completed None)
               (fun e =>
                  now ;;
                  RunOrchestrator.sendRunSummary P config 0 0 (lit "0.00")
                    Failed (Some e) ;;
                  throw e) (tick (tick w))) = (r, w') ->
            exists k notes n timestamp,
              (k <= length emails)%nat
              /\ Forall is_notification notes
              /\ (1 <= n <= 4)%nat
              /\ gemini_requests w' = gemini_requests w ++ map prompt_of (firstn k emails)
              /\ log w' = log w ++ map event_of (firstn k emails)
              /\ match r with
                 | Ok _ =>
                     properties w' = watermark_after (firstn k emails) (properties w)
                     /\ exists found total secs,
                          (found = length emails \/ (found = 0 /\ k = 0)%nat)
                          /\ line_requests w'
                             = line_requests w ++ notes
                               ++ repeat (summary_request config
                                            (RunOrchestrator.summary_text timestamp
                                               found total secs Completed None)) n
                 | Throw e =>
                     (1 <= k)%nat
                     /\ properties w'
                        = watermark_after (firstn (k - 1) emails) (properties w)
                     /\ line_requests w'
                        = line_requests w ++ notes
                          ++ repeat (summary_request config
                                       (RunOrchestrator.summary_text timestamp 0 0
                                          (lit "0.00") Failed (Some e))) n
                 end).
  { unfold try_catch. unfold bind at 1, now at 1.
    match goal with
    | |- context [RunOrchestrator.sendRunSummary P ?c ?a ?b ?x ?s ?e ?w1] =>
        destruct (summary_trace c a b x s e w1)
          as (w2 & n & Hsum & Hn & Hreq & Hprompt & Hlog & Hstore)
    end.
    rewrite Hsum. intros [= <- <-].
    exists 0%nat, [], n. eexists.
    split; [lia|]. split; [constructor|]. split; [exact Hn|].
    cbn [firstn map]. rewrite !app_nil_r.
    split; [exact Hprompt|]. split; [exact Hlog|].
    split; [exact Hstore|].
    exists 0%nat, 0%nat. eexists. split; [right; split; reflexivity|].
    cbn [app]. exact Hreq. }
  destruct (MAX_EXECUTION_TIME_MS <?
            clock (tick w) (clock_reads (tick w)) - clock w (clock_reads w)).
  { unfold ret at 1. change (length (@nil EmailMessage) =? 0)%nat with true.
    cbv iota. exact Hquiet. }
  unfold ret at 1.
  destruct emails as [|email rest] eqn:Hemails.
  { change (length (@nil EmailMessage) =? 0)%nat with true. cbv iota. exact Hquiet. }
  clear Hquiet.
  change (length (email :: rest) =? 0)%nat with false. cbv iota.
  unfold try_catch. unfold bind at 1. unfold RunOrchestrator.processFilteredEmails.
  destruct (RunOrchestrator.processFilteredEmails_from P (email :: rest) config
              (clock w (clock_reads w)) 0 (tick (tick w))) as [[total|e] w3] eqn:Hloop;
    apply loop_trace in Hloop;
    destruct Hloop as (k & notes & Hk & Hall & Hreq & Hprompt & Hlog & Hstore);
    cbn [line_requests gemini_requests log properties tick] in Hreq, Hprompt, Hlog, Hstore.
  - unfold bind at 1, now at 1.
    match goal with
    | |- context [RunOrchestrator.sendRunSummary P ?c ?a ?b ?x ?s ?e0 ?w1] =>
        destruct (summary_trace c a b x s e0 w1)
          as (w2 & n & Hsum & Hn & Hreq2 & Hprompt2 & Hlog2 & Hstore2)
    end.
    rewrite Hsum. intros [= <- <-].
    exists k, notes, n. eexists.
    split; [exact Hk|]. split; [exact Hall|]. split; [exact Hn|].
    split; [rewrite Hprompt2; exact Hprompt|].
    split; [rewrite Hlog2; exact Hlog|].
    split; [rewrite Hstore2; exact Hstore|].
    exists (length (email :: rest)), total. eexists.
    split; [left; reflexivity|].
    rewrite Hreq2. cbn [line_requests tick]. rewrite Hreq, <- app_assoc. reflexivity.
  - unfold bind at 1, now at 1. unfold bind at 1.
    match goal with
    | |- context [RunOrchestrator.sendRunSummary P ?c ?a ?b ?x ?s ?e0 ?w1] =>
        destruct (summary_trace c a b x s e0 w1)
          as (w2 & n & Hsum & Hn & Hreq2 & Hprompt2 & Hlog2 & Hstore2)
    end.
    rewrite Hsum. unfold throw. intros [= <- <-].
    destruct Hstore as [Hk1 Hstore].
    exists k, notes, n. eexists.
    split; [exact Hk|]. split; [exact Hall|]. split; [exact Hn|].
    split; [rewrite Hprompt2; exact Hprompt|].
    split; [rewrite Hlog2; exact Hlog|].
    split; [exact Hk1|]. split; [rewrite Hstore2; exact Hstore|].
    rewrite Hreq2. cbn [line_requests tick]. rewrite Hreq, <- app_assoc. reflexivity.
Qed.

End RunTraces.

Section RunProperties.
Variable P : Platform.

Lemma stored_watermark_after (visited : list EmailMessage) (w w' : World) :
  properties w' = watermark_after visited (properties w) ->
  stored_watermark w'
  = match last visited with
    | Some email => Some (receivedDate email)
    | None => stored_watermark w
    end.
Proof.
  unfold watermark_after, stored_watermark. intros ->.
  destruct (last visited) as [email|]; [|reflexivity].
  rewrite lookup_insert_eq.
  pose proof (Number_toString_nonempty (receivedDate email)) as Hne.
  destruct (Number_toString (receivedDate email)) as [|c s] eqn:Htext; [congruence|].
  rewrite <- Htext. apply parseInt_Number_toString.
Qed.

(** X24: a run sends one prompt to the generative endpoint for each
    message it visits, in the order of the visits, and no other: a
    message is never asked about twice in a run, and a message that is
    not visited costs no request. *)
Theorem run_prompts_once_per_visit (w : World) (config : AppConfig)
    (threads : list GmailThread) :
  ConfigService.getConfig w = (Ok config, w) ->
  mailbox w (EmailService.query P (lastProcessedTime config) (senderWhitelist config))
    0 (of_number (EmailService_new (maxEmailsPerRun config))) = Some threads ->
  let w' := snd (RunOrchestrator.processEmails P w) in
  exists k,
    let visited := firstn k (new_messages (lastProcessedTime config) threads) in
    log w' = log w ++ map event_of visited
    /\ gemini_requests w' = gemini_requests w ++ map prompt_of visited.
Proof.
  intros Hconfig Hsearch w'.
  destruct (processEmails_trace P w w' (fst (RunOrchestrator.processEmails P w))
              config threads Hconfig Hsearch (surjective_pairing _))
    as (k & notes & n & ts & _ & _ & _ & Hprompt & Hlog & _).
  exists k. split; [exact Hlog|exact Hprompt].
Qed.

(** X25: a run that returns has stored the received time of the message it
    visited last (the store is as before when it visited none), whatever
    the received times of the messages visited before it. *)
Theorem completed_run_stores_last_visited (w w' : World) (config : AppConfig)
    (threads : list GmailThread) :
  ConfigService.getConfig w = (Ok config, w) ->
  mailbox w (EmailService.query P (lastProcessedTime config) (senderWhitelist config))
    0 (of_number (EmailService_new (maxEmailsPerRun config))) = Some threads ->
  RunOrchestrator.processEmails P w = (Ok tt, w') ->
  exists k,
    let visited := firstn k (new_messages (lastProcessedTime config) threads) in
    log w' = log w ++ map event_of visited
    /\ properties w' = watermark_after visited (properties w)
    /\ stored_watermark w'
       = match last visited with
         | Some email => Some (receivedDate email)
         | None => stored_watermark w
         end.
Proof.
  intros Hconfig Hsearch Hrun.
  destruct (processEmails_trace P w w' (Ok tt) config threads Hconfig Hsearch Hrun)
    as (k & notes & n & ts & _ & _ & _ & _ & Hlog & Hstore & _).
  exists k. split; [exact Hlog|]. split; [exact Hstore|].
  exact (stored_watermark_after _ w w' Hstore).
Qed.

(** X26: a run that raises after the search: the message whose visit
    raised is the last in the trace of visits, the store holds the
    watermark of the visit before it (it is as before when the first visit
    raised), and the last request of the run is the failure summary with
    the error, sent once (up to four POSTs). *)
Theorem aborted_run_keeps_completed_visits (w w' : World) (config : AppConfig)
    (threads : list GmailThread) (e : jsstring) :
  ConfigService.getConfig w = (Ok config, w) ->
  mailbox w (EmailService.query P (lastProcessedTime config) (senderWhitelist config))
    0 (of_number (EmailService_new (maxEmailsPerRun config))) = Some threads ->
  RunOrchestrator.processEmails P w = (Throw e, w') ->
  let emails := new_messages (lastProcessedTime config) threads in
  exists k notes n timestamp,
    (k < length emails)%nat
    /\ log w' = log w ++ map event_of (firstn (S k) emails)
    /\ properties w' = watermark_after (firstn k emails) (properties w)
    /\ Forall is_notification notes
    /\ (1 <= n <= 4)%nat
    /\ line_requests w'
       = line_requests w ++ notes
         ++ repeat (summary_request config
                      (RunOrchestrator.summary_text timestamp 0 0 (lit "0.00")
                         Failed (Some e))) n.
Proof.
  intros Hconfig Hsearch Hrun emails.
  destruct (processEmails_trace P w w' (Throw e) config threads Hconfig Hsearch Hrun)
    as (k & notes & n & ts & Hk & Hall & Hn & _ & Hlog & Hk1 & Hstore & Hreq).
  fold emails in Hk, Hlog, Hstore.
  destruct k as [|k]; [lia|].
  replace (S k - 1)%nat with k in Hstore by lia.
  exists k, notes, n, ts. repeat split; try assumption; lia.
Qed.

(** X27: a search that returns more than six minutes after the start of
    the run is not used: the run visits nothing and leaves the store as it
    was, whatever the search found, and its summary reports no mail. *)
Theorem late_search_is_dropped (w : World) (config : AppConfig)
    (threads : list GmailThread) :
  ConfigService.getConfig w = (Ok config, w) ->
  mailbox w (EmailService.query P (lastProcessedTime config) (senderWhitelist config))
    0 (of_number (EmailService_new (maxEmailsPerRun config))) = Some threads ->
  MAX_EXECUTION_TIME_MS < clock w (S (clock_reads w)) - clock w (clock_reads w) ->
  exists w' n timestamp secs,
    RunOrchestrator.processEmails P w = (Ok tt, w')
    /\ properties w' = properties w
    /\ log w' = log w
    /\ gemini_requests w' = gemini_requests w
    /\ (1 <= n <= 4)%nat
    /\ line_requests w'
       = line_requests w
         ++ repeat (summary_request config
                      (RunOrchestrator.summary_text timestamp 0 0 secs
                         Completed None)) n.
Proof.
  intros Hconfig Hsearch Hlate. apply getConfig_tick in Hconfig.
  unfold RunOrchestrator.processEmails.
  unfold bind at 1, now at 1. unfold bind at 1. rewrite Hconfig.
  unfold bind at 1. unfold RunOrchestrator.fetchEmails.
  unfold bind at 1. rewrite fetchNewEmails_eq.
  change (mailbox (tick w)) with (mailbox w). rewrite Hsearch.
  unfold bind at 1, now at 1.
  change (clock (tick w) (clock_reads (tick w))) with (clock w (S (clock_reads w))).
  destruct (Z.ltb_spec MAX_EXECUTION_TIME_MS
              (clock w (S (clock_reads w)) - clock w (clock_reads w))); [|lia].
  unfold ret at 1. change (length (@nil EmailMessage) =? 0)%nat with true. cbv iota.
  unfold try_catch. unfold bind at 1, now at 1.
  match goal with
  | |- context [RunOrchestrator.sendRunSummary P ?c ?a ?b ?x ?s ?e ?w1] =>
      destruct (summary_trace P c a b x s e w1)
        as (w2 & n & Hsum & Hn & Hreq & Hprompt & Hlog & Hstore)
  end.
  rewrite Hsum. exists w2, n. eexists. eexists.
  split; [reflexivity|]. split; [exact Hstore|]. split; [exact Hlog|].
  split; [exact Hprompt|]. split; [exact Hn|exact Hreq].
Qed.

End RunProperties.


(** ** The runs of the bundled entry point *)

Section BundleProperties.
Variable P : Platform.

Lemma notifies_only_refl (w w' : World) :
  gemini_requests w' = gemini_requests w -> line_requests w' = line_requests w ->
  notifies_only w w'.
Proof.
  intros Hg Hl. split; [exact Hg|]. exists []. rewrite app_nil_r.
  split; [exact Hl|constructor].
Qed.

Lemma notifies_only_trans (w1 w2 w3 : World) :
  notifies_only w1 w2 -> notifies_only w2 w3 -> notifies_only w1 w3.
Proof.
  intros (G1 & n1 & L1 & A1) (G2 & n2 & L2 & A2). split; [congruence|].
  exists (n1 ++ n2). split; [rewrite L2, L1, <- app_assoc; reflexivity|].
  apply Forall_app. split; assumption.
Qed.

Lemma Main_processEmail_notifies (email : EmailMessage) (config : jsval)
    (w w' : World) (r : Result nat) :
  Main.processEmail P email config w = (r, w') -> notifies_only w w'.
Proof.
  unfold Main.processEmail, bind at 1, logger_info. unfold bind at 1.
  destruct (EmailParser_extractTodos_returns P (body_of email) (id email)
              (from email) (subject email) (add_log (event_of email) w))
    as (todos & n & Hextract).
  fold (event_of email). rewrite Hextract.
  destruct (ticks_fields n (add_log (event_of email) w))
    as (_ & _ & _ & _ & _ & T6 & _ & T8 & _).
  cbn [line_requests gemini_requests add_log] in T6, T8.
  destruct (length todos =? 0)%nat.
  - unfold ret. intros [= <- <-]. apply notifies_only_refl; assumption.
  - pose proof (formatTodosForLine_head todos (from email) (subject email)) as Hhead.
    destruct (MessageFormatter.formatTodosForLine todos (from email) (subject email))
      as [|c m].
    + unfold ret. intros [= <- <-]. apply notifies_only_refl; assumption.
    + destruct Hhead as [Hhead|Hhead]; [discriminate|].
      unfold bind.
      destruct (LineService.pushMessage_untyped P
                  (Val.get_opt (lit "lineAccessToken") config)
                  (Val.get_opt (lit "lineGroupId") config) (c :: m)
                  (ticks n (add_log (event_of email) w)))
        as [[response|e] w2] eqn:Hpush;
        apply pushMessage_untyped_frame in Hpush;
        destruct Hpush as (k & zs & _ & _ & _ & _ & _ & _ & _ & H7 & _ & H9 & _);
        unfold ret; intros [= <- <-];
        (split; [rewrite H7; exact T8|]);
        eexists; (split; [rewrite H9, T6; reflexivity|]);
        apply List.Forall_forall; intros x Hx; apply repeat_spec in Hx; subst x;
        exact Hhead.
Qed.

Lemma Main_loop_notifies (config : jsval) (startTime : Z) :
  forall (emails : list EmailMessage) (total : nat) (w w' : World) (r : Result nat),
    Main.processFilteredEmails_from P emails config startTime total w = (r, w') ->
    notifies_only w w'.
Proof.
  induction emails as [|email rest IH]; intros total w w' r Hrun.
  - cbn in Hrun. unfold ret in Hrun. injection Hrun as _ <-.
    apply notifies_only_refl; reflexivity.
  - cbn [Main.processFilteredEmails_from] in Hrun.
    unfold bind at 1, now at 1 in Hrun.
    destruct (MAX_EXECUTION_TIME_MS <? clock w (clock_reads w) - startTime).
    + unfold ret in Hrun. injection Hrun as _ <-.
      apply notifies_only_refl; reflexivity.
    + unfold bind at 1 in Hrun.
      destruct (Main.processEmail P email config (tick w)) as [[n|e] w1] eqn:Hvisit;
        apply Main_processEmail_notifies in Hvisit.
      * apply IH in Hrun. exact (notifies_only_trans (tick w) w1 w' Hvisit Hrun).
      * injection Hrun as _ <-. exact Hvisit.
Qed.

Lemma write_clock_notifies (w3 w' : World) (r : Result unit) :
  (t <- now ;; JsonConfigService.updateLastProcessedTime P t) w3 = (r, w') ->
  notifies_only w3 w'.
Proof.
  intros Hrun. apply write_clock_effect in Hrun.
  destruct r as [[]|e].
  - destruct Hrun as (fields & _ & _ & ->). apply notifies_only_refl; reflexivity.
  - subst w'. apply notifies_only_refl; reflexivity.
Qed.

(** The fetch of the bundle sends nothing. *)
Lemma fetchAndFilterEmails_quiet (config : jsval) (startTime : Z)
    (w w' : World) (r : Result (list EmailMessage)) :
  Main.fetchAndFilterEmails P config startTime w = (r, w') ->
  properties w' = properties w
  /\ gemini_requests w' = gemini_requests w /\ line_requests w' = line_requests w.
Proof.
  unfold Main.fetchAndFilterEmails, bind at 1.
  unfold EmailServiceFilter.fetchNewEmails, bind at 1.
  assert (Hdate : exists rq,
            (match Coerce.Date_of P (Val.get_opt (lit "lastProcessedTime") config) with
             | Some t => ret (formatDate P t)
             | None =>
                 match formatDate_invalid P with
                 | Some day => ret day
                 | None => throw (lit "Invalid argument: date")
                 end
             end) w = (rq, w)).
  { destruct (Coerce.Date_of P (Val.get_opt (lit "lastProcessedTime") config));
      [|destruct (formatDate_invalid P)]; eexists; reflexivity. }
  destruct Hdate as (rq & ->).
  destruct rq as [queryDate|e]; [|intros [= _ <-]; repeat split].
  unfold bind at 1, GmailApp_search.
  destruct (mailbox w (EmailServiceFilter.query queryDate) 0
              (EmailService_new_untyped (Val.get_opt (lit "maxEmailsPerRun") config)));
    [|intros [= _ <-]; repeat split].
  unfold ret at 1. unfold bind at 1, now at 1.
  destruct (MAX_EXECUTION_TIME_MS <? clock w (clock_reads w) - startTime);
    [intros [= _ <-]; repeat split|].
  unfold EmailServiceFilter.filterBySender_untyped.
  match goal with
  | |- context [EmailServiceFilter.filtered_by_sender P ?l ?wl] =>
      destruct (EmailServiceFilter.filtered_by_sender P l wl)
  end; intros [= _ <-]; repeat split.
Qed.

(** X28: the bundled entry point never calls the generative endpoint, and
    every request it sends to the chat endpoint is a notification of
    items: it sends no run summary, neither when it returns nor when it
    raises. *)
Theorem bundled_run_sends_notifications_only (w : World) :
  let w' := snd (Main.processEmails P w) in
  gemini_requests w' = gemini_requests w
  /\ exists notes,
       line_requests w' = line_requests w ++ notes
       /\ Forall is_notification notes
       /\ Forall (fun r => ~ is_summary r) notes.
Proof.
  intros w'.
  assert (Hgoal : notifies_only w w').
  { subst w'. unfold Main.processEmails. unfold bind at 1, now at 1. unfold try_catch.
    assert (Hbody : forall r0 w0,
              notifies_only (tick w) w0 ->
              notifies_only w
                (snd (match r0 with
                      | Ok a => (Ok a, w0)
                      | Throw e => (now ;; throw (A := unit) e) w0
                      end))).
    { intros r0 w0 H0. destruct r0 as [a|e]; [exact H0|].
      unfold bind, now, throw. cbn [snd].
      refine (notifies_only_trans w w0 (tick w0) H0 _).
      apply notifies_only_refl; reflexivity. }
    match goal with
    | |- notifies_only w (snd (match ?m (tick w) with _ => _ end)) =>
        destruct (m (tick w)) as [r0 w0] eqn:Hm
    end.
    apply (Hbody r0 w0). clear Hbody. revert Hm.
    unfold bind at 1. rewrite getConfig_eq_json.
    destruct (read_config P (properties (tick w))) as [obj|e];
      [|intros [= _ <-]; apply notifies_only_refl; reflexivity].
    destruct (Coerce.Date_of P (Val.get_opt (lit "lastProcessedTime") obj));
      [|unfold throw at 1; intros [= _ <-]; apply notifies_only_refl; reflexivity].
    unfold bind at 1.
    destruct (Main.fetchAndFilterEmails P obj (clock w (clock_reads w)) (tick w))
      as [[emails|e] w1] eqn:Hfetch;
      apply fetchAndFilterEmails_quiet in Hfetch;
      destruct Hfetch as (_ & F1 & F2);
      [|intros [= _ <-]; apply notifies_only_refl; assumption].
    assert (Hw1 : notifies_only (tick w) w1)
      by (apply notifies_only_refl; assumption).
    destruct (length emails =? 0)%nat.
    - intros Hwrite. apply write_clock_notifies in Hwrite.
      exact (notifies_only_trans (tick w) w1 w0 Hw1 Hwrite).
    - unfold bind at 1. unfold Main.processFilteredEmails.
      destruct (Main.processFilteredEmails_from P emails obj
                  (clock w (clock_reads w)) 0 w1) as [[total|e] w3] eqn:Hloop;
        apply Main_loop_notifies in Hloop.
      + intros Hwrite. apply write_clock_notifies in Hwrite.
        refine (notifies_only_trans (tick w) w3 w0 _ Hwrite).
        exact (notifies_only_trans (tick w) w1 w3 Hw1 Hloop).
      + intros [= _ <-].
        exact (notifies_only_trans (tick w) w1 w3 Hw1 Hloop). }
  destruct Hgoal as (Hg & notes & Hl & Hall).
  split; [exact Hg|]. exists notes. split; [exact Hl|]. split; [exact Hall|].
  apply List.Forall_forall. intros x Hx.
  rewrite List.Forall_forall in Hall.
  exact (notification_is_not_summary x (Hall x Hx)).
Qed.




(** X30: with a stored configuration that [getConfig] loads but that
    [validateConfig] does not accept, every run of the bundled entry
    point raises, and the store is left as it was: the run gets as far as
    its notifications, but the final write of the watermark is
    refused. *)
Theorem bundled_run_with_invalid_configuration_raises (w : World) (config : jsval) :
  JsonConfigService.getConfig P w = (Ok config, w) ->
  fst (JsonConfigService.validateConfig P config w) <> Ok JsonConfigService.success ->
  exists e w',
    Main.processEmails P w = (Throw e, w') /\ properties w' = properties w.
Proof.
  intros Hload Hinvalid. rewrite getConfig_eq_json in Hload.
  assert (Hread : read_config P (properties w) = Ok config) by congruence.
  assert (Hblocked : forall w3,
            properties w3 = properties w ->
            exists e,
              (t <- now ;; JsonConfigService.updateLastProcessedTime P t) w3
              = (Throw e, tick w3)).
  { intros w3 Hsame. unfold bind at 1, now at 1.
    destruct (update_blocked P (tick w3) w config (clock w3 (clock_reads w3)))
      as (e & He & _); [cbn [properties tick]; rewrite Hsame; exact Hread
                       |exact Hinvalid|].
    exists e. exact He. }
  assert (Hresult : forall (r : Result unit) (w0 : World),
            (exists e, r = Throw e) -> properties w0 = properties w ->
            exists e w',
              match r with
              | Ok a => (Ok a, w0)
              | Throw e => (now ;; throw (A := unit) e) w0
              end = (Throw e, w') /\ properties w' = properties w).
  { intros r w0 [e ->] Hsame. exists e, (tick w0). split; [reflexivity|exact Hsame]. }
  unfold Main.processEmails. unfold bind at 1, now at 1. unfold try_catch.
  match goal with
  | |- exists e w', match ?m (tick w) with _ => _ end = _ /\ _ =>
      destruct (m (tick w)) as [r0 w0] eqn:Hm
  end.
  assert (Hbody : (exists e, r0 = Throw e) /\ properties w0 = properties w).
  { revert Hm. unfold bind at 1. rewrite getConfig_eq_json.
    change (properties (tick w)) with (properties w). rewrite Hread.
    destruct (Coerce.Date_of P (Val.get_opt (lit "lastProcessedTime") config));
      [|unfold throw at 1; intros [= <- <-]; split; [eauto|reflexivity]].
    unfold bind at 1.
    destruct (Main.fetchAndFilterEmails P config (clock w (clock_reads w)) (tick w))
      as [[emails|e] w1] eqn:Hfetch;
      apply fetchAndFilterEmails_quiet in Hfetch;
      destruct Hfetch as (F0 & _ & _);
      change (properties (tick w)) with (properties w) in F0;
      [|intros [= <- <-]; split; [eauto|exact F0]].
    destruct (length emails =? 0)%nat.
    - destruct (Hblocked w1 F0) as [e ->].
      intros [= <- <-]. split; [eauto|exact F0].
    - unfold bind at 1. unfold Main.processFilteredEmails.
      destruct (Main.processFilteredEmails_from P emails config
                  (clock w (clock_reads w)) 0 w1) as [[total|e] w3] eqn:Hloop;
        apply Main_loop_effect in Hloop;
        destruct Hloop as (k & _ & _ & U1 & _).
      + destruct (Hblocked w3 ltac:(congruence)) as [e ->].
        intros [= <- <-]. split; [eauto|cbn [properties tick]; congruence].
      + intros [= <- <-]. split; [eauto|congruence]. }
  destruct Hbody as [Hthrow Hsame].
  exact (Hresult r0 w0 Hthrow Hsame).
Qed.

End BundleProperties.

(** ** Closed examples *)

Ltac not_in := let H := fresh in intros H; vm_compute in H; intuition discriminate.


Lemma strip_code_fence_unwraps_witness :
  GeminiService.strip_code_fence
    ([] ++ (lit "```json" ++ nl ++ Scenario.one_todo ++ nl ++ lit "```") ++ nl)
  = Scenario.one_todo.
Proof.
  apply (proj1 (strip_code_fence_unwraps [] nl Scenario.one_todo
                  ltac:(constructor) ltac:(repeat constructor))).
Defined.

Lemma parseTodosFromResponse_all_or_nothing_witness :
  exists items,
    GeminiService.parseTodosFromResponse Scenario.P0 (JStr Scenario.one_todo)
      (lit "m1") (lit "a@x.com") (lit "subject") Scenario.w_oldest_first
    = (Ok items, ticks 1 Scenario.w_oldest_first)
    /\ map description items = [JStr (lit "Review pull request")].
Proof.
  destruct (proj1 (parseTodosFromResponse_all_or_nothing Scenario.P0 Scenario.one_todo
                     (lit "m1") (lit "a@x.com") (lit "subject")
                     [JObj [(lit "description", JStr (lit "Review pull request"))]]
                     Scenario.w_oldest_first ltac:(vm_compute; reflexivity))
              ltac:(repeat constructor))
    as (items & Hrun & Hd & _).
  exists items. split; [exact Hrun|]. rewrite Hd. vm_compute. reflexivity.
Defined.

Lemma parse_whitelist_reads_back_witness :
  ConfigService.parse_whitelist
    (Js.join (lit "," ++ lit " ") [lit "a@x.com"; lit "b@y.org"])
  = [lit "a@x.com"; lit "b@y.org"].
Proof.
  apply parse_whitelist_reads_back.
  - repeat constructor.
  - repeat constructor; try discriminate; try (vm_compute; reflexivity); not_in.
Defined.

Lemma getConfig_missing_property_witness :
  ConfigService.getConfig w_unconfigured
  = (Throw (ConfigService.missing "lineAccessToken"), w_unconfigured).
Proof.
  apply (proj1 (getConfig_missing_property w_unconfigured)). reflexivity.
Defined.

Lemma loaded_config_is_well_formed_witness :
  Forall clean (senderWhitelist (Scenario.config 1000 100))
  /\ valid_time (lastProcessedTime (Scenario.config 1000 100)) = true.
Proof.
  destruct (loaded_config_is_well_formed Scenario.w_oldest_first
              Scenario.w_oldest_first (Scenario.config 1000 100)
              ltac:(vm_compute; reflexivity))
    as (_ & _ & _ & _ & _ & _ & _ & _ & Hclean & Hvalid).
  split; assumption.
Defined.

Lemma getConfig_optional_properties_witness :
  exists c,
    ConfigService.getConfig Scenario.w_oldest_first = (Ok c, Scenario.w_oldest_first)
    /\ lastProcessedTime c = 1000.
Proof.
  apply (proj1 (proj2 (getConfig_optional_properties Scenario.w_oldest_first
                         ltac:(repeat split; try (vm_compute; reflexivity);
                               vm_compute; discriminate)))
           (lit "1000") 1000).
  - vm_compute. reflexivity.
  - discriminate.
  - vm_compute. reflexivity.
  - reflexivity.
Defined.

Lemma watermark_round_trip_witness :
  ConfigService.getConfig (advance 3000 Scenario.w_oldest_first)
  = (Ok (set_lastProcessedTime 3000 (Scenario.config 1000 100)),
     advance 3000 Scenario.w_oldest_first).
Proof.
  apply (proj1 (proj2 (watermark_round_trip Scenario.w_oldest_first
                         (Scenario.config 1000 100) 3000
                         ltac:(vm_compute; reflexivity) ltac:(reflexivity)))).
Defined.

Lemma setConfig_stores_valid_only_witness :
  JsonConfigService.setConfig Scenario.P1 (JObj text_watermark_fields)
    w_unconfigured
  = (Ok tt, write_config Scenario.P1 (JObj text_watermark_fields) w_unconfigured).
Proof.
  apply (proj1 (setConfig_stores_valid_only Scenario.P1
                  (JObj text_watermark_fields) Scenario.token Scenario.group
                  [lit "a@x.com"] w_unconfigured
                  ltac:(repeat split; vm_compute; try reflexivity; exact I))).
  split; [vm_compute; lia|]. split; [reflexivity|]. split; [discriminate|].
  split; [repeat constructor|].
  split; [vm_compute; split; [discriminate|reflexivity]|vm_compute; exact I].
Defined.

Lemma invalid_configuration_blocks_update_witness :
  exists e,
    JsonConfigService.updateLastProcessedTime Scenario.P1 3000 w_short_token
    = (Throw e, w_short_token)
    /\ e = lit "Invalid configuration: Invalid LINE access token (too short)".
Proof.
  destruct (invalid_configuration_blocks_update Scenario.P1 w_short_token
              (JObj short_token_fields) 3000
              ltac:(vm_compute; reflexivity) ltac:(vm_compute; discriminate))
    as (e & Hupdate & Herror).
  exists e. split; [exact Hupdate|]. vm_compute in Herror. vm_compute. exact Herror.
Defined.

Lemma json_watermark_round_trip_witness :
  let w' := snd (JsonConfigService.updateLastProcessedTime Scenario.P1 3000
                   w_text_watermark) in
  exists fields,
    JsonConfigService.getConfig Scenario.P1 w_text_watermark
    = (Ok (JObj fields), w_text_watermark)
    /\ watermark_of (with_watermark 3000 fields) = JNum 3000
    /\ (JSON_stringify Scenario.P1 (with_watermark 3000 fields) <> [] ->
        JSON_parse Scenario.P1 (JSON_stringify Scenario.P1 (with_watermark 3000 fields))
        = Some (with_watermark 3000 fields) ->
        JsonConfigService.getConfig Scenario.P1 w'
        = (Ok (with_watermark 3000 fields), w')).
Proof.
  intros w'.
  apply (json_watermark_round_trip Scenario.P1 w_text_watermark w' 3000).
  vm_compute. reflexivity.
Defined.

Lemma isAllowed_compares_address_witness :
  EmailServiceFilter.isAllowed Scenario.P1 [lit "a@x.com"] message_from_ann = true.
Proof.
  rewrite (proj1 (isAllowed_compares_address Scenario.P1 [lit "a@x.com"] message_from_ann)
             (lit "Ann ") (lit "A@X.com") []).
  - vm_compute. reflexivity.
  - vm_compute. reflexivity.
  - not_in.
  - discriminate.
  - not_in.
Defined.

Lemma run_prompts_once_per_visit_witness :
  exists k,
    let visited := firstn k (new_messages 1000 Scenario.oldest_first) in
    log (snd (RunOrchestrator.processEmails Scenario.P0 Scenario.w_oldest_first))
    = log Scenario.w_oldest_first ++ map event_of visited
    /\ gemini_requests
         (snd (RunOrchestrator.processEmails Scenario.P0 Scenario.w_oldest_first))
       = gemini_requests Scenario.w_oldest_first ++ map prompt_of visited.
Proof.
  apply (run_prompts_once_per_visit Scenario.P0 Scenario.w_oldest_first
           (Scenario.config 1000 100) Scenario.oldest_first).
  - vm_compute. reflexivity.
  - vm_compute. reflexivity.
Defined.

Lemma completed_run_stores_last_visited_witness :
  exists k,
    let visited := firstn k (new_messages 1000 Scenario.newest_first) in
    let w' := snd (RunOrchestrator.processEmails Scenario.P0 Scenario.w_newest_first) in
    log w' = log Scenario.w_newest_first ++ map event_of visited
    /\ properties w' = watermark_after visited (properties Scenario.w_newest_first)
    /\ stored_watermark w'
       = match last visited with
         | Some email => Some (receivedDate email)
         | None => stored_watermark Scenario.w_newest_first
         end.
Proof.
  apply (completed_run_stores_last_visited Scenario.P0 Scenario.w_newest_first
           (snd (RunOrchestrator.processEmails Scenario.P0 Scenario.w_newest_first))
           (Scenario.config 1000 100) Scenario.newest_first).
  - vm_compute. reflexivity.
  - vm_compute. reflexivity.
  - vm_compute. reflexivity.
Defined.

Lemma aborted_run_keeps_completed_visits_witness :
  let w' := snd (RunOrchestrator.processEmails Scenario.P0 Scenario.w_gemini_500) in
  exists k notes n timestamp,
    (k < length (new_messages 1000 Scenario.oldest_first))%nat
    /\ log w' = log Scenario.w_gemini_500
                ++ map event_of (firstn (S k) (new_messages 1000 Scenario.oldest_first))
    /\ properties w'
       = watermark_after (firstn k (new_messages 1000 Scenario.oldest_first))
           (properties Scenario.w_gemini_500)
    /\ Forall is_notification notes
    /\ (1 <= n <= 4)%nat
    /\ line_requests w'
       = line_requests Scenario.w_gemini_500 ++ notes
         ++ repeat (summary_request (Scenario.config 1000 100)
                      (RunOrchestrator.summary_text timestamp 0 0 (lit "0.00")
                         Failed (Some (lit "Gemini API error: 500")))) n.
Proof.
  intros w'.
  apply (aborted_run_keeps_completed_visits Scenario.P0 Scenario.w_gemini_500 w'
           (Scenario.config 1000 100) Scenario.oldest_first
           (lit "Gemini API error: 500")).
  - vm_compute. reflexivity.
  - vm_compute. reflexivity.
  - vm_compute. reflexivity.
Defined.

Lemma late_search_is_dropped_witness :
  exists w' n timestamp secs,
    RunOrchestrator.processEmails Scenario.P0 w_slow_search = (Ok tt, w')
    /\ properties w' = properties w_slow_search
    /\ log w' = log w_slow_search
    /\ gemini_requests w' = gemini_requests w_slow_search
    /\ (1 <= n <= 4)%nat
    /\ line_requests w'
       = line_requests w_slow_search
         ++ repeat (summary_request (Scenario.config 1000 100)
                      (RunOrchestrator.summary_text timestamp 0 0 secs
                         Completed None)) n.
Proof.
  apply (late_search_is_dropped Scenario.P0 w_slow_search (Scenario.config 1000 100)
           Scenario.oldest_first).
  - vm_compute. reflexivity.
  - vm_compute. reflexivity.
  - vm_compute. reflexivity.
Defined.

Lemma run_dispatches_one_summary_witness :
  exists notes summary k,
    line_requests (snd (RunOrchestrator.processEmails Scenario.P0 Scenario.w_line_500))
    = line_requests Scenario.w_line_500 ++ notes ++ repeat summary k
    /\ (1 <= k <= 4)%nat
    /\ Forall is_notification notes
    /\ is_summary summary
    /\ to summary = JStr (lineGroupId (Scenario.config 1000 100)).
Proof.
  apply (run_dispatches_one_summary Scenario.P0 Scenario.w_line_500
           (Scenario.config 1000 100) Scenario.oldest_first).
  - vm_compute. reflexivity.
  - vm_compute. reflexivity.
Defined.


Lemma bundled_run_with_invalid_configuration_raises_witness :
  exists e w',
    Main.processEmails Scenario.P1 w_short_token = (Throw e, w')
    /\ properties w' = properties w_short_token.
Proof.
  apply (bundled_run_with_invalid_configuration_raises Scenario.P1 w_short_token
           (JObj short_token_fields)).
  - vm_compute. reflexivity.
  - vm_compute. discriminate.
Defined.

